(** * tyk-k8s: the annotation processor and the sidecar injector

    A shallow embedding of three Go packages of the repository,

    - [processor] (processor/proc.go): typed annotation keys written into a
      JSON document,
    - [injector] (the admission webhook): the mutation policy, the patch
      synthesis, the route registration and certificate workflows and the
      HTTP handler, and
    - [webserver]: the server the webhook is served by,

    followed by the properties proved about them.  Go's [string] is Rocq's
    [string] (a sequence of bytes), a Go [map[string]string] is a
    [gmap string string], a slice is a [list], and a pair [(T, error)] is a
    value of [T * option error]. *)

From Stdlib Require Import ZArith Ascii DecimalString Lia.
From stdpp Require Import base option list strings gmap fin_maps.

Local Open Scope Z_scope.

(** ** Go's standard library, as far as the two packages use it *)

Module Go.

(** [strings.HasPrefix(s, prefix)]. *)
Definition HasPrefix (s prefix : string) : bool :=
  Stdlib.Strings.String.prefix prefix s.

(** [len(s)], in bytes. *)
Definition len (s : string) : nat := Stdlib.Strings.String.length s.

(** The slice expression [s[n:]].  Go panics when [n > len(s)]; both uses
    in [processor.set] stand behind a [HasPrefix] test with a prefix of
    [n] bytes, where [n <= len(s)] (lemma [HasPrefix_len] below), and the
    model returns the empty string beyond the end. *)
Fixpoint slice_from (n : nat) (s : string) : string :=
  match n, s with
  | O, _ => s
  | S n', String _ s' => slice_from n' s'
  | S _, EmptyString => EmptyString
  end.

(** [strings.Replace(s, old, new, -1)] for one-byte [old] and [new]. *)
Fixpoint ReplaceAll (s : string) (old new : ascii) : string :=
  match s with
  | EmptyString => EmptyString
  | String c s' =>
      String (if Ascii.eqb c old then new else c) (ReplaceAll s' old new)
  end.

(** Lower-casing of the bytes 'A'..'Z'; what [strings.ToLower] does to a
    string with no byte above 0x7f. *)
Definition lower_byte (c : ascii) : ascii :=
  let n := nat_of_ascii c in
  if ((65 <=? n)%nat && (n <=? 90)%nat)%bool then ascii_of_nat (n + 32) else c.

Fixpoint lower_ascii (s : string) : string :=
  match s with
  | EmptyString => EmptyString
  | String c s' => String (lower_byte c) (lower_ascii s')
  end.

(** No byte of [s] is above 0x7f. *)
Fixpoint isASCII (s : string) : bool :=
  match s with
  | EmptyString => true
  | String c s' => ((nat_of_ascii c <? 128)%nat && isASCII s')%bool
  end.

(** [strconv.Itoa]. *)
Definition Itoa (n : Z) : string := NilZero.string_of_int (Z.to_int n).

(** [*strconv.NumError.Err]: [ErrSyntax] or [ErrRange]. *)
Variant NumErr := ErrSyntax | ErrRange.

(** Go's [error] values met in [processor]: one made by [errors.New], a
    [*strconv.NumError], or one handed back by a library the package
    calls ([encoding/json], [sjson]). *)
Inductive error : Type :=
| errors_New (msg : string)
| NumError (Func Num : string) (Err : NumErr)
| library_error (pkg msg : string).

(** The decimal digits of [s] read as a number, most significant first. *)
Fixpoint digits (s : string) (acc : Z) : option Z :=
  match s with
  | EmptyString => Some acc
  | String c s' =>
      let n := nat_of_ascii c in
      if ((48 <=? n)%nat && (n <=? 57)%nat)%bool
      then digits s' (acc * 10 + Z.of_nat (n - 48))
      else None
  end.

(** The loop of [strconv.ParseUint(s, 10, 64)] over the bytes of [s] from
    the value [n]: a byte that is no digit is a syntax error, and the value
    leaving 64 bits is a range error, whichever comes first. *)
Fixpoint ParseUint (s : string) (n : Z) : NumErr + Z :=
  match s with
  | EmptyString => inr n
  | String c s' =>
      let d := nat_of_ascii c in
      if ((48 <=? d)%nat && (d <=? 57)%nat)%bool then
        if (2 ^ 64 - 1) / 10 + 1 <=? n then inl ErrRange
        else
          let n1 := n * 10 + Z.of_nat (d - 48) in
          if 2 ^ 64 - 1 <? n1 then inl ErrRange else ParseUint s' n1
      else inl ErrSyntax
  end.

(** [strconv.Atoi] with a 64-bit [int]: an optional sign, at least one
    decimal digit and nothing else; [ErrRange] outside [-2^63, 2^63). *)
Definition Atoi (s : string) : error + Z :=
  match s with
  | EmptyString => inl (NumError "Atoi" s ErrSyntax)
  | String c rest =>
      let '(neg, body) :=
        if Ascii.eqb c "-" then (true, rest)
        else if Ascii.eqb c "+" then (false, rest)
        else (false, s) in
      match body with
      | EmptyString => inl (NumError "Atoi" s ErrSyntax)
      | _ =>
          match ParseUint body 0 with
          | inl kind => inl (NumError "Atoi" s kind)
          | inr un =>
              if neg then
                if 2 ^ 63 <? un then inl (NumError "Atoi" s ErrRange)
                else inr (- un)
              else
                if 2 ^ 63 <=? un then inl (NumError "Atoi" s ErrRange)
                else inr un
          end
      end
  end.

End Go.


(** ** JSON documents

    [processor.Process] takes and returns the text of a JSON document and
    edits it through [sjson].  The model holds the document in parsed form:
    an object keeps its members in the order of the text, a number keeps its
    literal. *)

Module JSON.

#[local] Set Warnings "-register-all".

Inductive json : Type :=
| Null
| Bool (b : bool)
| Number (lit : string)
| Str (s : string)
| Array (items : list json)
| Object (members : list (string * json)).

(** The empty document [{}]. *)
Definition empty_object : json := Object [].

(** The value of the first member named [key]. *)
Fixpoint member (key : string) (ms : list (string * json)) : option json :=
  match ms with
  | [] => None
  | (k, v) :: ms' => if String.eqb k key then Some v else member key ms'
  end.

(** The segments of a dotted path: ["a.b"] is [["a"; "b"]]. *)
Fixpoint segments (path : string) : list string :=
  match path with
  | EmptyString => [EmptyString]
  | String c rest =>
      if Ascii.eqb c "." then EmptyString :: segments rest
      else match segments rest with
           | p :: ps => String c p :: ps
           | [] => [String c EmptyString]
           end
  end.

(** An array index: a segment of decimal digits. *)
Definition index (p : string) : option nat := Z.to_nat <$> Go.digits p 0.

(** The value at a path of object keys and array indices, as [gjson.Get]
    finds it. *)
Fixpoint get_segments (ps : list string) (doc : json) : option json :=
  match ps with
  | [] => Some doc
  | p :: ps' =>
      match doc with
      | Object ms =>
          match member p ms with
          | Some child => get_segments ps' child
          | None => None
          end
      | Array items =>
          match index p with
          | Some i =>
              match items !! i with
              | Some child => get_segments ps' child
              | None => None
              end
          | None => None
          end
      | _ => None
      end
  end.

Definition Get (doc : json) (path : string) : option json :=
  get_segments (segments path) doc.

End JSON.

Export JSON (json).


(** ** A model of [sjson.Set]

    [sjson] (github.com/tidwall/sjson) is a library the repository imports.
    The model covers paths made of object keys and array indices separated
    by dots, which is what an annotation key turns into; [sjson]'s escapes,
    its [:] prefix, the index [-1] inside a freshly built value and the
    modifiers of [gjson] are not modelled and such a segment counts as a
    plain key.  What [sjson] hands back beside an error differs between its
    releases; the model hands back the document it was given, and no
    statement below depends on that. *)

Module sjson.

Import JSON.

(** The value built for the part of a path that the document lacks: an
    array, padded with [null], under an index and an object under a key. *)
Fixpoint build (ps : list string) (v : json) : json :=
  match ps with
  | [] => v
  | p :: ps' =>
      match index p with
      | Some n => Array (replicate n Null ++ [build ps' v])
      | None => Object [(p, build ps' v)]
      end
  end.

(** [f] applied to the value of the first member named [key]; [None] when
    the object has no such member. *)
Fixpoint update_member (key : string) (f : json → Go.error + json)
    (ms : list (string * json)) : option (Go.error + list (string * json)) :=
  match ms with
  | [] => None
  | (k, v) :: ms' =>
      if String.eqb k key
      then Some (match f v with
                 | inl e => inl e
                 | inr v' => inr ((k, v') :: ms')
                 end)
      else match update_member key f ms' with
           | None => None
           | Some (inl e) => Some (inl e)
           | Some (inr ms'') => Some (inr ((k, v) :: ms''))
           end
  end.

Fixpoint set_segments (ps : list string) (v : json) (doc : json)
    : Go.error + json :=
  match ps with
  | [] => inr v
  | p :: ps' =>
      match doc with
      | Object ms =>
          match update_member p (set_segments ps' v) ms with
          | Some (inl e) => inl e
          | Some (inr ms') => inr (Object ms')
          | None => inr (Object (ms ++ [(p, build ps' v)]))
          end
      | Array items =>
          match index p with
          | Some i =>
              match items !! i with
              | Some child =>
                  match set_segments ps' v child with
                  | inl e => inl e
                  | inr child' => inr (Array (<[i:=child']> items))
                  end
              | None =>
                  inr (Array (items ++ replicate (i - length items) Null
                                    ++ [build ps' v]))
              end
          | None =>
              if String.eqb p "-1" then inr (Array (items ++ [build ps' v]))
              else inl (Go.library_error "sjson"
                          ("cannot set array element for non-numeric key '"
                             +:+ p +:+ "'"))
          end
      | _ => inr (build ps v)
      end
  end.

(** The characters [sjson] refuses in a path. *)
Fixpoint refused (path : string) : option Go.error :=
  match path with
  | EmptyString => None
  | String c rest =>
      if (Ascii.eqb c "*" || Ascii.eqb c "?")%bool
      then Some (Go.library_error "sjson" "wildcard characters not allowed in path")
      else if Ascii.eqb c "#"
      then Some (Go.library_error "sjson" "array access character not allowed in path")
      else refused rest
  end.

(** [sjson.Set]; [Set] is reserved in Rocq. *)
Definition Set' (doc : json) (path : string) (value : json)
    : json * option Go.error :=
  if String.eqb path EmptyString
  then (doc, Some (Go.library_error "sjson" "path cannot be empty"))
  else match refused path with
       | Some e => (doc, Some e)
       | None =>
           match set_segments (segments path) value doc with
           | inl e => (doc, Some e)
           | inr doc' => (doc', None)
           end
       end.

End sjson.


(** ** A model of [json.Unmarshal] followed by [json.Marshal]

    [processor.set] decodes the value of an [object.] or [array.] annotation
    into a Go map or slice and hands it to [sjson.Set], which writes it back
    as JSON.  The model reads the text into a [json] value the way that round
    trip leaves it: the members of an object sorted by key, the last of
    several members with one key kept.  A number keeps its literal (Go goes
    through a [float64]) and a [\u] escape is refused: both are outside the
    model. *)

Module encoding_json.

Import JSON.

(** [s] between double quotes, for the texts of the examples. *)
Definition quoted (s : string) : string :=
  String "034" (s +:+ String "034" EmptyString).

Definition is_space (c : ascii) : bool :=
  (Ascii.eqb c " " || Ascii.eqb c "009" || Ascii.eqb c "010" || Ascii.eqb c "013")%bool.

Fixpoint skip_space (s : string) : string :=
  match s with
  | String c rest => if is_space c then skip_space rest else s
  | EmptyString => s
  end.

(** [s] without its prefix [p]. *)
Fixpoint after (p s : string) : option string :=
  match p, s with
  | EmptyString, _ => Some s
  | String a p', String b s' => if Ascii.eqb a b then after p' s' else None
  | String _ _, EmptyString => None
  end.

Definition unescape (c : ascii) : option ascii :=
  if Ascii.eqb c "034" then Some c
  else if Ascii.eqb c "\" then Some c
  else if Ascii.eqb c "/" then Some c
  else if Ascii.eqb c "b" then Some "008"%char
  else if Ascii.eqb c "f" then Some "012"%char
  else if Ascii.eqb c "n" then Some "010"%char
  else if Ascii.eqb c "r" then Some "013"%char
  else if Ascii.eqb c "t" then Some "009"%char
  else None.

(** The characters of a string literal up to its closing quote, and the
    text after it. *)
Fixpoint string_body (s : string) : option (string * string) :=
  match s with
  | EmptyString => None
  | String c rest =>
      if Ascii.eqb c "034" then Some (EmptyString, rest)
      else if Ascii.eqb c "\" then
        match rest with
        | String e rest' =>
            match unescape e, string_body rest' with
            | Some c', Some (body, tail) => Some (String c' body, tail)
            | _, _ => None
            end
        | EmptyString => None
        end
      else if (nat_of_ascii c <? 32)%nat then None
      else match string_body rest with
           | Some (body, tail) => Some (String c body, tail)
           | None => None
           end
  end.

Definition is_digit (c : ascii) : bool :=
  let n := nat_of_ascii c in ((48 <=? n)%nat && (n <=? 57)%nat)%bool.

(** The longest prefix of digits, and the text after it. *)
Fixpoint span_digits (s : string) : string * string :=
  match s with
  | String c rest =>
      if is_digit c
      then let '(ds, tail) := span_digits rest in (String c ds, tail)
      else (EmptyString, s)
  | EmptyString => (EmptyString, s)
  end.

(** A number literal: an optional minus, then 0 or a digit string that
    does not start with 0, then an optional fraction and an optional
    exponent. *)
Definition number (s : string) : option (string * string) :=
  let '(sign, s1) := match s with
                     | String "-" r => ("-", r)
                     | _ => (EmptyString, s)
                     end in
  let '(int, s2) := span_digits s1 in
  match int with
  | EmptyString => None
  | String "0" (String _ _) => None
  | _ =>
      let frac :=
        match s2 with
        | String "." r =>
            let '(ds, tail) := span_digits r in
            match ds with
            | EmptyString => None
            | _ => Some ("." +:+ ds, tail)
            end
        | _ => Some (EmptyString, s2)
        end in
      match frac with
      | None => None
      | Some (fr, s3) =>
          let exp :=
            match s3 with
            | String e r =>
                if (Ascii.eqb e "e" || Ascii.eqb e "E")%bool then
                  let '(sg, r') := match r with
                                   | String "+" r' => ("+", r')
                                   | String "-" r' => ("-", r')
                                   | _ => (EmptyString, r)
                                   end in
                  let '(ds, tail) := span_digits r' in
                  match ds with
                  | EmptyString => None
                  | _ => Some (String e sg +:+ ds, tail)
                  end
                else Some (EmptyString, s3)
            | EmptyString => Some (EmptyString, s3)
            end in
          match exp with
          | None => None
          | Some (ex, s4) => Some (sign +:+ int +:+ fr +:+ ex, s4)
          end
      end
  end.

(** A Go map written back as an object: keys in byte order, a repeated key
    keeps its last value. *)
Fixpoint map_put (k : string) (v : json) (ms : list (string * json))
    : list (string * json) :=
  match ms with
  | [] => [(k, v)]
  | (k', v') :: ms' =>
      if String.eqb k k' then (k, v) :: ms'
      else if Stdlib.Strings.String.ltb k k' then (k, v) :: ms
      else (k', v') :: map_put k v ms'
  end.

Fixpoint value (fuel : nat) (s : string) : option (json * string) :=
  match fuel with
  | O => None
  | S fuel' =>
      match skip_space s with
      | String "n" _ => pair Null <$> after "null" (skip_space s)
      | String "t" _ => pair (Bool true) <$> after "true" (skip_space s)
      | String "f" _ => pair (Bool false) <$> after "false" (skip_space s)
      | String "034" rest =>
          match string_body rest with
          | Some (body, tail) => Some (Str body, tail)
          | None => None
          end
      | String "[" rest =>
          match skip_space rest with
          | String "]" tail => Some (Array [], tail)
          | _ =>
              match items fuel' rest with
              | Some (vs, tail) => Some (Array vs, tail)
              | None => None
              end
          end
      | String "{" rest =>
          match skip_space rest with
          | String "}" tail => Some (Object [], tail)
          | _ =>
              match members fuel' rest with
              | Some (ms, tail) =>
                  Some (Object (foldl (fun acc kv => map_put kv.1 kv.2 acc) [] ms), tail)
              | None => None
              end
          end
      | _ =>
          match number (skip_space s) with
          | Some (lit, tail) => Some (Number lit, tail)
          | None => None
          end
      end
  end

with items (fuel : nat) (s : string) : option (list json * string) :=
  match fuel with
  | O => None
  | S fuel' =>
      match value fuel' s with
      | Some (v, tail) =>
          match skip_space tail with
          | String "," tail' =>
              match items fuel' tail' with
              | Some (vs, tail'') => Some (v :: vs, tail'')
              | None => None
              end
          | String "]" tail' => Some ([v], tail')
          | _ => None
          end
      | None => None
      end
  end

with members (fuel : nat) (s : string) : option (list (string * json) * string) :=
  match fuel with
  | O => None
  | S fuel' =>
      match skip_space s with
      | String "034" rest =>
          match string_body rest with
          | Some (key, tail) =>
              match skip_space tail with
              | String ":" tail' =>
                  match value fuel' tail' with
                  | Some (v, tail'') =>
                      match skip_space tail'' with
                      | String "," t =>
                          match members fuel' t with
                          | Some (ms, t') => Some ((key, v) :: ms, t')
                          | None => None
                          end
                      | String "}" t => Some ([(key, v)], t)
                      | _ => None
                      end
                  | None => None
                  end
              | _ => None
              end
          | None => None
          end
      | _ => None
      end
  end.

(** The whole text as one JSON value. *)
Definition decode (s : string) : option json :=
  match value (2 * Go.len s + 2) s with
  | Some (v, tail) =>
      match skip_space tail with
      | EmptyString => Some v
      | _ => None
      end
  | None => None
  end.

(** [json.Unmarshal(data, &d)] with [d] a [map[string]interface{}], as
    [json.Marshal(d)] writes [d] afterwards. *)
Definition Unmarshal_map (data : string) : Go.error + json :=
  match decode data with
  | Some (Object ms) => inr (Object ms)
  | Some Null => inr Null
  | Some _ => inl (Go.library_error "json" "cannot unmarshal into Go value of type map[string]interface {}")
  | None => inl (Go.library_error "json" "invalid JSON")
  end.

(** The same with [d] a [[]interface{}]. *)
Definition Unmarshal_slice (data : string) : Go.error + json :=
  match decode data with
  | Some (Array vs) => inr (Array vs)
  | Some Null => inr Null
  | Some _ => inl (Go.library_error "json" "cannot unmarshal into Go value of type []interface {}")
  | None => inl (Go.library_error "json" "invalid JSON")
  end.

End encoding_json.


(** ** Package [processor] (processor/proc.go) *)

Module processor.

Import JSON.

(** The library functions [set] calls whose results the package only passes
    on: [strings.ToLower], [json.Unmarshal] into a map and into a slice (the
    decoded value as it is written back), and [sjson.Set]. *)
Class Libraries := {
  strings_ToLower : string → string;
  json_Unmarshal_map : string → Go.error + json;
  json_Unmarshal_slice : string → Go.error + json;
  sjson_Set : json → string → json → json * option Go.error
}.

(** The instance the examples run on. *)
Definition golib : Libraries := {|
  strings_ToLower := Go.lower_ascii;
  json_Unmarshal_map := encoding_json.Unmarshal_map;
  json_Unmarshal_slice := encoding_json.Unmarshal_slice;
  sjson_Set := sjson.Set'
|}.

Definition ValueType := string.

Definition ValueSetStringKey : ValueType := "string.service.tyk.io/".
Definition ValueSetBoolKey : ValueType := "bool.service.tyk.io/".
Definition ValueSetNumKey : ValueType := "num.service.tyk.io/".
Definition ObjectSetKey : ValueType := "object.service.tyk.io/".
Definition ArraySetKey : ValueType := "array.service.tyk.io/".

(** [if err != nil { return def, err }] after [def, err = ...]: the rest
    runs on the new document only when there was no error. *)
Definition or_return (r : json * option Go.error)
    (rest : json → json * option Go.error) : json * option Go.error :=
  match r with
  | (def, Some err) => (def, Some err)
  | (def, None) => rest def
  end.

Section Processor.

Context {lib : Libraries}.

Definition set (key val : string) (def : json) (t : ValueType)
    : json * option Go.error :=
  let pth := Go.slice_from (Go.len t) key in
  let pth := Go.ReplaceAll pth "-" "_" in
  if String.eqb t ValueSetStringKey then
    sjson_Set def pth (Str val)
  else if String.eqb t ValueSetBoolKey then
    let lower := strings_ToLower val in
    if String.eqb lower "true" then sjson_Set def pth (Bool true)
    else if String.eqb lower "false" then sjson_Set def pth (Bool false)
    else (def, Some (Go.errors_New "unsupported bool value"))
  else if String.eqb t ValueSetNumKey then
    match Go.Atoi val with
    | inl err => (def, Some err)
    | inr d => sjson_Set def pth (Number (Go.Itoa d))
    end
  else if String.eqb t ObjectSetKey then
    match json_Unmarshal_map val with
    | inl err => (def, Some err)
    | inr d => sjson_Set def pth d
    end
  else if String.eqb t ArraySetKey then
    match json_Unmarshal_slice val with
    | inl err => (def, Some err)
    | inr d => sjson_Set def pth d
    end
  else (def, Some (Go.errors_New "unsupported type")).

(** One of the five [if strings.HasPrefix(k, ...)] blocks of the loop. *)
Definition on_prefix (t : ValueType) (k v : string) (def : json)
    : json * option Go.error :=
  if Go.HasPrefix k t then set k v def t else (def, None).

(** The body of the [range] loop for the entry [k], [v]. *)
Definition visit (k v : string) (def : json) : json * option Go.error :=
  or_return (on_prefix ValueSetStringKey k v def) (λ def,
  or_return (on_prefix ValueSetNumKey k v def) (λ def,
  or_return (on_prefix ValueSetBoolKey k v def) (λ def,
  or_return (on_prefix ArraySetKey k v def) (λ def,
  or_return (on_prefix ObjectSetKey k v def) (λ def,
  (def, None)))))).

(** [Process(ann, def)].  [ann] lists the entries of the annotation map in
    the order in which the [range] loop visits them, which Go leaves open. *)
Fixpoint Process (ann : list (string * string)) (def : json)
    : json * option Go.error :=
  match ann with
  | [] => (def, None)
  | (k, v) :: rest =>
      or_return (visit k v def) (λ def, Process rest def)
  end.

(** The value [v] of the entry [k] cannot be converted to the type its
    prefix asks for, and [e] is the error [set] returns for it: a bool that
    is neither spelling of a boolean, a num that [strconv.Atoi] rejects, an
    object or an array that [json.Unmarshal] rejects. *)
Definition conversion_fails (k v : string) (e : Go.error) : Prop :=
  (Go.HasPrefix k ValueSetBoolKey = true
   ∧ strings_ToLower v ≠ "true" ∧ strings_ToLower v ≠ "false"
   ∧ e = Go.errors_New "unsupported bool value")
  ∨ (Go.HasPrefix k ValueSetNumKey = true ∧ Go.Atoi v = inl e)
  ∨ (Go.HasPrefix k ObjectSetKey = true ∧ json_Unmarshal_map v = inl e)
  ∨ (Go.HasPrefix k ArraySetKey = true ∧ json_Unmarshal_slice v = inl e).

End Processor.

(** [order] is one of the orders in which a [range] loop may visit [m]. *)
Definition visits (m : gmap string string) (order : list (string * string)) : Prop :=
  order ≡ₚ map_to_list m.

(** The error of the bool case, the spec's [UnsupportedValue]. *)
Definition UnsupportedValue : Go.error := Go.errors_New "unsupported bool value".

(** *** The annotation maps of the examples *)

(** The map of the examples for C6: a string entry and a bool entry whose
    value is no boolean. *)
Definition two_entries : list (string * string) :=
  [("string.service.tyk.io/proxy.target-url", "http://orders");
   ("bool.service.tyk.io/use-keyless", "maybe")].

(** A map with a num entry that is no number beside the bool entry, visited
    num entry first. *)
Definition num_then_bool : list (string * string) :=
  [("num.service.tyk.io/cache-timeout", "x");
   ("bool.service.tyk.io/use-keyless", "maybe")].

End processor.


(** ** Package [injector] (the admission webhook) *)

Module injector.

(** An [error] of this package is read only through [err.Error()] and
    compared with [nil]: the model keeps its message. *)
Definition error := string.

(** Go maps are references: an annotation map lives in the store at a
    location, and [None] is the [nil] map. *)
Definition loc := positive.
Definition mapref := option loc.

(** *** The Kubernetes objects, with the fields the package touches

    A slice is the list of its elements: a [nil] slice and an empty one are
    the same list (the package tells them apart only to encode [[]] rather
    than [null]). *)

Record EnvVar := { EnvVar_Name : string; EnvVar_Value : string }.

Record VolumeMount := { VolumeMount_Name : string; MountPath : string }.

Record Container := {
  Container_Name : string;
  Image : string;
  Env : list EnvVar;
  VolumeMounts : list VolumeMount
}.

Record HostAlias := { IP : string; Hostnames : list string }.

Variant VolumeSource :=
| ConfigMap (LocalObjectReference_Name : string)
| EmptyDir.

Record Volume := { Volume_Name : string; Volume_Source : VolumeSource }.

Record PodSpec := {
  Containers : list Container;
  InitContainers : list Container;
  HostAliases : list HostAlias;
  Volumes : list Volume
}.

Record ObjectMeta := {
  Name : string;
  GenerateName : string;
  Namespace : string;
  Labels : gmap string string;
  Annotations : mapref
}.

Record Pod := { Pod_ObjectMeta : ObjectMeta; Pod_Spec : PodSpec }.

Record ServicePort := {
  ServicePort_Name : string;
  Port : Z;
  TargetPort_IntVal : Z
}.

Record ServiceSpec := { Ports : list ServicePort }.

Record Service := { Service_ObjectMeta : ObjectMeta; Service_Spec : ServiceSpec }.

(** *** The package's own types *)

Record Config := {
  Config_Containers : list Container;
  Config_InitContainers : list Container;
  CreateRoutes : bool;
  EnableMeshTLS : bool;
  MeshCertificateID : string
}.

(** [patchOperation.Value] is an [interface{}]; the package stores a
    service port, a pod spec or an annotation map there.  The map is the
    content [json.Marshal] finds when [createPatch] encodes the patch. *)
Variant patchValue :=
| ValueServicePort (p : ServicePort)
| ValuePodSpec (spec : PodSpec)
| ValueAnnotations (added : option (gmap string string)).

Record patchOperation := { Op : string; Path : string; Value : patchValue }.

(** *** Packages [tyk] and [ca] of the repository, as the webhook sees them *)

Record APIDefOptions := {
  Slug : string;
  Target : string;
  ListenPath : string;
  TemplateName : string;
  Hostname : string;
  APIDefOptions_Name : string;
  Tags : list string;
  APIDefOptions_Annotations : option (gmap string string)
}.

(** [tyk.DBApiDefinition]: [Id.Hex()], [Domain] and [Certificates] are what
    the webhook reads of it. *)
Record DBApiDefinition := {
  Id_Hex : string;
  Domain : string;
  Certificates : list string
}.

Record CertificateBundle := {
  Bundled : string;
  PrivateKey : string;
  Fingerprint : string
}.

Record CertModel := { Bundle : CertificateBundle }.

(** The calls that leave the process, in the order they are made. *)
Variant Call :=
| CallGetBySlug (slug : string)
| CallCreateService (opts : APIDefOptions)
| CallGetByObjectID (id : string)
| CallUpdateAPI (def : DBApiDefinition)
| CallCreateCertificate (bundle key : string)
| CallGenerateCert (hostname : string)
| CallStoreCert (cert : CertModel).

(** What the webhook is run against: Go's [strings.ToLower] (on a string
    with no byte above 0x7f it lower-cases the bytes 'A'..'Z'),
    [encoding/json] on the raw object of the request and on the patch,
    three constants declared in package [tyk], and the gateway and CA
    clients with the state of the world behind them ([Outside]).  A decoder
    returns the object with its [Annotations] field unset, beside the
    content of the annotation map of the text ([None] when the text has
    none). *)
Class Collaborators := {
  strings_ToLower : string → string;
  strings_ToLower_ASCII :
    ∀ s, Go.isASCII s = true → strings_ToLower s = Go.lower_ascii s;
  Raw : Type;
  PatchBytes : Type;
  json_Unmarshal_Pod : Raw → error + (Pod * option (gmap string string));
  json_Unmarshal_Service : Raw → error + (Service * option (gmap string string));
  json_Marshal : list patchOperation → error + PatchBytes;
  tyk_TemplateNameKey : string;
  tyk_DefaultMeshTemplate : string;
  tyk_DefaultInboundTemplate : string;
  Outside : Type;
  tyk_GetBySlug : string → Outside → (error + DBApiDefinition) * Outside;
  tyk_CreateService : APIDefOptions → Outside → (error + string) * Outside;
  tyk_GetByObjectID : string → Outside → (error + DBApiDefinition) * Outside;
  tyk_UpdateAPI : DBApiDefinition → Outside → option error * Outside;
  tyk_CreateCertificate : string → string → Outside → (error + string) * Outside;
  CAClient_GenerateCert : string → Outside → (error + CertificateBundle) * Outside;
  CAClient_StoreCert : CertModel → Outside → option error * Outside;
  ca_NewCertModel : CertificateBundle → CertModel
}.

(** *** The admission protocol *)

Record AdmissionRequest {env : Collaborators} := {
  UID : string;
  Kind_Kind : string;
  Request_Name : string;
  Request_Namespace : string;
  Object_Raw : Raw
}.

Record AdmissionReview {env : Collaborators} := { Request : AdmissionRequest }.

Record AdmissionResponse {env : Collaborators} := {
  Allowed : bool;
  Result_Message : option string;
  Patch : option PatchBytes;
  PatchType : option string
}.

(** *** State and effects

    The state a call of the webhook runs in: the store of annotation maps,
    the sidecar configuration that [WebhookServer.SidecarConfig] points to
    (one [Config] for the life of the process), the world behind the
    gateway and CA clients, and the calls made to them so far. *)

Section Webhook.

Context {env : Collaborators}.

Record State := {
  maps : gmap loc (gmap string string);
  SidecarConfig : Config;
  outside : Outside;
  calls : list Call
}.

(** A function of the package returns, in a new state, or panics. *)
Inductive outcome (A : Type) : Type :=
| Returned (a : A) (s : State)
| Panicked (reason : string).

Global Arguments Returned {A} a s.
Global Arguments Panicked {A} reason.

Definition M (A : Type) : Type := State → outcome A.

Definition ret {A : Type} (a : A) : M A := λ s, Returned a s.

Definition bind {A B : Type} (m : M A) (k : A → M B) : M B :=
  λ s, match m s with
       | Returned a s' => k a s'
       | Panicked reason => Panicked reason
       end.

Definition get : M State := λ s, Returned s s.

Definition panic {A : Type} (reason : string) : M A := λ _, Panicked reason.

End Webhook.

Notation "'let*' x := m 'in' k" := (bind m (fun x => k))
  (at level 10, x name, m at level 100, k at level 200,
   format "'[v' 'let*'  x  :=  m  'in'  '/' k ']'").

Notation "m ';;;' k" := (bind m (fun _ => k))
  (at level 100, k at level 200, right associativity,
   format "'[v' m  ;;;  '/' k ']'").

Section Webhook.

Context {env : Collaborators}.

(** The map a reference stands for; reading through [nil] finds no entry. *)
Definition deref (h : gmap loc (gmap string string)) (r : mapref)
    : gmap string string :=
  match r with
  | Some l => default ∅ (h !! l)
  | None => ∅
  end.

(** [m[k]] as a value: the empty string when [k] is absent. *)
Definition at_key (m : gmap string string) (k : string) : string :=
  default EmptyString (m !! k).

(** The content of a map as a library or the encoder sees it. *)
Definition content (h : gmap loc (gmap string string)) (r : mapref)
    : option (gmap string string) :=
  (λ l, deref h (Some l)) <$> r.

Definition with_maps (s : State) (h : gmap loc (gmap string string)) : State :=
  {| maps := h; SidecarConfig := SidecarConfig s;
     outside := outside s; calls := calls s |}.

(** [r[k] = v]: a panic on the [nil] map. *)
Definition map_assign (r : mapref) (k v : string) : M unit :=
  λ s, match r with
       | None => Panicked "assignment to entry in nil map"
       | Some l =>
           Returned tt (with_maps s (<[l := <[k := v]> (deref (maps s) r)]> (maps s)))
       end.

(** [delete(r, k)]: nothing on the [nil] map. *)
Definition map_delete (r : mapref) (k : string) : M unit :=
  λ s, match r with
       | None => Returned tt s
       | Some l =>
           Returned tt (with_maps s (<[l := delete k (deref (maps s) r)]> (maps s)))
       end.

(** The annotation map a decoder built, placed in the store. *)
Definition alloc (m : option (gmap string string)) : M mapref :=
  λ s, match m with
       | None => Returned None s
       | Some m =>
           let l := fresh (dom (maps s)) in
           Returned (Some l) (with_maps s (<[l := m]> (maps s)))
       end.

(** A call to the gateway or the CA: it is recorded, and the world behind
    the client moves on. *)
Definition call {A : Type} (c : Call) (op : Outside → A * Outside) : M A :=
  λ s, Returned (op (outside s)).1
         {| maps := maps s; SidecarConfig := SidecarConfig s;
            outside := (op (outside s)).2; calls := calls s ++ [c] |}.

(** A write through a pointer into [whsvr.SidecarConfig]. *)
Definition store_Containers (cs : list Container) : M unit :=
  λ s, Returned tt
         {| maps := maps s;
            SidecarConfig :=
              {| Config_Containers := cs;
                 Config_InitContainers := Config_InitContainers (SidecarConfig s);
                 CreateRoutes := CreateRoutes (SidecarConfig s);
                 EnableMeshTLS := EnableMeshTLS (SidecarConfig s);
                 MeshCertificateID := MeshCertificateID (SidecarConfig s) |};
            outside := outside s; calls := calls s |}.

(** *** Constants *)

Definition ignoredNamespaces : list string := ["kube-system"; "kube-public"].

Definition AdmissionWebhookAnnotationInjectKey : string := "injector.tyk.io/inject".
Definition admissionWebhookAnnotationRouteKey : string := "injector.tyk.io/route".
Definition AdmissionWebhookAnnotationStatusKey : string := "injector.tyk.io/status".
Definition AdmissionWebhookAnnotationInboundServiceIDKey : string :=
  "injector.tyk.io/inbound-service-id".
Definition AdmissionWebhookAnnotationMeshServiceIDKey : string :=
  "injector.tyk.io/mesh-service-id".
Definition meshTag : string := "mesh".
Definition volName : string := "ca-pem".
Definition certVolumenName : string := "ssl-certs".
Definition tagVarName : string := "TYK_GW_DBAPPCONFOPTIONS_TAGS".

(** *** The mutation policy *)

(** The [case "y", "yes", "true", "on"] of [mutationRequired]. *)
Definition truthy (v : string) : bool :=
  (String.eqb v "y" || String.eqb v "yes" || String.eqb v "true"
   || String.eqb v "on")%bool.

(** [mutationRequired(ignoredList, metadata)], reading the annotation map
    of [metadata] in the store [h]. *)
Definition mutationRequired (h : gmap loc (gmap string string))
    (ignoredList : list string) (metadata : ObjectMeta) : bool :=
  if existsb (String.eqb (Namespace metadata)) ignoredList then false
  else
    let annotations := deref h (Annotations metadata) in
    let status := at_key annotations AdmissionWebhookAnnotationStatusKey in
    if String.eqb (strings_ToLower status) "injected" then false
    else truthy (strings_ToLower
                   (at_key annotations AdmissionWebhookAnnotationInjectKey)).

(** *** Sidecar assembly *)

Definition with_Containers (spec : PodSpec) (cs : list Container) : PodSpec :=
  {| Containers := cs; InitContainers := InitContainers spec;
     HostAliases := HostAliases spec; Volumes := Volumes spec |}.

Definition addContainer (pod : Pod) (added : list Container) : PodSpec :=
  let spec := Pod_Spec pod in
  {| Containers := Containers spec ++ added;
     InitContainers := InitContainers spec;
     HostAliases :=
       HostAliases spec
       ++ [{| IP := "127.0.0.1"; Hostnames := ["mesh"; "mesh.local"] |}];
     Volumes := Volumes spec |}.

Definition addInitContainer (spec : PodSpec) (added : list Container) : PodSpec :=
  {| Containers := Containers spec;
     InitContainers := InitContainers spec ++ added;
     HostAliases := HostAliases spec; Volumes := Volumes spec |}.

Definition updateAnnotation (target added : option (gmap string string))
    : list patchOperation :=
  [{| Op := "add"; Path := "/metadata/annotations";
      Value := ValueAnnotations added |}].

Definition mutateService (svc : Service) (basePath : string)
    (sidecarConfig : Config) : list patchOperation :=
  let sidecarPort := 8080 in
  let sidecarSvcPort :=
    {| ServicePort_Name := "tyk-sidecar"; Port := sidecarPort;
       TargetPort_IntVal := sidecarPort |} in
  let '(opp, path) :=
    if (1 <? length (Ports (Service_Spec svc)))%nat
    then ("add", "/spec/ports")
    else ("replace", "/spec/ports/0") in
  [{| Op := opp; Path := path; Value := ValueServicePort sidecarSvcPort |}].

Definition addVolume (spec : PodSpec) (sidecarConfig : Config) : PodSpec :=
  if negb (EnableMeshTLS sidecarConfig) then spec
  else
    let volume := {| Volume_Name := volName; Volume_Source := ConfigMap volName |} in
    let sslCerts := {| Volume_Name := certVolumenName; Volume_Source := EmptyDir |} in
    {| Containers := Containers spec; InitContainers := InitContainers spec;
       HostAliases := HostAliases spec;
       Volumes := (Volumes spec ++ [volume]) ++ [sslCerts] |}.

Definition injectCAVolume (spec : PodSpec) (sidecarConfig : Config) : PodSpec :=
  if negb (EnableMeshTLS sidecarConfig) then spec
  else
    let volumeMount :=
      {| VolumeMount_Name := certVolumenName; MountPath := "/etc/ssl/certs" |} in
    with_Containers spec
      ((λ c, {| Container_Name := Container_Name c; Image := Image c;
                Env := Env c;
                VolumeMounts := VolumeMounts c ++ [volumeMount] |})
         <$> Containers spec).

(** [preProcessContainerTpl(pod, containers)]: the content of the slice
    [containers] when the function returns.  The function writes through
    the slice ([containers[i].Env[ei] = tagEnv] and [containers[i].Env =
    append(...)]) and returns the same slice. *)
Definition preProcessContainerTpl (pod : Pod) (containers : list Container)
    : list Container :=
  let sName :=
    match Labels (Pod_ObjectMeta pod) !! "app" with
    | Some sName => sName
    | None => GenerateName (Pod_ObjectMeta pod) +:+ "please-set-app-label"
    end in
  let tags := "mesh," +:+ sName in
  let tagEnv := {| EnvVar_Name := tagVarName; EnvVar_Value := tags |} in
  match list_find (λ cnt, strings_ToLower (Container_Name cnt) = "tyk-mesh")
          containers with
  | Some (i, cnt) =>
      let env :=
        match list_find (λ envVal, EnvVar_Name envVal = tagVarName) (Env cnt) with
        | Some (ei, _) => <[ei := tagEnv]> (Env cnt)
        | None => Env cnt ++ [tagEnv]
        end in
      <[i := {| Container_Name := Container_Name cnt; Image := Image cnt;
                Env := env; VolumeMounts := VolumeMounts cnt |}]> containers
  | None => containers
  end.

(** [createPatch(pod, svc, sidecarConfig, annotations)], with
    [sidecarConfig] the configuration of the state.  The slice handed to
    [preProcessContainerTpl] is [sidecarConfig.Containers] itself, so what
    that function writes stays in the configuration. *)
Definition createPatch (pod : option Pod) (svc : option Service)
    (annotations : mapref) : M (error + PatchBytes) :=
  let* s := get in
  let sidecarConfig := SidecarConfig s in
  match svc with
  | Some svc => ret (json_Marshal (mutateService svc "/spec/ports" sidecarConfig))
  | None =>
      match pod with
      | None => panic "invalid memory address or nil pointer dereference"
      | Some pod =>
          let containers :=
            preProcessContainerTpl pod (Config_Containers sidecarConfig) in
          store_Containers containers ;;;
          let* s := get in
          let sidecarConfig := SidecarConfig s in
          let spec := addContainer pod containers in
          let spec := addInitContainer spec (Config_InitContainers sidecarConfig) in
          let spec := addVolume spec sidecarConfig in
          let spec := injectCAVolume spec sidecarConfig in
          let patch := [{| Op := "replace"; Path := "/spec"; Value := ValuePodSpec spec |}] in
          let patch :=
            patch ++ updateAnnotation
                       (content (maps s) (Annotations (Pod_ObjectMeta pod)))
                       (content (maps s) annotations) in
          ret (json_Marshal patch)
      end
  end.

(** *** Service registration *)

(** [checkAndGetTemplate(pd, isMesh)], reading [pd.Annotations] in [h]. *)
Definition checkAndGetTemplate (h : gmap loc (gmap string string)) (pd : Pod)
    (isMesh : bool) : string :=
  match deref h (Annotations (Pod_ObjectMeta pd)) !! tyk_TemplateNameKey with
  | Some v => v
  | None => if isMesh then tyk_DefaultMeshTemplate else tyk_DefaultInboundTemplate
  end.

(** The options of the inbound listener. *)
Definition inboundOptions (sName hName template : string)
    (annotations : option (gmap string string)) : APIDefOptions :=
  let slugID := sName +:+ "-inbound" in
  {| Slug := slugID;
     Target := "http://localhost:6767";
     ListenPath := "/";
     TemplateName := template;
     Hostname := hName;
     APIDefOptions_Name := slugID;
     Tags := [sName];
     APIDefOptions_Annotations := annotations |}.

(** The options of the mesh route. *)
Definition meshOptions (sName tgt listenPath template : string) : APIDefOptions :=
  let meshSlugID := sName +:+ "-mesh" in
  {| Slug := meshSlugID;
     Target := tgt;
     ListenPath := listenPath;
     TemplateName := template;
     Hostname := "mesh";
     APIDefOptions_Name := meshSlugID;
     Tags := [meshTag];
     APIDefOptions_Annotations := None |}.

Definition createServiceRoutes (pod : Pod) (annotations : mapref)
    (namespace : string) (tls : bool) : M (mapref * option error) :=
  let* s := get in
  match deref (maps s) annotations !! AdmissionWebhookAnnotationInboundServiceIDKey with
  | Some _ => ret (annotations, None)
  | None =>
  match Labels (Pod_ObjectMeta pod) !! "app" with
  | None => ret (annotations, Some "app label is required")
  | Some sName =>
      let ns := if String.eqb namespace EmptyString then "default" else namespace in
      let hName := sName +:+ "." +:+ ns in
      let slugID := sName +:+ "-inbound" in
      (* inbound listener *)
      let opts :=
        inboundOptions sName hName (checkAndGetTemplate (maps s) pod false)
          (content (maps s) annotations) in
      let* found := call (CallGetBySlug (Slug opts)) (tyk_GetBySlug (Slug opts)) in
      let* inbound :=
        match found with
        | inl _ =>
            (* error means this service hasn't been created yet *)
            call (CallCreateService opts) (tyk_CreateService opts)
        | inr inboundDef => ret (inr (Id_Hex inboundDef))
        end in
      match inbound with
      | inl err =>
          ret (annotations,
               Some ("failed to create inbound service " +:+ slugID +:+ ": " +:+ err))
      | inr ibID =>
          map_assign annotations AdmissionWebhookAnnotationInboundServiceIDKey ibID ;;;
          (* mesh route points to the *service* so we can enable load balancing *)
          let pt := 8080 in
          let tr := if tls then "https" else "http" in
          let tgt := tr +:+ "://" +:+ hName +:+ ":" +:+ Go.Itoa pt in
          let* s := get in
          let listenPath :=
            match deref (maps s) (Annotations (Pod_ObjectMeta pod))
                  !! admissionWebhookAnnotationRouteKey with
            | Some v => v
            | None => sName
            end in
          let meshSlugID := sName +:+ "-mesh" in
          let meshOpts :=
            meshOptions sName tgt listenPath (checkAndGetTemplate (maps s) pod true) in
          let* found := call (CallGetBySlug (Slug meshOpts)) (tyk_GetBySlug (Slug meshOpts)) in
          let* mesh :=
            match found with
            | inl _ => call (CallCreateService meshOpts) (tyk_CreateService meshOpts)
            | inr meshDef => ret (inr (Id_Hex meshDef))
            end in
          match mesh with
          | inl err =>
              ret (annotations,
                   Some ("failed to create mesh service " +:+ meshSlugID +:+ ": " +:+ err))
          | inr meshID =>
              map_assign annotations AdmissionWebhookAnnotationMeshServiceIDKey meshID ;;;
              ret (annotations, None)
          end
      end
  end
  end.

(** *** The certificate workflow *)

Definition generateServerCert (id : string) : M (error + CertModel) :=
  let* found := call (CallGetByObjectID id) (tyk_GetByObjectID id) in
  match found with
  | inl err => ret (inl err)
  | inr apidef =>
      let hostname := Domain apidef in
      if String.eqb hostname EmptyString then ret (inl "domain cannot be emtpy")
      else
        let* bdl := call (CallGenerateCert hostname) (CAClient_GenerateCert hostname) in
        match bdl with
        | inl err => ret (inl err)
        | inr bdl => ret (inr (ca_NewCertModel bdl))
        end
  end.

Definition generateStoreAndRegisterCertForAPIDef (sid byoCert : string)
    : M (option error) :=
  (* Allow us to just manually set a cert ID *)
  let* issued :=
    if String.eqb byoCert EmptyString then
      let* serverCert := generateServerCert sid in
      match serverCert with
      | inl err => ret (inl ("can't generate certificate: " +:+ err))
      | inr serverCert =>
          let bundle := Bundle serverCert in
          let* certID :=
            call (CallCreateCertificate (Bundled bundle) (PrivateKey bundle))
              (tyk_CreateCertificate (Bundled bundle) (PrivateKey bundle)) in
          match certID with
          | inl err =>
              ret (inl ("failed to upload certificate to tyk secure store: " +:+ err))
          | inr certID =>
              let serverCert :=
                {| Bundle := {| Bundled := Bundled bundle;
                                PrivateKey := PrivateKey bundle;
                                Fingerprint := certID |} |} in
              let* stored := call (CallStoreCert serverCert) (CAClient_StoreCert serverCert) in
              match stored with
              | Some err =>
                  ret (inl ("failed to store certificate reference in controller store: "
                            +:+ err))
              | None => ret (inr certID)
              end
          end
      end
    else ret (inr byoCert) in
  match issued with
  | inl err => ret (Some err)
  | inr certID =>
      let* found := call (CallGetByObjectID sid) (tyk_GetByObjectID sid) in
      match found with
      | inl err => ret (Some ("failed to retrieve API definition: " +:+ err))
      | inr aDef =>
          let aDef :=
            {| Id_Hex := Id_Hex aDef; Domain := Domain aDef;
               Certificates := Certificates aDef ++ [certID] |} in
          let* err := call (CallUpdateAPI aDef) (tyk_UpdateAPI aDef) in
          match err with
          | Some err =>
              ret (Some ("failed to store updated API Definition (" +:+ Id_Hex aDef
                         +:+ "): " +:+ err))
          | None => ret None
          end
      end
  end.

Definition handleMeshTLS (ann : mapref) : M (option error) :=
  let* s := get in
  if negb (EnableMeshTLS (SidecarConfig s)) then ret None
  else
    match deref (maps s) ann !! AdmissionWebhookAnnotationInboundServiceIDKey with
    | None => ret (Some "can't generate server cert without an inbound API ID")
    | Some ingressID =>
        (* Handle inbound ID first as that's a straight TLS cert *)
        let* err := generateStoreAndRegisterCertForAPIDef ingressID EmptyString in
        match err with
        | Some err => ret (Some err)
        | None =>
            let* s := get in
            match deref (maps s) ann !! AdmissionWebhookAnnotationMeshServiceIDKey with
            | None => ret (Some "can't generate server cert without an mesh API ID")
            | Some meshID =>
                generateStoreAndRegisterCertForAPIDef meshID
                  (MeshCertificateID (SidecarConfig s))
            end
        end
    end.

(** *** The dispatcher *)

Definition with_Annotations (meta : ObjectMeta) (r : mapref) : ObjectMeta :=
  {| Name := Name meta; GenerateName := GenerateName meta;
     Namespace := Namespace meta; Labels := Labels meta; Annotations := r |}.

(** An [AdmissionResponse] that carries a message and nothing else. *)
Definition refused (message : string) : AdmissionResponse :=
  {| Allowed := false; Result_Message := Some message;
     Patch := None; PatchType := None |}.

(** [&v1beta1.AdmissionResponse{Allowed: true}]. *)
Definition passed : AdmissionResponse :=
  {| Allowed := true; Result_Message := None; Patch := None; PatchType := None |}.

Definition patched (patchBytes : PatchBytes) : AdmissionResponse :=
  {| Allowed := true; Result_Message := None;
     Patch := Some patchBytes; PatchType := Some "JSONPatch" |}.

Definition processPodMutations (ar : AdmissionReview) : M AdmissionResponse :=
  let req := Request ar in
  match json_Unmarshal_Pod (Object_Raw req) with
  | inl err => ret (refused err)
  | inr (pod, text_annotations) =>
      let* r := alloc text_annotations in
      let pod := {| Pod_ObjectMeta := with_Annotations (Pod_ObjectMeta pod) r;
                    Pod_Spec := Pod_Spec pod |} in
      let* s := get in
      (* determine whether to perform mutation *)
      if negb (mutationRequired (maps s) ignoredNamespaces (Pod_ObjectMeta pod))
      then ret passed
      else
        let annotations := Annotations (Pod_ObjectMeta pod) in
        map_assign annotations AdmissionWebhookAnnotationStatusKey "injected" ;;;
        map_delete annotations AdmissionWebhookAnnotationInjectKey ;;;
        (* We create the service routes first, because we need the IDs *)
        let* routed :=
          if CreateRoutes (SidecarConfig s)
          then createServiceRoutes pod annotations (Request_Namespace req)
                 (EnableMeshTLS (SidecarConfig s))
          else ret (annotations, None) in
        match routed with
        | (_, Some err) => ret (refused err)
        | (annotations, None) =>
            let* err := handleMeshTLS annotations in
            match err with
            | Some err => ret (refused err)
            | None =>
                (* Create the patch *)
                let* patchBytes := createPatch (Some pod) None annotations in
                match patchBytes with
                | inl err => ret (refused err)
                | inr patchBytes => ret (patched patchBytes)
                end
            end
        end
  end.

Definition processServiceMutations (ar : AdmissionReview) : M AdmissionResponse :=
  let req := Request ar in
  match json_Unmarshal_Service (Object_Raw req) with
  | inl err => ret (refused err)
  | inr (service, text_annotations) =>
      let* r := alloc text_annotations in
      let service :=
        {| Service_ObjectMeta := with_Annotations (Service_ObjectMeta service) r;
           Service_Spec := Service_Spec service |} in
      let* s := get in
      (* determine whether to perform mutation *)
      if negb (mutationRequired (maps s) ignoredNamespaces (Service_ObjectMeta service))
      then ret passed
      else
        let annotations := Annotations (Service_ObjectMeta service) in
        map_assign annotations AdmissionWebhookAnnotationStatusKey "injected" ;;;
        map_delete annotations AdmissionWebhookAnnotationInjectKey ;;;
        (* Create the patch *)
        let* patchBytes := createPatch None (Some service) annotations in
        match patchBytes with
        | inl err => ret (refused err)
        | inr patchBytes => ret (patched patchBytes)
        end
  end.

(** The main mutation process. *)
Definition mutate (ar : AdmissionReview) : M AdmissionResponse :=
  let req := Request ar in
  let kind := strings_ToLower (Kind_Kind req) in
  if String.eqb kind "pod" then processPodMutations ar
  else if String.eqb kind "service" then processServiceMutations ar
  else ret (refused "type not supported").

(** *** What the properties are stated with *)

(** [m] returns from [s]: it does not panic. *)
Definition returns {A : Type} (m : M A) (s : State) : Prop :=
  ∃ a s', m s = Returned a s'.

(** The two writes that follow the policy check. *)
Definition mark_injected (annotations : mapref) : M unit :=
  map_assign annotations AdmissionWebhookAnnotationStatusKey "injected" ;;;
  map_delete annotations AdmissionWebhookAnnotationInjectKey.

End Webhook.

End injector.


(** ** A stand-in for the collaborators

    The examples run the webhook against this instance: the raw object of a
    request is the object it decodes to, the patch bytes are the
    operations themselves, and the gateway is a table of registered slugs
    that fails to create the slugs listed in [unavailable]. *)

Module standin.

Import injector.

Variant RawObject :=
| RawPod (pod : Pod) (annotations : option (gmap string string))
| RawService (svc : Service) (annotations : option (gmap string string))
| Malformed.

Record World := {
  registered : list (string * string);
  unavailable : list string
}.

Fixpoint id_of (slug : string) (table : list (string * string)) : option string :=
  match table with
  | [] => None
  | (s, id) :: table' => if String.eqb s slug then Some id else id_of slug table'
  end.

Fixpoint slug_of (id : string) (table : list (string * string)) : option string :=
  match table with
  | [] => None
  | (s, i) :: table' => if String.eqb i id then Some s else slug_of id table'
  end.

Definition definition (slug id : string) : DBApiDefinition :=
  {| Id_Hex := id; Domain := slug +:+ ".local"; Certificates := [] |}.

Definition GetBySlug (slug : string) (w : World)
    : (error + DBApiDefinition) * World :=
  match id_of slug (registered w) with
  | Some id => (inr (definition slug id), w)
  | None => (inl "not found", w)
  end.

Definition CreateService (opts : APIDefOptions) (w : World)
    : (error + string) * World :=
  if existsb (String.eqb (Slug opts)) (unavailable w)
  then (inl "gateway unavailable", w)
  else
    let id := "id-" +:+ Slug opts in
    (inr id, {| registered := registered w ++ [(Slug opts, id)];
                unavailable := unavailable w |}).

Definition GetByObjectID (id : string) (w : World)
    : (error + DBApiDefinition) * World :=
  match slug_of id (registered w) with
  | Some slug => (inr (definition slug id), w)
  | None => (inl "not found", w)
  end.

Definition decode_Pod (raw : RawObject)
    : error + (Pod * option (gmap string string)) :=
  match raw with
  | RawPod pod annotations => inr (pod, annotations)
  | _ => inl "json: cannot unmarshal object into Go value of type v1.Pod"
  end.

Definition decode_Service (raw : RawObject)
    : error + (Service * option (gmap string string)) :=
  match raw with
  | RawService svc annotations => inr (svc, annotations)
  | _ => inl "json: cannot unmarshal object into Go value of type v1.Service"
  end.

Definition collaborators : Collaborators := {|
  strings_ToLower := Go.lower_ascii;
  strings_ToLower_ASCII := λ s _, eq_refl;
  Raw := RawObject;
  PatchBytes := list patchOperation;
  json_Unmarshal_Pod := decode_Pod;
  json_Unmarshal_Service := decode_Service;
  json_Marshal := inr;
  tyk_TemplateNameKey := "template.service.tyk.io";
  tyk_DefaultMeshTemplate := "default-mesh";
  tyk_DefaultInboundTemplate := "default-inbound";
  Outside := World;
  tyk_GetBySlug := GetBySlug;
  tyk_CreateService := CreateService;
  tyk_GetByObjectID := GetByObjectID;
  tyk_UpdateAPI := λ _ w, (None, w);
  tyk_CreateCertificate := λ bundle _ w, (inr ("fingerprint-" +:+ bundle), w);
  CAClient_GenerateCert :=
    λ hostname w,
      (inr {| Bundled := "certificate-" +:+ hostname;
              PrivateKey := "key-" +:+ hostname;
              Fingerprint := EmptyString |}, w);
  CAClient_StoreCert := λ _ w, (None, w);
  ca_NewCertModel := λ bdl, {| Bundle := bdl |}
|}.

(** An object's metadata with a name, a namespace, an [app] label and its
    annotation map. *)
Definition meta (name namespace app : string) (annotations : mapref) : ObjectMeta :=
  {| Name := name; GenerateName := EmptyString; Namespace := namespace;
     Labels := {[ "app" := app ]}; Annotations := annotations |}.

Definition no_spec : PodSpec :=
  {| Containers := []; InitContainers := []; HostAliases := []; Volumes := [] |}.

(** A gateway with nothing registered that creates whatever is asked. *)
Definition fresh_world : World := {| registered := []; unavailable := [] |}.

Definition state (h : gmap loc (gmap string string)) (cfg : Config) (w : World)
    : @State collaborators :=
  @Build_State collaborators h cfg w [].

(** The review of a request for an object of a kind, in a namespace. *)
Definition review (kind name namespace : string) (raw : RawObject)
    : @AdmissionReview collaborators :=
  @Build_AdmissionReview collaborators
    (@Build_AdmissionRequest collaborators "705ab4f5" kind name namespace raw).

(** A sidecar template with one gateway container and no tag variable. *)
Definition template : Config :=
  {| Config_Containers :=
       [{| Container_Name := "tyk-mesh"; Image := "tykio/tyk-gateway";
           Env := [{| EnvVar_Name := "TYK_GW_LISTENPORT"; EnvVar_Value := "8080" |}];
           VolumeMounts := [] |}];
     Config_InitContainers := [];
     CreateRoutes := false;
     EnableMeshTLS := false;
     MeshCertificateID := EmptyString |}.

(** *** The objects, requests and states of the examples *)

(** Three objects: one in [kube-system] that asks for injection, one that
    is marked injected and asks again, and one that asks with ["On"]. *)
Definition policy_store : gmap loc (gmap string string) :=
  {[ 1%positive := {[ "injector.tyk.io/inject" := "true" ]};
     2%positive := {[ "injector.tyk.io/inject" := "yes";
                      "injector.tyk.io/status" := "Injected" ]};
     3%positive := {[ "injector.tyk.io/inject" := "On" ]} ]}.

(** A pod of the workload [orders] in the namespace [shop]; its
    annotation map is at location 1 of the store. *)
Definition orders_pod : Pod :=
  {| Pod_ObjectMeta := meta "orders-5d4f" "shop" "orders" (Some 1%positive);
     Pod_Spec := no_spec |}.

(** A service with two ports and one with none. *)
Definition two_ports : Service :=
  {| Service_ObjectMeta := meta "orders" "shop" "orders" None;
     Service_Spec :=
       {| Ports := [{| ServicePort_Name := "http"; Port := 80;
                       TargetPort_IntVal := 8000 |};
                    {| ServicePort_Name := "metrics"; Port := 9090;
                       TargetPort_IntVal := 9090 |}] |} |}.

Definition no_ports : Service :=
  {| Service_ObjectMeta := meta "orders" "shop" "orders" None;
     Service_Spec := {| Ports := [] |} |}.

Definition sidecar_port : ServicePort :=
  {| ServicePort_Name := "tyk-sidecar"; Port := 8080; TargetPort_IntVal := 8080 |}.

(** The pod was registered before: its map holds the inbound id. *)
Definition registered_before : @State collaborators :=
  state {[ 1%positive := {[ "injector.tyk.io/status" := "injected";
                            "injector.tyk.io/inbound-service-id" := "id-orders-inbound" ]} ]}
    template fresh_world.

(** A first admission of the pod, with a route annotation, against a
    gateway that knows no slug. *)
Definition first_admission : @State collaborators :=
  state {[ 1%positive := {[ "injector.tyk.io/status" := "injected";
                            "injector.tyk.io/route" := "/orders-api" ]} ]}
    template fresh_world.

(** A gateway that cannot create the mesh route of [orders]. *)
Definition mesh_unavailable : World :=
  {| registered := []; unavailable := ["orders-mesh"] |}.

Definition inbound_registered : World :=
  {| registered := [("orders-inbound", "id-orders-inbound")];
     unavailable := ["orders-mesh"] |}.

Definition mesh_failure : string :=
  "failed to create mesh service orders-mesh: gateway unavailable".

Definition without_ids : @State collaborators :=
  state {[ 1%positive := {[ "injector.tyk.io/status" := "injected" ]} ]}
    template mesh_unavailable.

(** The same admission for a pod whose annotations already name a mesh
    service. *)
Definition stale_mesh_id : @State collaborators :=
  state {[ 1%positive := {[ "injector.tyk.io/status" := "injected";
                            "injector.tyk.io/mesh-service-id" := "5f3c9a" ]} ]}
    template mesh_unavailable.

(** The request to admit a pod of [orders] that asks for injection, and
    the same for the service with two ports. *)
Definition admit_orders_pod : @AdmissionReview collaborators :=
  review "Pod" "orders-5d4f" "shop"
    (RawPod {| Pod_ObjectMeta := meta "orders-5d4f" "shop" "orders" None;
               Pod_Spec := no_spec |}
       (Some {[ "injector.tyk.io/inject" := "true" ]})).

Definition admit_orders_service : @AdmissionReview collaborators :=
  review "Service" "orders" "shop"
    (RawService two_ports (Some {[ "injector.tyk.io/inject" := "true" ]})).

(** The state of a webhook that has served no request yet. *)
Definition started : @State collaborators := state ∅ template fresh_world.

End standin.

(** ** The HTTP handler of the webhook ([Serve])

    The handler reads the body of the request, checks the content type,
    decodes the review, runs [mutate] and writes the review that carries
    the response. *)

Module handler.

Import injector.

(** What [Serve] reads of the [*http.Request]: the body ([None] for a nil
    [r.Body], otherwise what [ioutil.ReadAll] returns for it, the data
    and the error) and the [Content-Type] header, empty when absent. *)
Record HttpRequest := {
  Body : option (string * option error);
  Header_Content_Type : string
}.

(** The review [Serve] encodes: the response and the [UID] it was given. *)
Record ReviewResponse {env : Collaborators} := {
  Response : AdmissionResponse;
  Response_UID : string
}.

(** The libraries behind [Serve]: the deserializer, which leaves a review
    (its [Request] is what the handler reads, [None] when it stayed nil)
    and may return an error; [json.Marshal] on the review to send; and the
    [http.ResponseWriter] with [http.Error] and [Write] on it. *)
Class Transport {env : Collaborators} := {
  deserializer_Decode : string → option AdmissionRequest * option error;
  json_Marshal_Review : ReviewResponse → error + string;
  ResponseWriter : Type;
  http_Error : ResponseWriter → string → Z → ResponseWriter;
  w_Write : ResponseWriter → string → option error * ResponseWriter
}.

Definition StatusBadRequest : Z := 400.
Definition StatusUnsupportedMediaType : Z := 415.
Definition StatusInternalServerError : Z := 500.

Section Handler.

Context {env : Collaborators} {transport : Transport}.

(** [whsvr.Serve(w, r)]: the writer after the call.  [mutate] reads
    [ar.Request.Kind] first, through a nil pointer when the decoded review
    has no request. *)
Definition Serve (w : ResponseWriter) (r : HttpRequest) : M ResponseWriter :=
  let body :=
    match Body r with
    | Some (data, None) => data
    | _ => EmptyString
    end in
  if (Go.len body =? 0)%nat then
    ret (http_Error w "empty body" StatusBadRequest)
  else
    (* verify the content type is accurate *)
    let contentType := Header_Content_Type r in
    if negb (String.eqb contentType "application/json") then
      ret (http_Error w "invalid Content-Type, expect `application/json`"
             StatusUnsupportedMediaType)
    else
      let request := (deserializer_Decode body).1 in
      let* admissionResponse :=
        match (deserializer_Decode body).2 with
        | Some err => ret (refused err)
        | None =>
            match request with
            | None => panic "invalid memory address or nil pointer dereference"
            | Some req => mutate {| Request := req |}
            end
        end in
      let admissionReview :=
        {| Response := admissionResponse;
           Response_UID :=
             match request with
             | Some req => UID req
             | None => EmptyString
             end |} in
      let encoded := json_Marshal_Review admissionReview in
      let w :=
        match encoded with
        | inl err =>
            http_Error w ("could not encode response: " +:+ err)
              StatusInternalServerError
        | inr _ => w
        end in
      let resp :=
        match encoded with
        | inl _ => EmptyString
        | inr resp => resp
        end in
      match (w_Write w resp).1 with
      | Some err =>
          ret (http_Error (w_Write w resp).2
                 ("could not write response: " +:+ err) StatusInternalServerError)
      | None => ret (w_Write w resp).2
      end.

End Handler.

End handler.

(** ** Package [webserver]

    The server the webhook is served by.  A [*Config] and a [*WebServer]
    are locations of two stores, [None] the nil pointer, so that a write
    through one pointer is seen through every other pointer to the same
    object.  [ListenAndServe] and [ListenAndServeTLS] block until the
    server is shut down; the model records the call with its arguments
    and goes on. *)

Module webserver.

Definition loc := positive.

(** WebServer config *)
Record Config := {
  Addr : string;      (* webhook server port *)
  CertFile : string;  (* path to the x509 certificate for https *)
  KeyFile : string    (* path to the x509 private key matching [CertFile] *)
}.

Record Route := { Route_Method : string; Route_Path : string; Route_Handler : string }.

(** The [*http.Server] that [Start] builds: its [Addr]; its [Handler] is
    the router of the [WebServer]. *)
Record http_Server := { Server_Addr : string }.

Record WebServer := {
  mux : option (list Route);
  cfg : option loc;
  srv : option http_Server
}.

Variant Event :=
| ListenAndServe (addr : string)
| ListenAndServeTLS (addr certFile keyFile : string)
| Shutdown.

(** The configurations and the servers in memory, the package variable
    [server], and the calls to [net/http] so far. *)
Record State := {
  configs : gmap loc Config;
  servers : gmap loc WebServer;
  server : option loc;
  events : list Event
}.

Inductive outcome (A : Type) : Type :=
| Returned (a : A) (st : State)
| Panicked (reason : string).

Arguments Returned {A} a st.
Arguments Panicked {A} reason.

Definition nil_dereference : string :=
  "invalid memory address or nil pointer dereference".

Definition with_servers (st : State) (servers : gmap loc WebServer) : State :=
  {| configs := configs st; servers := servers; server := server st;
     events := events st |}.

Definition with_configs (st : State) (configs : gmap loc Config) : State :=
  {| configs := configs; servers := servers st; server := server st;
     events := events st |}.

Definition with_event (st : State) (e : Event) : State :=
  {| configs := configs st; servers := servers st; server := server st;
     events := events st ++ [e] |}.

Definition newServer (cfg : option loc) (st : State) : outcome loc :=
  let s := fresh (dom (servers st)) in
  Returned s
    (with_servers st (<[s := {| cfg := cfg; mux := Some []; srv := None |}]> (servers st))).

(** [s.Config(cfg)]: the default address is written into the
    configuration the caller passed, which the server then points to. *)
Definition Config_ (s : loc) (cfg : option loc) (st : State) : outcome unit :=
  let l :=
    match cfg with
    | Some l => l
    | None => fresh (dom (configs st))
    end in
  let st :=
    match cfg with
    | Some _ => st
    | None =>
        with_configs st
          (<[l := {| Addr := EmptyString; CertFile := EmptyString;
                     KeyFile := EmptyString |}]> (configs st))
    end in
  match configs st !! l with
  | None => Panicked nil_dereference
  | Some c =>
      let st :=
        if String.eqb (Addr c) EmptyString
        then with_configs st
               (<[l := {| Addr := ":9797"; CertFile := CertFile c;
                          KeyFile := KeyFile c |}]> (configs st))
        else st in
      match servers st !! s with
      | None => Panicked nil_dereference
      | Some ws =>
          Returned tt
            (with_servers st
               (<[s := {| mux := mux ws; cfg := Some l; srv := srv ws |}]> (servers st)))
      end
  end.

Definition Start (s : loc) (st : State) : outcome unit :=
  match servers st !! s with
  | None => Panicked nil_dereference
  | Some ws =>
      match srv ws with
      | Some _ => Returned tt st
      | None =>
          match cfg ws ≫= (λ l, configs st !! l) with
          | None => Panicked nil_dereference
          | Some c =>
              let srv := {| Server_Addr := Addr c |} in
              let st :=
                with_servers st
                  (<[s := {| mux := mux ws; cfg := cfg ws; srv := Some srv |}]>
                     (servers st)) in
              Returned tt
                (with_event st
                   (if String.eqb (CertFile c) EmptyString
                    then ListenAndServe (Server_Addr srv)
                    else ListenAndServeTLS (Server_Addr srv) (CertFile c) (KeyFile c)))
          end
      end
  end.

(** [s.Stop()]; [shutdown] is the error [Shutdown] returns. *)
Definition Stop (s : loc) (shutdown : option string) (st : State)
    : outcome (option string) :=
  match servers st !! s with
  | None => Panicked nil_dereference
  | Some ws =>
      match srv ws with
      | None => Panicked nil_dereference
      | Some _ => Returned shutdown (with_event st Shutdown)
      end
  end.

Definition Server (st : State) : outcome loc :=
  match server st with
  | Some s => Returned s st
  | None =>
      match newServer None st with
      | Returned s st =>
          Returned s
            {| configs := configs st; servers := servers st; server := Some s;
               events := events st |}
      | Panicked reason => Panicked reason
      end
  end.

End webserver.

(** ** Further inputs of the examples *)

Module inputs.

Import injector standin.

(** The state a run leaves, and what it returns. *)
Definition after {env : Collaborators} {A : Type} (run : outcome A)
    (otherwise : State) : State :=
  match run with
  | Returned _ s' => s'
  | Panicked _ => otherwise
  end.

Definition answer {env : Collaborators} {A : Type} (run : outcome A)
    (otherwise : A) : A :=
  match run with
  | Returned a _ => a
  | Panicked _ => otherwise
  end.

(** A gateway that cannot create the inbound listener of [orders]. *)
Definition inbound_unavailable : World :=
  {| registered := []; unavailable := ["orders-inbound"] |}.

Definition inbound_down : @State collaborators :=
  state {[ 1%positive := {[ "injector.tyk.io/status" := "injected" ]} ]}
    template inbound_unavailable.

(** A gateway that knows both routes of [orders]. *)
Definition both_registered : World :=
  {| registered := [("orders-inbound", "id-orders-inbound");
                    ("orders-mesh", "id-orders-mesh")];
     unavailable := [] |}.

(** The template with route creation, with mesh TLS, and with both. *)
Definition with_routes : Config :=
  {| Config_Containers := Config_Containers template;
     Config_InitContainers := Config_InitContainers template;
     CreateRoutes := true; EnableMeshTLS := false;
     MeshCertificateID := EmptyString |}.

Definition with_TLS : Config :=
  {| Config_Containers := Config_Containers template;
     Config_InitContainers := Config_InitContainers template;
     CreateRoutes := false; EnableMeshTLS := true;
     MeshCertificateID := EmptyString |}.

(** A pod registered with the gateway, with its inbound id only, under
    mesh TLS. *)
Definition inbound_id_only : @State collaborators :=
  state {[ 1%positive := {[ "injector.tyk.io/status" := "injected";
                            "injector.tyk.io/inbound-service-id" := "id-orders-inbound" ]} ]}
    with_TLS both_registered.

(** A webhook with the gateway that knows both routes. *)
Definition registered_gateway : @State collaborators :=
  state ∅ template both_registered.

(** A gateway whose API definitions have no domain. *)
Definition no_domain : Collaborators := {|
  strings_ToLower := Go.lower_ascii;
  strings_ToLower_ASCII := λ s _, eq_refl;
  Raw := RawObject;
  PatchBytes := list patchOperation;
  json_Unmarshal_Pod := decode_Pod;
  json_Unmarshal_Service := decode_Service;
  json_Marshal := inr;
  tyk_TemplateNameKey := "template.service.tyk.io";
  tyk_DefaultMeshTemplate := "default-mesh";
  tyk_DefaultInboundTemplate := "default-inbound";
  Outside := World;
  tyk_GetBySlug := GetBySlug;
  tyk_CreateService := CreateService;
  tyk_GetByObjectID :=
    λ id w, (inr {| Id_Hex := id; Domain := EmptyString; Certificates := [] |}, w);
  tyk_UpdateAPI := λ _ w, (None, w);
  tyk_CreateCertificate := λ bundle _ w, (inr ("fingerprint-" +:+ bundle), w);
  CAClient_GenerateCert :=
    λ hostname w,
      (inr {| Bundled := "certificate-" +:+ hostname;
              PrivateKey := "key-" +:+ hostname;
              Fingerprint := EmptyString |}, w);
  CAClient_StoreCert := λ _ w, (None, w);
  ca_NewCertModel := λ bdl, {| Bundle := bdl |}
|}.

Definition started_without_domains : @State no_domain :=
  @Build_State no_domain ∅ template fresh_world [].

(** The webhook started with route creation, and with mesh TLS. *)
Definition started_with_routes : @State collaborators :=
  state ∅ with_routes fresh_world.

Definition started_with_TLS : @State collaborators :=
  state ∅ with_TLS fresh_world.

(** A pod that asks for injection and has no [app] label. *)
Definition admit_unlabelled_pod : @AdmissionReview collaborators :=
  review "Pod" "orders-5d4f" "shop"
    (RawPod {| Pod_ObjectMeta :=
                 {| Name := "orders-5d4f"; GenerateName := "orders-";
                    Namespace := "shop"; Labels := ∅; Annotations := None |};
               Pod_Spec := no_spec |}
       (Some {[ "injector.tyk.io/inject" := "true" ]})).

(** A pod of [kube-system] that asks for injection. *)
Definition admit_system_pod : @AdmissionReview collaborators :=
  review "Pod" "dns-7c9" "kube-system"
    (RawPod {| Pod_ObjectMeta := meta "dns-7c9" "kube-system" "dns" None;
               Pod_Spec := no_spec |}
       (Some {[ "injector.tyk.io/inject" := "true" ]})).

Definition admit_deployment : @AdmissionReview collaborators :=
  review "Deployment" "orders" "shop" Malformed.


(** A transport for the handler: three bodies are known to the decoder,
    the review of the pod of [orders], a review without a request, and
    anything else, which is not a review; the encoding of a review is its
    UID; and the writer is the list of what was written to it, a status
    code beside each body. *)
Definition transport : @handler.Transport collaborators := {|
  handler.deserializer_Decode :=
    λ body,
      if String.eqb body "review of orders-5d4f"
      then (Some (Request admit_orders_pod), None)
      else if String.eqb body "{}" then (None, None)
      else (None, Some "couldn't get version/kind; json parse error");
  handler.json_Marshal_Review := λ review, inr (handler.Response_UID review);
  handler.ResponseWriter := list (Z * string);
  handler.http_Error := λ w message code, w ++ [(code, message)];
  handler.w_Write := λ w body, (None, w ++ [(200, body)])
|}.

(** A writer nothing was written to. *)
Definition blank : @handler.ResponseWriter collaborators transport := [].

Definition post (body : string) : handler.HttpRequest :=
  {| handler.Body := Some (body, None);
     handler.Header_Content_Type := "application/json" |}.

(** A web server created by [Server], and a TLS configuration without an
    address. *)
Definition serving : webserver.State :=
  {| webserver.configs :=
       {[ 1%positive := {| webserver.Addr := EmptyString;
                           webserver.CertFile := "/etc/tyk/tls.crt";
                           webserver.KeyFile := "/etc/tyk/tls.key" |} ]};
     webserver.servers :=
       {[ 1%positive := {| webserver.mux := Some []; webserver.cfg := None;
                           webserver.srv := None |} ]};
     webserver.server := Some 1%positive;
     webserver.events := [] |}.

(** The same server configured with that configuration, started, and
    stopped. *)
Definition configured : webserver.State :=
  {| webserver.configs :=
       {[ 1%positive := {| webserver.Addr := ":9797";
                           webserver.CertFile := "/etc/tyk/tls.crt";
                           webserver.KeyFile := "/etc/tyk/tls.key" |} ]};
     webserver.servers :=
       {[ 1%positive := {| webserver.mux := Some [];
                           webserver.cfg := Some 1%positive;
                           webserver.srv := None |} ]};
     webserver.server := Some 1%positive;
     webserver.events := [] |}.

Definition listening : webserver.State :=
  {| webserver.configs := webserver.configs configured;
     webserver.servers :=
       {[ 1%positive := {| webserver.mux := Some [];
                           webserver.cfg := Some 1%positive;
                           webserver.srv :=
                             Some {| webserver.Server_Addr := ":9797" |} |} ]};
     webserver.server := Some 1%positive;
     webserver.events :=
       [webserver.ListenAndServeTLS ":9797" "/etc/tyk/tls.crt" "/etc/tyk/tls.key"] |}.

Definition stopped : webserver.State :=
  {| webserver.configs := webserver.configs configured;
     webserver.servers := webserver.servers listening;
     webserver.server := Some 1%positive;
     webserver.events :=
       [webserver.ListenAndServeTLS ":9797" "/etc/tyk/tls.crt" "/etc/tyk/tls.key";
        webserver.Shutdown] |}.

Definition not_created : webserver.State :=
  {| webserver.configs := ∅; webserver.servers := ∅;
     webserver.server := None; webserver.events := [] |}.

End inputs.


(** * Properties *)

(** ** The library functions on a few inputs *)

Example Atoi_20 : Go.Atoi "20" = inr 20.
Proof. reflexivity. Qed.

Example Atoi_neg : Go.Atoi "-7" = inr (-7).
Proof. reflexivity. Qed.

Example Atoi_word : Go.Atoi "x" = inl (Go.NumError "Atoi" "x" Go.ErrSyntax).
Proof. reflexivity. Qed.

Example Atoi_min : Go.Atoi "-9223372036854775808" = inr (- 2 ^ 63).
Proof. reflexivity. Qed.

Example Atoi_max :
  Go.Atoi "9223372036854775808"
  = inl (Go.NumError "Atoi" "9223372036854775808" Go.ErrRange).
Proof. reflexivity. Qed.

Example Atoi_range_first :
  Go.Atoi "99999999999999999999x"
  = inl (Go.NumError "Atoi" "99999999999999999999x" Go.ErrRange).
Proof. reflexivity. Qed.

Example Itoa_20 : Go.Itoa 20 = "20".
Proof. reflexivity. Qed.

Example Itoa_neg : Go.Itoa (-7) = "-7".
Proof. reflexivity. Qed.

Example sjson_Set_nested :
  sjson.Set' JSON.empty_object "proxy.target_url" (JSON.Str "http://foo")
  = (JSON.Object [("proxy", JSON.Object [("target_url", JSON.Str "http://foo")])],
     None).
Proof. reflexivity. Qed.

Example sjson_Set_replace :
  sjson.Set' (JSON.Object [("a", JSON.Bool true); ("b", JSON.Null)]) "a" (JSON.Number "3")
  = (JSON.Object [("a", JSON.Number "3"); ("b", JSON.Null)], None).
Proof. reflexivity. Qed.

Example Unmarshal_map_sorts_keys :
  encoding_json.Unmarshal_map
    ("{ " +:+ encoding_json.quoted "b" +:+ ": [1, true], "
       +:+ encoding_json.quoted "a" +:+ ": null }")
  = inr (JSON.Object [("a", JSON.Null);
                      ("b", JSON.Array [JSON.Number "1"; JSON.Bool true])]).
Proof. reflexivity. Qed.

Example Unmarshal_slice_rejects_object :
  encoding_json.Unmarshal_slice "{}"
  = inl (Go.library_error "json"
           "cannot unmarshal into Go value of type []interface {}").
Proof. reflexivity. Qed.

(** ** The annotation processor *)

Section ProcessorProperties.

Import JSON processor.

Context {lib : Libraries}.

(** Behind [strings.HasPrefix(s, prefix)] the slice [s[len(prefix):]] is in
    range. *)
Lemma HasPrefix_len (s prefix : string) :
  Go.HasPrefix s prefix = true → (Go.len prefix ≤ Go.len s)%nat.
Proof.
  unfold Go.HasPrefix, Go.len. revert s.
  induction prefix as [|a prefix IH]; intros s; simpl; [lia|].
  destruct s as [|b s]; simpl; [done|].
  destruct (ascii_dec a b); [|done].
  intros Hp. apply IH in Hp. lia.
Qed.

(** The path of a key is what follows its prefix. *)
Lemma slice_from_prefix (prefix rest : string) :
  Go.slice_from (Go.len prefix) (prefix +:+ rest) = rest.
Proof. induction prefix as [|a prefix IH]; [done|]. exact IH. Qed.

Lemma HasPrefix_first (k : string) (a : ascii) (p : string) :
  Go.HasPrefix k (String a p) = true → ∃ k', k = String a k'.
Proof.
  unfold Go.HasPrefix. destruct k as [|c k']; simpl; [discriminate|].
  destruct (ascii_dec a c) as [->|]; [eauto | discriminate].
Qed.

(** A key carries at most one of the five prefixes: with the bool prefix
    it has none of the other four. *)
Lemma bool_prefix_only (k : string) :
  Go.HasPrefix k ValueSetBoolKey = true →
  Go.HasPrefix k ValueSetStringKey = false
  ∧ Go.HasPrefix k ValueSetNumKey = false
  ∧ Go.HasPrefix k ArraySetKey = false
  ∧ Go.HasPrefix k ObjectSetKey = false.
Proof.
  intros Hb. destruct (HasPrefix_first _ _ _ Hb) as [k' ->]. by cbv.
Qed.

Lemma num_prefix_only (k : string) :
  Go.HasPrefix k ValueSetNumKey = true →
  Go.HasPrefix k ValueSetStringKey = false.
Proof.
  intros Hb. destruct (HasPrefix_first _ _ _ Hb) as [k' ->]. by cbv.
Qed.

Lemma array_prefix_only (k : string) :
  Go.HasPrefix k ArraySetKey = true →
  Go.HasPrefix k ValueSetStringKey = false
  ∧ Go.HasPrefix k ValueSetNumKey = false
  ∧ Go.HasPrefix k ValueSetBoolKey = false.
Proof.
  intros Hb. destruct (HasPrefix_first _ _ _ Hb) as [k' ->]. by cbv.
Qed.

Lemma object_prefix_only (k : string) :
  Go.HasPrefix k ObjectSetKey = true →
  Go.HasPrefix k ValueSetStringKey = false
  ∧ Go.HasPrefix k ValueSetNumKey = false
  ∧ Go.HasPrefix k ValueSetBoolKey = false
  ∧ Go.HasPrefix k ArraySetKey = false.
Proof.
  intros Hb. destruct (HasPrefix_first _ _ _ Hb) as [k' ->]. by cbv.
Qed.

(** [set] on a bool key whose value is neither spelling of a boolean. *)
Lemma set_bool_unsupported (k v : string) (def : json) :
  strings_ToLower v ≠ "true" → strings_ToLower v ≠ "false" →
  set k v def ValueSetBoolKey = (def, Some UnsupportedValue).
Proof.
  intros Ht Hf. unfold set.
  change (String.eqb ValueSetBoolKey ValueSetStringKey) with false.
  change (String.eqb ValueSetBoolKey ValueSetBoolKey) with true.
  cbv iota.
  destruct (String.eqb_spec (strings_ToLower v) "true"); [done|].
  destruct (String.eqb_spec (strings_ToLower v) "false"); done.
Qed.

Lemma visit_bool_unsupported (k v : string) (def : json) :
  Go.HasPrefix k ValueSetBoolKey = true →
  strings_ToLower v ≠ "true" → strings_ToLower v ≠ "false" →
  visit k v def = (def, Some UnsupportedValue).
Proof.
  intros Hb Ht Hf. destruct (bool_prefix_only k Hb) as (Hs & Hn & _).
  unfold visit, on_prefix. rewrite Hs, Hn, Hb. simpl.
  by rewrite set_bool_unsupported.
Qed.

(** The loop over [pre ++ post] is the loop over [pre], then, unless it
    returned, the loop over [post] on the document it left. *)
Lemma Process_app (pre post : list (string * string)) (def : json) :
  Process (pre ++ post) def
  = or_return (Process pre def) (λ def, Process post def).
Proof.
  revert def. induction pre as [|[k v] pre IH]; intros def; simpl; [done|].
  destruct (visit k v def) as [d [e|]]; simpl; [done|]. apply IH.
Qed.

(** The loop stops at the first entry whose visit returns an error, with
    what that visit returned. *)
Lemma Process_first_failure (pre post : list (string * string))
    (k v : string) (def d d' : json) (e : Go.error) :
  Process pre def = (d, None) →
  visit k v d = (d', Some e) →
  Process (pre ++ (k, v) :: post) def = (d', Some e).
Proof.
  intros Hpre Hv. rewrite Process_app, Hpre. simpl. by rewrite Hv.
Qed.

(** With an unsupported bool entry somewhere, the loop cannot end without
    an error. *)
Lemma Process_bool_unsupported_fails (ann : list (string * string))
    (k v : string) (def : json) :
  (k, v) ∈ ann →
  Go.HasPrefix k ValueSetBoolKey = true →
  strings_ToLower v ≠ "true" → strings_ToLower v ≠ "false" →
  ∃ d e, Process ann def = (d, Some e).
Proof.
  intros Hin Hb Ht Hf. revert def.
  induction ann as [|[k' v'] ann IH]; intros def; [by apply elem_of_nil in Hin|].
  simpl. destruct (visit k' v' def) as [d [e|]] eqn:Hv; simpl; [eauto|].
  apply elem_of_cons in Hin as [Heq|Hin]; [|by apply IH].
  injection Heq as <- <-.
  rewrite visit_bool_unsupported in Hv by done. discriminate.
Qed.

(** A failed conversion leaves the document as it was. *)
Lemma visit_conversion_fails (k v : string) (def : json) (e : Go.error) :
  conversion_fails k v e → visit k v def = (def, Some e).
Proof.
  intros [(Hb & Ht & Hf & ->)|[(Hn & Ha)|[(Ho & Hu)|(Ha & Hu)]]].
  - by apply visit_bool_unsupported.
  - unfold visit, on_prefix. rewrite (num_prefix_only k Hn), Hn. simpl.
    unfold set. simpl. by rewrite Ha.
  - destruct (object_prefix_only k Ho) as (Hs & Hn & Hb & Ha).
    unfold visit, on_prefix. rewrite Hs, Hn, Hb, Ha, Ho. simpl.
    unfold set. simpl. by rewrite Hu.
  - destruct (array_prefix_only k Ha) as (Hs & Hn & Hb).
    unfold visit, on_prefix. rewrite Hs, Hn, Hb, Ha. simpl.
    unfold set. simpl. by rewrite Hu.
Qed.

(** C6 (as amended).  Let the annotation map hold a bool-prefixed key whose
    value, lowercased, is neither "true" nor "false".  Then, in whatever
    order the loop visits the map, [Process] returns an error; it returns
    the unsupported-bool error, with the document accumulated so far, when
    the entries visited before that key succeed; and in general it stops at
    the first entry whose visit fails, returning what that visit returned
    with its error, which for a failed conversion (bool, num, object,
    array) is the document accumulated from the entries before it. *)
Theorem Process_aborts_at_first_failure (m : gmap string string)
    (order : list (string * string)) (k v : string) (def : json) :
  visits m order →
  m !! k = Some v →
  Go.HasPrefix k ValueSetBoolKey = true →
  strings_ToLower v ≠ "true" → strings_ToLower v ≠ "false" →
  (∃ d e, Process order def = (d, Some e))
  ∧ (∀ pre post d,
       order = pre ++ (k, v) :: post →
       Process pre def = (d, None) →
       Process order def = (d, Some UnsupportedValue))
  ∧ (∀ pre post k' v' d d' e,
       order = pre ++ (k', v') :: post →
       Process pre def = (d, None) →
       visit k' v' d = (d', Some e) →
       Process order def = (d', Some e)
       ∧ (conversion_fails k' v' e → d' = d)).
Proof.
  intros Hvis Hkv Hb Ht Hf. split; [|split].
  - apply (Process_bool_unsupported_fails order k v); [|done..].
    unfold visits in Hvis. rewrite Hvis. by apply elem_of_map_to_list.
  - intros pre post d -> Hpre.
    apply (Process_first_failure pre post k v def d); [done|].
    by apply visit_bool_unsupported.
  - intros pre post k' v' d d' e -> Hpre Hv. split.
    + by apply (Process_first_failure pre post k' v' def d).
    + intros Hc. apply (visit_conversion_fails _ _ d) in Hc.
      rewrite Hv in Hc. by injection Hc.
Qed.

End ProcessorProperties.

Section ProcessorExamples.

Import JSON processor.

Lemma visits_list_to_map (l : list (string * string)) :
  NoDup l.*1 → visits (list_to_map l) l.
Proof. intros Hnd. unfold visits. symmetry. by apply map_to_list_to_map. Qed.

Lemma two_entries_NoDup : NoDup two_entries.*1.
Proof. apply (bool_decide_unpack _). by vm_compute. Qed.

Lemma Process_aborts_at_first_failure_witness :
  (∃ d e, @Process golib two_entries empty_object = (d, Some e))
  ∧ (∀ pre post d,
       two_entries = pre ++ ("bool.service.tyk.io/use-keyless", "maybe") :: post →
       @Process golib pre empty_object = (d, None) →
       @Process golib two_entries empty_object = (d, Some UnsupportedValue))
  ∧ (∀ pre post k' v' d d' e,
       two_entries = pre ++ (k', v') :: post →
       @Process golib pre empty_object = (d, None) →
       @visit golib k' v' d = (d', Some e) →
       @Process golib two_entries empty_object = (d', Some e)
       ∧ (@conversion_fails golib k' v' e → d' = d)).
Proof.
  apply (@Process_aborts_at_first_failure golib (list_to_map two_entries)).
  - apply visits_list_to_map, two_entries_NoDup.
  - by vm_compute.
  - reflexivity.
  - by vm_compute.
  - by vm_compute.
Defined.

Lemma num_then_bool_NoDup : NoDup num_then_bool.*1.
Proof. apply (bool_decide_unpack _). by vm_compute. Qed.

(** C6, counterexample.  The map holds a bool-prefixed key with the value
    "maybe", and the loop, visiting the num entry first, returns the error
    of [strconv.Atoi], not the unsupported-bool error. *)
Lemma Process_unsupported_bool_other_error :
  visits (list_to_map num_then_bool) num_then_bool
  ∧ (list_to_map num_then_bool : gmap string string)
      !! "bool.service.tyk.io/use-keyless" = Some "maybe"
  ∧ Go.HasPrefix "bool.service.tyk.io/use-keyless" ValueSetBoolKey = true
  ∧ Go.lower_ascii "maybe" ≠ "true" ∧ Go.lower_ascii "maybe" ≠ "false"
  ∧ @Process golib num_then_bool empty_object
    = (empty_object, Some (Go.NumError "Atoi" "x" Go.ErrSyntax))
  ∧ snd (@Process golib num_then_bool empty_object) ≠ Some UnsupportedValue.
Proof.
  split; [apply visits_list_to_map, num_then_bool_NoDup|].
  repeat split; by vm_compute.
Qed.

(** C1 (as amended).  [Process] on the empty document with the single
    annotation [string.service.tyk.io/foo-bar] = "baz" returns, without an
    error, the document with the one top-level member [foo_bar] = "baz": the
    dash of the key becomes an underscore inside one path segment, and the
    value is found at the path [foo_bar]. *)
Theorem Process_foo_bar :
  @Process golib (map_to_list {[ "string.service.tyk.io/foo-bar" := "baz" ]})
    empty_object
  = (Object [("foo_bar", Str "baz")], None)
  ∧ Get (Object [("foo_bar", Str "baz")]) "foo_bar" = Some (Str "baz").
Proof. rewrite map_to_list_singleton. split; reflexivity. Qed.

(** C1, counterexample.  In the document [Process] returns for that
    annotation nothing stands at the path [foo.bar], and the document is
    not the nested object. *)
Lemma Process_foo_bar_not_nested :
  Get (fst (@Process golib
              (map_to_list {[ "string.service.tyk.io/foo-bar" := "baz" ]})
              empty_object)) "foo.bar"
  ≠ Some (Str "baz")
  ∧ fst (@Process golib
           (map_to_list {[ "string.service.tyk.io/foo-bar" := "baz" ]})
           empty_object)
    ≠ Object [("foo", Object [("bar", Str "baz")])].
Proof. rewrite map_to_list_singleton. split; by vm_compute. Qed.

End ProcessorExamples.

Section ProcessorPaths.

Import JSON processor.

Context {lib : Libraries}.

(** The path [set] writes a string annotation to: the key without its
    prefix, every dash replaced by an underscore; the dots stay and are the
    separators [sjson] splits the path at. *)
Lemma set_string_path (path val : string) (def : json) :
  set (ValueSetStringKey +:+ path) val def ValueSetStringKey
  = sjson_Set def (Go.ReplaceAll path "-" "_") (Str val).
Proof. reflexivity. Qed.

End ProcessorPaths.


(** ** The admission webhook *)

Section PolicyProperties.

Import injector.

Context {env : Collaborators}.

Lemma ToLower_empty : strings_ToLower EmptyString = EmptyString.
Proof. by rewrite strings_ToLower_ASCII. Qed.

Lemma existsb_eqb_elem_of (x : string) (l : list string) :
  existsb (String.eqb x) l = true ↔ x ∈ l.
Proof.
  rewrite existsb_exists. split.
  - intros (y & Hin & Heq). apply String.eqb_eq in Heq as ->.
    by apply list_elem_of_In.
  - intros Hin. exists x. split; [by apply list_elem_of_In | apply String.eqb_refl].
Qed.

Lemma truthy_spec (v : string) :
  truthy v = true ↔ v ∈ ["y"; "yes"; "true"; "on"].
Proof.
  unfold truthy. rewrite !orb_true_iff, !String.eqb_eq.
  rewrite !elem_of_cons, elem_of_nil. tauto.
Qed.

(** C3.  [mutationRequired] is false for every object whose namespace is
    in the ignored list, whatever its annotations; it is false whenever the
    lower-cased status annotation is "injected", whatever the inject
    annotation says; and otherwise it is true exactly when the lower-cased
    inject annotation is one of y, yes, true, on, so that any other value,
    and an absent annotation, give false. *)
Theorem mutationRequired_policy (h : gmap loc (gmap string string))
    (ignoredList : list string) (metadata : ObjectMeta) :
  let annotations := deref h (Annotations metadata) in
  let status := at_key annotations AdmissionWebhookAnnotationStatusKey in
  let inject := at_key annotations AdmissionWebhookAnnotationInjectKey in
  (Namespace metadata ∈ ignoredList →
   mutationRequired h ignoredList metadata = false)
  ∧ (strings_ToLower status = "injected" →
     mutationRequired h ignoredList metadata = false)
  ∧ (Namespace metadata ∉ ignoredList →
     strings_ToLower status ≠ "injected" →
     (mutationRequired h ignoredList metadata = true
      ↔ strings_ToLower inject ∈ ["y"; "yes"; "true"; "on"]))
  ∧ (annotations !! AdmissionWebhookAnnotationInjectKey = None →
     mutationRequired h ignoredList metadata = false).
Proof.
  intros annotations status inject. unfold mutationRequired.
  fold annotations. fold status. fold inject.
  destruct (existsb (String.eqb (Namespace metadata)) ignoredList) eqn:Hns.
  - apply existsb_eqb_elem_of in Hns. repeat split; done.
  - assert (Namespace metadata ∉ ignoredList) as Hnot.
    { intros Hin. apply existsb_eqb_elem_of in Hin. congruence. }
    destruct (String.eqb_spec (strings_ToLower status) "injected") as [Hst|Hst].
    + repeat split; done.
    + split; [done|]. split; [done|]. split.
      * intros _ _. apply truthy_spec.
      * intros Habs. unfold inject, at_key. rewrite Habs. simpl.
        by rewrite ToLower_empty.
Qed.

End PolicyProperties.

Section PolicyExamples.

Import injector standin.

Lemma mutationRequired_policy_witness :
  mutationRequired (env := collaborators) policy_store ignoredNamespaces
    (meta "dns" "kube-system" "dns" (Some 1%positive)) = false
  ∧ mutationRequired (env := collaborators) policy_store ignoredNamespaces
      (meta "orders" "shop" "orders" (Some 2%positive)) = false
  ∧ mutationRequired (env := collaborators) policy_store ignoredNamespaces
      (meta "orders" "shop" "orders" (Some 3%positive)) = true
  ∧ mutationRequired (env := collaborators) policy_store ignoredNamespaces
      (meta "orders" "shop" "orders" None) = false.
Proof.
  split; [|split; [|split]].
  - destruct (mutationRequired_policy (env := collaborators) policy_store
                ignoredNamespaces (meta "dns" "kube-system" "dns" (Some 1%positive)))
      as (Hns & _).
    apply Hns. cbn. unfold ignoredNamespaces. repeat constructor.
  - destruct (mutationRequired_policy (env := collaborators) policy_store
                ignoredNamespaces (meta "orders" "shop" "orders" (Some 2%positive)))
      as (_ & Hstatus & _).
    apply Hstatus. by vm_compute.
  - destruct (mutationRequired_policy (env := collaborators) policy_store
                ignoredNamespaces (meta "orders" "shop" "orders" (Some 3%positive)))
      as (_ & _ & Hinject & _).
    apply Hinject.
    + cbn. unfold ignoredNamespaces.
      rewrite !not_elem_of_cons. repeat split; try done. apply not_elem_of_nil.
    + by vm_compute.
    + vm_compute. repeat constructor.
  - destruct (mutationRequired_policy (env := collaborators) policy_store
                ignoredNamespaces (meta "orders" "shop" "orders" None))
      as (_ & _ & _ & Habsent).
    apply Habsent. by vm_compute.
Defined.

End PolicyExamples.

(** ** Running the webhook: when a function returns *)

Section Returns.

Import injector.

Context {env : Collaborators}.

Lemma returns_ret {A : Type} (a : A) (s : State) : returns (ret a) s.
Proof. by exists a, s. Qed.

Lemma returns_get (s : State) : returns get s.
Proof. by exists s, s. Qed.

Lemma returns_bind {A B : Type} (m : M A) (k : A → M B) (s : State) :
  returns m s → (∀ a s', m s = Returned a s' → returns (k a) s') →
  returns (bind m k) s.
Proof.
  intros (a & s' & Hm) Hk. unfold returns, bind. rewrite Hm. by apply Hk.
Qed.

Lemma returns_call {A : Type} (c : Call) (op : Outside → A * Outside) (s : State) :
  returns (call c op) s.
Proof. unfold returns, call. eauto. Qed.

Lemma returns_map_assign (l : loc) (k v : string) (s : State) :
  returns (map_assign (Some l) k v) s.
Proof. unfold returns, map_assign. eauto. Qed.

Lemma returns_map_delete (r : mapref) (k : string) (s : State) :
  returns (map_delete r k) s.
Proof. unfold returns, map_delete. destruct r; eauto. Qed.

Lemma returns_alloc (m : option (gmap string string)) (s : State) :
  returns (alloc m) s.
Proof. unfold returns, alloc. destruct m; eauto. Qed.

Lemma returns_store_Containers (cs : list Container) (s : State) :
  returns (store_Containers cs) s.
Proof. unfold returns, store_Containers. eauto. Qed.

End Returns.

Create HintDb returns.

#[local] Hint Resolve returns_ret returns_get returns_call returns_map_assign
  returns_map_delete returns_alloc returns_store_Containers : returns.

(** One step of a proof that a function returns: through a bind, into the
    branches of a match, or by one of the lemmas above. *)
Ltac returns_step :=
  match goal with
  | |- injector.returns (injector.bind _ _) _ => apply returns_bind; [|intros ? ? _]
  | |- injector.returns (match ?x with _ => _ end) _ => destruct x
  | |- injector.returns (if ?b then _ else _) _ => destruct b
  | |- injector.returns (let '(_, _) := ?x in _) _ => destruct x
  | |- injector.returns _ _ => solve [eauto with returns]
  end.

Section ReturnsOfTheWorkflow.

Import injector.

Context {env : Collaborators}.

Lemma returns_generateServerCert (id : string) (s : State) :
  returns (generateServerCert id) s.
Proof. unfold generateServerCert. repeat returns_step. Qed.

Lemma returns_generateStoreAndRegisterCertForAPIDef (sid byoCert : string)
    (s : State) :
  returns (generateStoreAndRegisterCertForAPIDef sid byoCert) s.
Proof.
  unfold generateStoreAndRegisterCertForAPIDef.
  repeat first [apply returns_generateServerCert | returns_step].
Qed.

Lemma returns_handleMeshTLS (ann : mapref) (s : State) :
  returns (handleMeshTLS ann) s.
Proof.
  unfold handleMeshTLS.
  repeat first [apply returns_generateStoreAndRegisterCertForAPIDef | returns_step].
Qed.

Lemma returns_createServiceRoutes (pod : Pod) (l : loc) (namespace : string)
    (tls : bool) (s : State) :
  returns (createServiceRoutes pod (Some l) namespace tls) s.
Proof. unfold createServiceRoutes. repeat returns_step. Qed.

Lemma returns_createPatch_pod (pod : Pod) (annotations : mapref) (s : State) :
  returns (createPatch (Some pod) None annotations) s.
Proof. unfold createPatch. repeat returns_step. Qed.

Lemma returns_createPatch_service (pod : option Pod) (svc : Service)
    (annotations : mapref) (s : State) :
  returns (createPatch pod (Some svc) annotations) s.
Proof. unfold createPatch. repeat returns_step. Qed.

End ReturnsOfTheWorkflow.

Section DispatcherProperties.

Import injector.

Context {env : Collaborators}.

Lemma mutationRequired_nil (h : gmap loc (gmap string string))
    (ignoredList : list string) (metadata : ObjectMeta) :
  Annotations metadata = None → mutationRequired h ignoredList metadata = false.
Proof.
  intros Hnil. unfold mutationRequired. rewrite Hnil. simpl.
  destruct (existsb _ _); [done|].
  unfold at_key. rewrite !lookup_empty. simpl. by rewrite ToLower_empty.
Qed.

Lemma mutationRequired_not_nil (h : gmap loc (gmap string string))
    (ignoredList : list string) (metadata : ObjectMeta) :
  mutationRequired h ignoredList metadata = true →
  ∃ l, Annotations metadata = Some l.
Proof.
  intros Hreq. destruct (Annotations metadata) as [l|] eqn:Hann; [eauto|].
  by rewrite mutationRequired_nil in Hreq.
Qed.

Lemma returns_processPodMutations (ar : AdmissionReview) (s : State) :
  returns (processPodMutations ar) s.
Proof.
  unfold processPodMutations.
  destruct (json_Unmarshal_Pod _) as [err|[pod text]]; [apply returns_ret|].
  apply returns_bind; [apply returns_alloc|]. intros r s1 _.
  apply returns_bind; [apply returns_get|]. intros s2 s3 _.
  destruct (mutationRequired _ _ _) eqn:Hreq; simpl; [|apply returns_ret].
  apply mutationRequired_not_nil in Hreq as [l Hl]. simpl in Hl. subst r.
  repeat first [ apply returns_createServiceRoutes | apply returns_handleMeshTLS
               | apply returns_createPatch_pod | returns_step ].
Qed.

Lemma returns_processServiceMutations (ar : AdmissionReview) (s : State) :
  returns (processServiceMutations ar) s.
Proof.
  unfold processServiceMutations.
  destruct (json_Unmarshal_Service _) as [err|[svc text]]; [apply returns_ret|].
  apply returns_bind; [apply returns_alloc|]. intros r s1 _.
  apply returns_bind; [apply returns_get|]. intros s2 s3 _.
  destruct (mutationRequired _ _ _) eqn:Hreq; simpl; [|apply returns_ret].
  apply mutationRequired_not_nil in Hreq as [l Hl]. simpl in Hl. subst r.
  repeat first [ apply returns_createPatch_service | returns_step ].
Qed.

(** C9.  [mutationRequired] is false for every object whose annotation map
    is nil; so when it is true the map is not nil, the write of the status
    marker and the deletion of the inject key that follow do not panic, and
    the two dispatchers, which write only after [mutationRequired] returned
    true, return for every request from every state. *)
Theorem annotations_present_when_mutating :
  (∀ h ignoredList metadata,
     Annotations metadata = None →
     mutationRequired h ignoredList metadata = false)
  ∧ (∀ h ignoredList metadata s,
       mutationRequired h ignoredList metadata = true →
       (∃ l, Annotations metadata = Some l)
       ∧ returns (mark_injected (Annotations metadata)) s)
  ∧ (∀ ar s,
       returns (processPodMutations ar) s
       ∧ returns (processServiceMutations ar) s).
Proof.
  split; [|split].
  - apply mutationRequired_nil.
  - intros h ignoredList metadata s Hreq.
    destruct (mutationRequired_not_nil _ _ _ Hreq) as [l Hl].
    split; [eauto|]. rewrite Hl. unfold mark_injected. repeat returns_step.
  - intros ar s. split.
    + apply returns_processPodMutations.
    + apply returns_processServiceMutations.
Qed.

(** C5.  [mutateService] emits one operation: [add] at [/spec/ports] when
    the service has more than one port, [replace] at [/spec/ports/0] when
    it has none or one; the value is the sidecar port 8080 either way. *)
Theorem mutateService_one_operation (svc : Service) (basePath : string)
    (sidecarConfig : Config) :
  let sidecarSvcPort :=
    {| ServicePort_Name := "tyk-sidecar"; Port := 8080;
       TargetPort_IntVal := 8080 |} in
  ((1 < length (Ports (Service_Spec svc)))%nat →
   mutateService svc basePath sidecarConfig
   = [{| Op := "add"; Path := "/spec/ports";
         Value := ValueServicePort sidecarSvcPort |}])
  ∧ ((length (Ports (Service_Spec svc)) ≤ 1)%nat →
     mutateService svc basePath sidecarConfig
     = [{| Op := "replace"; Path := "/spec/ports/0";
           Value := ValueServicePort sidecarSvcPort |}]).
Proof.
  intros port. unfold mutateService. split; intros Hlen.
  - apply Nat.ltb_lt in Hlen. by rewrite Hlen.
  - apply Nat.ltb_ge in Hlen. by rewrite Hlen.
Qed.

(** C4.  With the inbound-service-id key in the annotation map,
    [createServiceRoutes] returns the map it was given and no error, and
    leaves the state as it was: the store of maps, the world behind the
    gateway and the record of calls, to which nothing is added. *)
Theorem createServiceRoutes_idempotent (pod : Pod) (annotations : mapref)
    (namespace : string) (tls : bool) (s : State) :
  is_Some (deref (maps s) annotations
             !! AdmissionWebhookAnnotationInboundServiceIDKey) →
  createServiceRoutes pod annotations namespace tls s
  = Returned (annotations, None) s.
Proof.
  intros [id Hid]. unfold createServiceRoutes, bind, get. by rewrite Hid.
Qed.

End DispatcherProperties.

Section ServicePatch.

Import injector.

Context {env : Collaborators}.

Lemma createPatch_service (pod : option Pod) (svc : Service)
    (annotations : mapref) (s : State) :
  createPatch pod (Some svc) annotations s
  = Returned (json_Marshal (mutateService svc "/spec/ports" (SidecarConfig s))) s.
Proof. reflexivity. Qed.

Lemma mutateService_ports_only (svc : Service) (basePath : string)
    (sidecarConfig : Config) :
  ∃ op, mutateService svc basePath sidecarConfig = [op]
        ∧ (Path op = "/spec/ports" ∨ Path op = "/spec/ports/0")
        ∧ ∃ p, Value op = ValueServicePort p.
Proof.
  unfold mutateService. destruct (1 <? _)%nat; eexists; (split; [done|]);
    simpl; eauto.
Qed.

(** C10.  For a Service, [createPatch] encodes what [mutateService]
    returns and nothing else, and that is one operation on the ports, none
    on the annotations.  So when [processServiceMutations] answers with a
    patch, the patch is the encoding of that one operation, although the
    annotation map of the service, in the store, has by then the status
    "injected" and no inject key. *)
Theorem service_patch_is_the_ports_operation :
  (∀ pod svc annotations s,
     createPatch pod (Some svc) annotations s
     = Returned (json_Marshal (mutateService svc "/spec/ports" (SidecarConfig s))) s)
  ∧ (∀ svc basePath sidecarConfig,
       ∃ op, mutateService svc basePath sidecarConfig = [op]
             ∧ (Path op = "/spec/ports" ∨ Path op = "/spec/ports/0")
             ∧ ∃ p, Value op = ValueServicePort p)
  ∧ (∀ ar s resp s' patchBytes,
       processServiceMutations ar s = Returned resp s' →
       Patch resp = Some patchBytes →
       ∃ svc text,
         json_Unmarshal_Service (Object_Raw (Request ar)) = inr (svc, Some text)
         ∧ json_Marshal (mutateService svc "/spec/ports" (SidecarConfig s))
           = inr patchBytes
         ∧ maps s' !! fresh (dom (maps s))
           = Some (delete AdmissionWebhookAnnotationInjectKey
                     (<[AdmissionWebhookAnnotationStatusKey := "injected"]> text))).
Proof.
  split; [apply createPatch_service|]. split; [apply mutateService_ports_only|].
  intros ar s resp s' patchBytes Hrun Hpatch.
  unfold processServiceMutations in Hrun.
  destruct (json_Unmarshal_Service _) as [err|[svc [text|]]] eqn:Hdec.
  - injection Hrun as <- <-. discriminate.
  - exists svc, text. split; [done|].
    unfold bind, alloc, get in Hrun. simpl in Hrun.
    destruct (mutationRequired _ _ _); simpl in Hrun.
    + unfold map_assign, map_delete, createPatch, bind, get, ret in Hrun.
      simpl in Hrun.
      destruct (json_Marshal _) as [err|bytes] eqn:Hmar.
      * injection Hrun as <- <-. discriminate.
      * injection Hrun as <- <-. simpl in Hpatch. injection Hpatch as ->.
        split; [done|]. simpl.
        rewrite lookup_insert_eq. f_equal. by rewrite !lookup_insert_eq.
    + injection Hrun as <- <-. discriminate.
  - unfold bind, alloc, get in Hrun. simpl in Hrun.
    rewrite mutationRequired_nil in Hrun by done. simpl in Hrun.
    injection Hrun as <- <-. discriminate.
Qed.

End ServicePatch.

(** Case analysis on the innermost [match] of a hypothesis that describes
    a run. *)
Ltac inner_case H :=
  match type of H with
  | context [match ?x with _ => _ end] =>
      lazymatch x with
      | context [match _ with _ => _ end] => fail
      | _ => destruct x eqn:?; simpl in H
      end
  end.

Section RegistrationProperties.

Import injector.

Context {env : Collaborators}.

(** A write to one key of a map in the store leaves every other key of
    every map as it was, whether or not the reference read is the one
    written. *)
Lemma deref_assign_other (h : gmap loc (gmap string string)) (l : loc)
    (r : mapref) (k v k' : string) :
  k' ≠ k →
  deref (<[l := <[k := v]> (deref h (Some l))]> h) r !! k' = deref h r !! k'.
Proof.
  intros Hne. destruct r as [l'|]; simpl; [|done].
  destruct (decide (l = l')) as [->|Hl].
  - rewrite lookup_insert_eq. simpl. by rewrite lookup_insert_ne.
  - by rewrite lookup_insert_ne.
Qed.

Lemma checkAndGetTemplate_assign (h : gmap loc (gmap string string)) (l : loc)
    (pod : Pod) (k v : string) (isMesh : bool) :
  tyk_TemplateNameKey ≠ k →
  checkAndGetTemplate (<[l := <[k := v]> (deref h (Some l))]> h) pod isMesh
  = checkAndGetTemplate h pod isMesh.
Proof.
  intros Hne. unfold checkAndGetTemplate. by rewrite deref_assign_other.
Qed.

Lemma no_new_calls (before new : list Call) :
  before = before ++ new → new = [].
Proof.
  intros Heq. rewrite <- (app_nil_r before) in Heq at 1.
  by apply (inj (app before)) in Heq.
Qed.

Lemma new_calls (before made new : list Call) :
  before ++ made = before ++ new → new = made.
Proof. intros Heq. by apply (inj (app before)) in Heq. Qed.

Lemma inbound_slug_is_not_mesh_slug (sName : string) :
  sName +:+ "-inbound" ≠ sName +:+ "-mesh".
Proof. intros Heq. by apply (inj (String.app sName)) in Heq. Qed.

(** C7.  For a pod with an [app] label, the mesh route of
    [createServiceRoutes] (the slug is the label followed by [-mesh]) has
    the target [https] if [tls] is true and [http] otherwise, then [://],
    the app label, a dot, the namespace (["default"] for the empty one)
    and the port [:8080], and its listen path is the value of the route
    annotation of the pod if the pod has one and the app label otherwise.
    Every [CreateService] call recorded for that slug carries them; and
    the call is made: when the map has no inbound-service-id, the inbound
    listener is found or created, and the lookup of the mesh slug finds
    nothing, the function returns, and its calls end with the lookup of
    the mesh slug and the creation of the route with that target and
    listen path, the host name [mesh] and the tag [mesh]. *)
Theorem createServiceRoutes_mesh_route (pod : Pod) (namespace : string)
    (tls : bool) (sName : string) :
  let ns := if String.eqb namespace EmptyString then "default" else namespace in
  let hName := sName +:+ "." +:+ ns in
  let tgt := (if tls then "https" else "http") +:+ "://" +:+ hName +:+ ":8080" in
  let listenPath (s : State) :=
    default sName
      (deref (maps s) (Annotations (Pod_ObjectMeta pod))
         !! admissionWebhookAnnotationRouteKey) in
  Labels (Pod_ObjectMeta pod) !! "app" = Some sName →
  (∀ (annotations : mapref) (s s' : State) (r : mapref * option error)
     (new : list Call) (opts : APIDefOptions),
     createServiceRoutes pod annotations namespace tls s = Returned r s' →
     calls s' = calls s ++ new →
     CallCreateService opts ∈ new →
     Slug opts = sName +:+ "-mesh" →
     Target opts = tgt ∧ ListenPath opts = listenPath s)
  ∧ (∀ (l : loc) (s : State) (found : error + DBApiDefinition)
       (ibID lookup_err : string) (o1 o2 o3 : Outside),
       let inbound :=
         inboundOptions sName hName (checkAndGetTemplate (maps s) pod false)
           (Some (deref (maps s) (Some l))) in
       deref (maps s) (Some l) !! AdmissionWebhookAnnotationInboundServiceIDKey
       = None →
       tyk_GetBySlug (sName +:+ "-inbound") (outside s) = (found, o1) →
       match found with
       | inr inboundDef => Id_Hex inboundDef = ibID ∧ o2 = o1
       | inl _ => tyk_CreateService inbound o1 = (inr ibID, o2)
       end →
       tyk_GetBySlug (sName +:+ "-mesh") o2 = (inl lookup_err, o3) →
       ∃ (r : mapref * option error) (s' : State) (opts : APIDefOptions),
         createServiceRoutes pod (Some l) namespace tls s = Returned r s'
         ∧ calls s'
           = calls s
             ++ CallGetBySlug (sName +:+ "-inbound")
                :: match found with
                   | inr _ => []
                   | inl _ => [CallCreateService inbound]
                   end
             ++ [CallGetBySlug (sName +:+ "-mesh"); CallCreateService opts]
         ∧ Slug opts = sName +:+ "-mesh"
         ∧ Target opts = tgt
         ∧ ListenPath opts = listenPath s
         ∧ Hostname opts = "mesh"
         ∧ Tags opts = [meshTag]).
Proof.
  intros ns hName tgt listenPath Hlabel. split.
  - intros annotations s s' r new opts Hrun Hcalls Hin Hslug.
    unfold createServiceRoutes, bind, get, call, ret, map_assign in Hrun.
    rewrite Hlabel in Hrun. fold ns in Hrun. fold hName in Hrun.
    simpl in Hrun. repeat inner_case Hrun; try discriminate.
    all: injection Hrun as <- <-; simpl in Hcalls.
    all: rewrite <- ?(assoc_L (++)) in Hcalls;
      first [apply new_calls in Hcalls | apply no_new_calls in Hcalls];
      subst new; simpl in Hin.
    all: repeat (apply elem_of_cons in Hin as [Hin|Hin];
                 [try discriminate; injection Hin as ->; simpl in Hslug;
                  try (by apply inbound_slug_is_not_mesh_slug in Hslug)|]).
    all: try (by apply elem_of_nil in Hin).
    all: split; [reflexivity|]; simpl.
    all: match goal with
         | H : deref (<[?l := <[?k := ?v]> _]> ?h) ?r !! ?k' = _ |- _ =>
             pose proof (deref_assign_other h l r k v k' ltac:(done)) as Hroute;
             simpl in Hroute; rewrite H in Hroute; subst listenPath; simpl;
             by rewrite <- Hroute
         end.
  - intros l s found ibID lookup_err o1 o2 o3 inbound Hnone Hget Hinbound Hmesh.
    subst inbound ns hName tgt.
    unfold createServiceRoutes, bind, get, call, ret, map_assign.
    simpl in *. rewrite Hnone, Hlabel, Hget. simpl.
    assert (∀ v,
              default sName
                (deref (<[l := <[AdmissionWebhookAnnotationInboundServiceIDKey := v]>
                                  (default ∅ (maps s !! l))]> (maps s))
                   (Annotations (Pod_ObjectMeta pod))
                 !! admissionWebhookAnnotationRouteKey)
              = listenPath s) as Hpath.
    { intros v. subst listenPath. simpl.
      change (default ∅ (maps s !! l)) with (deref (maps s) (Some l)).
      by rewrite deref_assign_other. }
    destruct found as [e|inboundDef]; simpl.
    + rewrite Hinbound. simpl. rewrite Hmesh. simpl.
      destruct (tyk_CreateService _ o3).1 as [err|meshID]; simpl.
      all: eexists _, _, _; split; [reflexivity|]; simpl.
      all: rewrite <- !(assoc_L (++)); simpl.
      all: split; [reflexivity|]; simpl.
      all: split; [reflexivity|]; split; [reflexivity|].
      all: split; [|by split].
      all: apply Hpath.
    + destruct Hinbound as [<- ->]. rewrite Hmesh. simpl.
      destruct (tyk_CreateService _ o3).1 as [err|meshID]; simpl.
      all: eexists _, _, _; split; [reflexivity|]; simpl.
      all: rewrite <- !(assoc_L (++)); simpl.
      all: split; [reflexivity|]; simpl.
      all: split; [reflexivity|]; split; [reflexivity|].
      all: split; [|by split].
      all: apply Hpath.
Qed.

(** C8 (as amended).  Let the annotation map be a map of the store (not
    nil) without the inbound-service-id key, and let the pod have an [app]
    label.  When the inbound step succeeds with the id [ibID] (the route is
    found, or is created) and the mesh route is neither found nor created,
    [createServiceRoutes] returns the error of the mesh creation together
    with the annotation map it was given, which by then is the map on
    entry with the inbound-service-id set to [ibID]: it holds that id, and
    its mesh-service-id entry is what it was on entry, absent if it was
    absent. *)
Theorem createServiceRoutes_mesh_creation_fails (pod : Pod) (l : loc)
    (namespace : string) (tls : bool) (s : State)
    (sName ibID lookup_err err : string) (found : error + DBApiDefinition)
    (o1 o2 o3 o4 : Outside) :
  let text := deref (maps s) (Some l) in
  let ns := if String.eqb namespace EmptyString then "default" else namespace in
  let hName := sName +:+ "." +:+ ns in
  let opts :=
    inboundOptions sName hName (checkAndGetTemplate (maps s) pod false)
      (Some text) in
  let h' :=
    <[l := <[AdmissionWebhookAnnotationInboundServiceIDKey := ibID]> text]> (maps s) in
  let listenPath :=
    default sName
      (deref h' (Annotations (Pod_ObjectMeta pod))
         !! admissionWebhookAnnotationRouteKey) in
  let tgt := (if tls then "https" else "http") +:+ "://" +:+ hName +:+ ":8080" in
  let meshOpts :=
    meshOptions sName tgt listenPath (checkAndGetTemplate h' pod true) in
  text !! AdmissionWebhookAnnotationInboundServiceIDKey = None →
  Labels (Pod_ObjectMeta pod) !! "app" = Some sName →
  tyk_GetBySlug (sName +:+ "-inbound") (outside s) = (found, o1) →
  match found with
  | inr inboundDef => Id_Hex inboundDef = ibID ∧ o2 = o1
  | inl _ => tyk_CreateService opts o1 = (inr ibID, o2)
  end →
  tyk_GetBySlug (sName +:+ "-mesh") o2 = (inl lookup_err, o3) →
  tyk_CreateService meshOpts o3 = (inl err, o4) →
  ∃ s',
    createServiceRoutes pod (Some l) namespace tls s
    = Returned
        (Some l,
         Some ("failed to create mesh service " +:+ (sName +:+ "-mesh")
               +:+ ": " +:+ err))
        s'
    ∧ maps s' = h'
    ∧ deref (maps s') (Some l) !! AdmissionWebhookAnnotationInboundServiceIDKey
      = Some ibID
    ∧ deref (maps s') (Some l) !! AdmissionWebhookAnnotationMeshServiceIDKey
      = text !! AdmissionWebhookAnnotationMeshServiceIDKey.
Proof.
  intros text ns hName opts h' listenPath tgt meshOpts
    Hnone Hlabel Hget Hinbound Hgetmesh Hcreatemesh.
  subst text ns hName opts h' listenPath tgt meshOpts.
  unfold createServiceRoutes, bind, get, call, ret, map_assign.
  simpl in *. rewrite Hnone, Hlabel, Hget. simpl.
  destruct found as [e|inboundDef]; simpl.
  - rewrite Hinbound. simpl. rewrite Hgetmesh. simpl.
    lazymatch type of Hcreatemesh with
    | tyk_CreateService ?stated _ = _ =>
        match goal with
        | |- context [tyk_CreateService ?made o3] => change made with stated
        end
    end.
    rewrite Hcreatemesh. simpl. eexists. split; [reflexivity|]. simpl.
    rewrite !lookup_insert_eq. simpl. rewrite lookup_insert_eq.
    by rewrite lookup_insert_ne.
  - destruct Hinbound as [<- ->]. rewrite Hgetmesh. simpl.
    lazymatch type of Hcreatemesh with
    | tyk_CreateService ?stated _ = _ =>
        match goal with
        | |- context [tyk_CreateService ?made o3] => change made with stated
        end
    end.
    rewrite Hcreatemesh. simpl. eexists. split; [reflexivity|]. simpl.
    rewrite !lookup_insert_eq. simpl. rewrite lookup_insert_eq.
    by rewrite lookup_insert_ne.
Qed.

End RegistrationProperties.

Section TemplateProperties.

Import injector.

Context {env : Collaborators}.

(** The sidecar configuration after [createPatch] for a pod holds what
    [preProcessContainerTpl] made of its containers. *)
Lemma createPatch_pod_stores_template (pod : Pod) (annotations : mapref)
    (s : State) :
  ∃ patchBytes s',
    createPatch (Some pod) None annotations s = Returned patchBytes s'
    ∧ Config_Containers (SidecarConfig s')
      = preProcessContainerTpl pod (Config_Containers (SidecarConfig s)).
Proof. unfold createPatch, bind, get, ret, store_Containers. simpl. eauto. Qed.

(** What [preProcessContainerTpl] leaves in the slice it is given: the
    first container named [tyk-mesh] carries the tag variable of the pod. *)
Lemma preProcessContainerTpl_tags (pod : Pod) (containers : list Container)
    (i : nat) (cnt : Container) :
  list_find (λ cnt, strings_ToLower (Container_Name cnt) = "tyk-mesh") containers
  = Some (i, cnt) →
  ∃ cnt',
    preProcessContainerTpl pod containers !! i = Some cnt'
    ∧ {| EnvVar_Name := tagVarName;
         EnvVar_Value :=
           "mesh," +:+ default (GenerateName (Pod_ObjectMeta pod)
                                  +:+ "please-set-app-label")
                         (Labels (Pod_ObjectMeta pod) !! "app") |}
      ∈ Env cnt'.
Proof.
  intros Hfind. unfold preProcessContainerTpl. rewrite Hfind.
  apply list_find_Some in Hfind as (Hi & _ & _).
  eexists. split.
  { apply list_lookup_insert_eq. by eapply lookup_lt_Some. }
  simpl. destruct (Labels (Pod_ObjectMeta pod) !! "app") as [sName|]; simpl.
  all: destruct (list_find _ (Env cnt)) as [[ei envVal]|] eqn:Henv.
  all: try (apply list_find_Some in Henv as (Hei & _ & _);
            apply list_elem_of_lookup; exists ei;
            apply list_lookup_insert_eq; by eapply lookup_lt_Some).
  all: apply elem_of_app; right; apply list_elem_of_here.
Qed.

End TemplateProperties.

(** ** The webhook run against the stand-in *)

Section WebhookExamples.

Import injector standin.

#[local] Existing Instance collaborators.

Lemma mutateService_one_operation_witness :
  mutateService two_ports "/spec/ports" template
  = [{| Op := "add"; Path := "/spec/ports"; Value := ValueServicePort sidecar_port |}]
  ∧ mutateService no_ports "/spec/ports" template
    = [{| Op := "replace"; Path := "/spec/ports/0";
          Value := ValueServicePort sidecar_port |}].
Proof.
  split.
  - apply (mutateService_one_operation two_ports). simpl. lia.
  - apply (mutateService_one_operation no_ports). simpl. lia.
Defined.

Lemma createServiceRoutes_idempotent_witness :
  createServiceRoutes orders_pod (Some 1%positive) "shop" false registered_before
  = Returned (Some 1%positive, None) registered_before.
Proof.
  apply createServiceRoutes_idempotent. vm_compute. by eexists.
Defined.

Lemma createServiceRoutes_mesh_route_witness :
  ∃ r s' opts,
    createServiceRoutes orders_pod (Some 1%positive) EmptyString true first_admission
    = Returned r s'
    ∧ CallCreateService opts ∈ calls s'
    ∧ Slug opts = "orders-mesh"
    ∧ Target opts = "https://orders.default:8080"
    ∧ ListenPath opts = "/orders-api".
Proof.
  destruct (createServiceRoutes_mesh_route orders_pod EmptyString true "orders"
              eq_refl) as [_ Hmade].
  destruct (Hmade 1%positive first_admission (inl "not found")
              "id-orders-inbound" "not found" fresh_world
              {| registered := [("orders-inbound", "id-orders-inbound")];
                 unavailable := [] |}
              {| registered := [("orders-inbound", "id-orders-inbound")];
                 unavailable := [] |})
    as (r & s' & opts & Hrun & Hcalls & Hslug & Htarget & Hpath & _);
    [by vm_compute..|].
  exists r, s', opts. split; [exact Hrun|]. split.
  { rewrite Hcalls. do 3 apply list_elem_of_further. apply list_elem_of_here. }
  split; [exact Hslug|]. split; [exact Htarget|].
  etrans; [exact Hpath|]. by vm_compute.
Defined.

Lemma createServiceRoutes_mesh_creation_fails_witness :
  ∃ s',
    createServiceRoutes orders_pod (Some 1%positive) "shop" false without_ids
    = Returned (Some 1%positive, Some mesh_failure) s'
    ∧ deref (maps s') (Some 1%positive)
        !! AdmissionWebhookAnnotationInboundServiceIDKey = Some "id-orders-inbound"
    ∧ deref (maps s') (Some 1%positive)
        !! AdmissionWebhookAnnotationMeshServiceIDKey = None.
Proof.
  destruct (createServiceRoutes_mesh_creation_fails orders_pod 1%positive "shop"
              false without_ids "orders" "id-orders-inbound" "not found"
              "gateway unavailable" (inl "not found")
              mesh_unavailable inbound_registered inbound_registered
              inbound_registered)
    as (s' & Hrun & _ & Hinbound & Hmesh); try (by vm_compute).
  exists s'. split; [exact Hrun|]. split; [exact Hinbound|].
  etrans; [exact Hmesh|]. by vm_compute.
Defined.

(** C8, counterexample.  The inbound route is created, the creation of the
    mesh route fails, and the map returned with the error holds the
    inbound id and a mesh-service-id: the one it held on entry. *)
Lemma createServiceRoutes_keeps_mesh_id :
  ∃ s',
    createServiceRoutes orders_pod (Some 1%positive) "shop" false stale_mesh_id
    = Returned (Some 1%positive, Some mesh_failure) s'
    ∧ outside s' = inbound_registered
    ∧ deref (maps s') (Some 1%positive)
        !! AdmissionWebhookAnnotationInboundServiceIDKey = Some "id-orders-inbound"
    ∧ deref (maps s') (Some 1%positive)
        !! AdmissionWebhookAnnotationMeshServiceIDKey = Some "5f3c9a".
Proof.
  eexists. split; [vm_compute; reflexivity|]. repeat split; by vm_compute.
Qed.

End WebhookExamples.

Section DispatcherExamples.

Import injector standin.

#[local] Existing Instance collaborators.

Lemma annotations_present_when_mutating_witness :
  mutationRequired policy_store ignoredNamespaces
    (meta "orders" "shop" "orders" None) = false
  ∧ ((∃ l, Annotations (meta "orders" "shop" "orders" (Some 3%positive)) = Some l)
     ∧ returns (mark_injected
                  (Annotations (meta "orders" "shop" "orders" (Some 3%positive))))
         started)
  ∧ returns (processPodMutations admit_orders_pod) started
  ∧ returns (processServiceMutations admit_orders_service) started.
Proof.
  destruct (annotations_present_when_mutating (env := collaborators))
    as (Hnil & Hpresent & Hreturn).
  split; [by apply Hnil|].
  split; [apply (Hpresent policy_store ignoredNamespaces); by vm_compute|].
  split; [apply (Hreturn admit_orders_pod) | apply (Hreturn admit_orders_service)].
Defined.

Lemma service_patch_is_the_ports_operation_witness :
  ∃ resp s' patchBytes,
    processServiceMutations admit_orders_service started = Returned resp s'
    ∧ Patch resp = Some patchBytes
    ∧ patchBytes
      = [{| Op := "add"; Path := "/spec/ports";
            Value := ValueServicePort sidecar_port |}]
    ∧ ∃ svc text,
        json_Unmarshal_Service (Object_Raw (Request admit_orders_service))
        = inr (svc, Some text)
        ∧ json_Marshal (mutateService svc "/spec/ports" (SidecarConfig started))
          = inr patchBytes
        ∧ maps s' !! fresh (dom (maps started))
          = Some (delete AdmissionWebhookAnnotationInjectKey
                    (<[AdmissionWebhookAnnotationStatusKey := "injected"]> text)).
Proof.
  eexists _, _, _. split; [vm_compute; reflexivity|].
  split; [reflexivity|]. split; [reflexivity|].
  eapply (proj2 (proj2 (service_patch_is_the_ports_operation (env := collaborators)))).
  - vm_compute. reflexivity.
  - reflexivity.
Defined.

(** C2, the failing input.  A webhook started with the template [template]
    admits one pod of [orders]: the request is allowed, and the
    configuration it leaves is not the one loaded; the gateway container of
    the template has the tag variable of that pod appended to its [Env]. *)
Theorem processPodMutations_rewrites_SidecarConfig :
  ∃ resp s',
    processPodMutations admit_orders_pod started = Returned resp s'
    ∧ Allowed resp = true
    ∧ SidecarConfig started = template
    ∧ SidecarConfig s' ≠ template
    ∧ Env <$> Config_Containers (SidecarConfig s')
      = [[{| EnvVar_Name := "TYK_GW_LISTENPORT"; EnvVar_Value := "8080" |};
          {| EnvVar_Name := "TYK_GW_DBAPPCONFOPTIONS_TAGS";
             EnvVar_Value := "mesh,orders" |}]].
Proof.
  eexists _, _. split; [vm_compute; reflexivity|]. repeat split; by vm_compute.
Qed.

End DispatcherExamples.


(** * Further properties *)

(** ** More on the annotation processor *)

Section ProcessorFurther.

Import JSON processor.

Context {lib : Libraries}.

Lemma or_return_id (r : json * option Go.error) :
  or_return r (λ def, (def, None)) = r.
Proof. by destruct r as [d [e|]]. Qed.

Lemma HasPrefix_app (prefix rest : string) :
  Go.HasPrefix (prefix +:+ rest) prefix = true.
Proof.
  unfold Go.HasPrefix. induction prefix as [|a prefix IH]; simpl.
  - by destruct rest.
  - by destruct (ascii_dec a a).
Qed.

Lemma string_prefix_only (k : string) :
  Go.HasPrefix k ValueSetStringKey = true →
  Go.HasPrefix k ValueSetNumKey = false
  ∧ Go.HasPrefix k ValueSetBoolKey = false
  ∧ Go.HasPrefix k ArraySetKey = false
  ∧ Go.HasPrefix k ObjectSetKey = false.
Proof.
  intros Hb. destruct (HasPrefix_first _ _ _ Hb) as [k' ->]. by cbv.
Qed.

Lemma num_prefix_alone (k : string) :
  Go.HasPrefix k ValueSetNumKey = true →
  Go.HasPrefix k ValueSetStringKey = false
  ∧ Go.HasPrefix k ValueSetBoolKey = false
  ∧ Go.HasPrefix k ArraySetKey = false
  ∧ Go.HasPrefix k ObjectSetKey = false.
Proof.
  intros Hb. destruct (HasPrefix_first _ _ _ Hb) as [k' ->]. by cbv.
Qed.

(** The loop body runs [set] for the one prefix the key carries, and for
    nothing else. *)
Lemma visit_one_prefix (k v : string) (def : json) :
  (Go.HasPrefix k ValueSetStringKey = true →
   visit k v def = set k v def ValueSetStringKey)
  ∧ (Go.HasPrefix k ValueSetNumKey = true →
     visit k v def = set k v def ValueSetNumKey)
  ∧ (Go.HasPrefix k ValueSetBoolKey = true →
     visit k v def = set k v def ValueSetBoolKey)
  ∧ (Go.HasPrefix k ArraySetKey = true →
     visit k v def = set k v def ArraySetKey)
  ∧ (Go.HasPrefix k ObjectSetKey = true →
     visit k v def = set k v def ObjectSetKey).
Proof.
  unfold visit, on_prefix. repeat split; intros Hp.
  - destruct (string_prefix_only k Hp) as (Hn & Hb & Ha & Ho).
    rewrite Hp, Hn, Hb, Ha, Ho. by destruct (set _ _ _ _) as [d [e|]].
  - destruct (num_prefix_alone k Hp) as (Hs & Hb & Ha & Ho).
    rewrite Hp, Hs, Hb, Ha, Ho. simpl. by destruct (set _ _ _ _) as [d [e|]].
  - destruct (bool_prefix_only k Hp) as (Hs & Hn & Ha & Ho).
    rewrite Hp, Hs, Hn, Ha, Ho. simpl. by destruct (set _ _ _ _) as [d [e|]].
  - destruct (array_prefix_only k Hp) as (Hs & Hn & Hb).
    rewrite Hp, Hs, Hn, Hb. simpl.
    destruct (set _ _ _ _) as [d [e|]] eqn:Hset; simpl; [done|].
    destruct (Go.HasPrefix k ObjectSetKey) eqn:Ho; [|done].
    destruct (object_prefix_only k Ho) as (_ & _ & _ & Ha). congruence.
  - destruct (object_prefix_only k Hp) as (Hs & Hn & Hb & Ha).
    rewrite Hp, Hs, Hn, Hb, Ha. simpl. by destruct (set _ _ _ _) as [d [e|]].
Qed.

(** X1.  An entry whose key has none of the five prefixes is skipped: a
    map of such entries, the empty map among them, leaves the document as
    it is and gives no error. *)
Theorem Process_skips_other_keys (ann : list (string * string)) (def : json) :
  (∀ k v, (k, v) ∈ ann →
     Go.HasPrefix k ValueSetStringKey = false
     ∧ Go.HasPrefix k ValueSetNumKey = false
     ∧ Go.HasPrefix k ValueSetBoolKey = false
     ∧ Go.HasPrefix k ArraySetKey = false
     ∧ Go.HasPrefix k ObjectSetKey = false) →
  Process ann def = (def, None).
Proof.
  induction ann as [|[k v] ann IH]; intros Hkeys; [done|]. simpl.
  destruct (Hkeys k v) as (Hs & Hn & Hb & Ha & Ho); [apply list_elem_of_here|].
  unfold visit, on_prefix. rewrite Hs, Hn, Hb, Ha, Ho. simpl.
  apply IH. intros k' v' Hin. apply (Hkeys k' v'). by apply list_elem_of_further.
Qed.

(** X2.  For an entry with one of the five prefixes and a value of its
    type, the loop body returns what [sjson.Set] returns for the document,
    the path that follows the prefix with every dash turned into an
    underscore, and the value converted: the string as it is, the boolean
    a case-insensitive "true" or "false" spells, the integer that
    [strconv.Atoi] reads, the object or array that [json.Unmarshal]
    decodes.  No other prefix applies to the key, so nothing else is
    written for the entry. *)
Theorem visit_writes_once (path v : string) (def : json) :
  let pth := Go.ReplaceAll path "-" "_" in
  visit (ValueSetStringKey +:+ path) v def = sjson_Set def pth (Str v)
  ∧ (∀ b : bool,
       strings_ToLower v = (if b then "true" else "false") →
       visit (ValueSetBoolKey +:+ path) v def = sjson_Set def pth (Bool b))
  ∧ (∀ d, Go.Atoi v = inr d →
       visit (ValueSetNumKey +:+ path) v def
       = sjson_Set def pth (Number (Go.Itoa d)))
  ∧ (∀ d, json_Unmarshal_map v = inr d →
       visit (ObjectSetKey +:+ path) v def = sjson_Set def pth d)
  ∧ (∀ d, json_Unmarshal_slice v = inr d →
       visit (ArraySetKey +:+ path) v def = sjson_Set def pth d).
Proof.
  intros pth. repeat split.
  - rewrite (proj1 (visit_one_prefix _ v def)) by apply HasPrefix_app.
    unfold set. by rewrite slice_from_prefix.
  - intros b Hb.
    rewrite (proj1 (proj2 (proj2 (visit_one_prefix _ v def))))
      by apply HasPrefix_app.
    unfold set. rewrite slice_from_prefix. simpl. rewrite Hb. by destruct b.
  - intros d Hd.
    rewrite (proj1 (proj2 (visit_one_prefix _ v def))) by apply HasPrefix_app.
    unfold set. rewrite slice_from_prefix. simpl. by rewrite Hd.
  - intros d Hd.
    rewrite (proj2 (proj2 (proj2 (proj2 (visit_one_prefix _ v def)))))
      by apply HasPrefix_app.
    unfold set. rewrite slice_from_prefix. simpl. by rewrite Hd.
  - intros d Hd.
    rewrite (proj1 (proj2 (proj2 (proj2 (visit_one_prefix _ v def)))))
      by apply HasPrefix_app.
    unfold set. rewrite slice_from_prefix. simpl. by rewrite Hd.
Qed.




(** X4.  Applying a map in two batches: when the first batch goes through,
    the whole is the second batch applied to the document the first one
    left; when the first batch fails, the second is not looked at. *)
Theorem Process_in_batches (first second : list (string * string))
    (def d : json) :
  (Process first def = (d, None) →
   Process (first ++ second) def = Process second d)
  ∧ (∀ e, Process first def = (d, Some e) →
       Process (first ++ second) def = (d, Some e)).
Proof.
  split.
  - intros Hfirst. by rewrite Process_app, Hfirst.
  - intros e Hfirst. by rewrite Process_app, Hfirst.
Qed.

End ProcessorFurther.

(** ** Service registration, further *)

(** [simpl] unfolds [deref] at a location; this folds it back. *)
Ltac fold_deref :=
  repeat match goal with
         | |- context [default ∅ (?h !! ?l)] =>
             change (default ∅ (h !! l)) with (injector.deref h (Some l))
         end.

Section RegistrationFurther.

Import injector.

Context {env : Collaborators}.

(** What a run of [createServiceRoutes] leaves alone: the reference it
    returns is the one it was given, the sidecar configuration is
    untouched, and in every map every key other than the two service ids
    reads as before. *)
Lemma createServiceRoutes_writes_ids_only (pod : Pod) (annotations : mapref)
    (namespace : string) (tls : bool) (s s' : State) (r : mapref * option error) :
  createServiceRoutes pod annotations namespace tls s = Returned r s' →
  r.1 = annotations
  ∧ SidecarConfig s' = SidecarConfig s
  ∧ ∀ r' k,
      k ≠ AdmissionWebhookAnnotationInboundServiceIDKey →
      k ≠ AdmissionWebhookAnnotationMeshServiceIDKey →
      deref (maps s') r' !! k = deref (maps s) r' !! k.
Proof.
  intros Hrun.
  unfold createServiceRoutes, bind, get, call, ret, map_assign in Hrun.
  simpl in Hrun. repeat inner_case Hrun; try discriminate.
  all: injection Hrun as <- <-; simpl.
  all: split; [done|]; split; [done|]; intros r' k Hib Hmesh.
  all: fold_deref; rewrite ?deref_assign_other by done; done.
Qed.

(** X5.  When [createServiceRoutes] starts from a map without an
    inbound-service-id, for a pod with an [app] label, and both routes are
    found or created, it returns no error and the map it was given is the
    map on entry with the two ids set: the inbound-service-id is the id of
    the definition found under the inbound slug, or else the id
    [CreateService] returned for the inbound listener, and the
    mesh-service-id is the id of the definition found under the mesh slug,
    or else the id [CreateService] returned for the mesh route.  Every
    other entry is as it was, no other map is written, and the sidecar
    configuration is untouched. *)
Theorem createServiceRoutes_records_both_ids (pod : Pod) (l : loc)
    (namespace : string) (tls : bool) (s : State)
    (sName ibID meshID : string) (found foundMesh : error + DBApiDefinition)
    (o1 o2 o3 o4 : Outside) :
  let text := deref (maps s) (Some l) in
  let ns := if String.eqb namespace EmptyString then "default" else namespace in
  let hName := sName +:+ "." +:+ ns in
  let opts :=
    inboundOptions sName hName (checkAndGetTemplate (maps s) pod false)
      (Some text) in
  let h' :=
    <[l := <[AdmissionWebhookAnnotationInboundServiceIDKey := ibID]> text]> (maps s) in
  let listenPath :=
    default sName
      (deref h' (Annotations (Pod_ObjectMeta pod))
         !! admissionWebhookAnnotationRouteKey) in
  let tgt := (if tls then "https" else "http") +:+ "://" +:+ hName +:+ ":8080" in
  let meshOpts :=
    meshOptions sName tgt listenPath (checkAndGetTemplate h' pod true) in
  text !! AdmissionWebhookAnnotationInboundServiceIDKey = None →
  Labels (Pod_ObjectMeta pod) !! "app" = Some sName →
  tyk_GetBySlug (sName +:+ "-inbound") (outside s) = (found, o1) →
  match found with
  | inr inboundDef => Id_Hex inboundDef = ibID ∧ o2 = o1
  | inl _ => tyk_CreateService opts o1 = (inr ibID, o2)
  end →
  tyk_GetBySlug (sName +:+ "-mesh") o2 = (foundMesh, o3) →
  match foundMesh with
  | inr meshDef => Id_Hex meshDef = meshID ∧ o4 = o3
  | inl _ => tyk_CreateService meshOpts o3 = (inr meshID, o4)
  end →
  ∃ s',
    createServiceRoutes pod (Some l) namespace tls s
    = Returned (Some l, None) s'
    ∧ maps s'
      = <[l := <[AdmissionWebhookAnnotationMeshServiceIDKey := meshID]>
                 (<[AdmissionWebhookAnnotationInboundServiceIDKey := ibID]> text)]>
          (maps s)
    ∧ outside s' = o4
    ∧ SidecarConfig s' = SidecarConfig s.
Proof.
  intros text ns hName opts h' listenPath tgt meshOpts
    Hnone Hlabel Hget Hinbound Hgetmesh Hmesh.
  subst text ns hName opts h' listenPath tgt meshOpts.
  unfold createServiceRoutes, bind, get, call, ret, map_assign.
  simpl in *. rewrite Hnone, Hlabel, Hget. simpl.
  destruct found as [e|inboundDef]; simpl.
  - rewrite Hinbound. simpl. rewrite Hgetmesh. simpl.
    destruct foundMesh as [e'|meshDef]; simpl.
    + lazymatch type of Hmesh with
      | tyk_CreateService ?stated _ = _ =>
          match goal with
          | |- context [tyk_CreateService ?made o3] => change made with stated
          end
      end.
      rewrite Hmesh. simpl. eexists. split; [reflexivity|]. simpl.
      by rewrite lookup_insert_eq, insert_insert_eq.
    + destruct Hmesh as [<- ->]. eexists. split; [reflexivity|]. simpl.
      by rewrite lookup_insert_eq, insert_insert_eq.
  - destruct Hinbound as [<- ->]. rewrite Hgetmesh. simpl.
    destruct foundMesh as [e'|meshDef]; simpl.
    + lazymatch type of Hmesh with
      | tyk_CreateService ?stated _ = _ =>
          match goal with
          | |- context [tyk_CreateService ?made o3] => change made with stated
          end
      end.
      rewrite Hmesh. simpl. eexists. split; [reflexivity|]. simpl.
      by rewrite lookup_insert_eq, insert_insert_eq.
    + destruct Hmesh as [<- ->]. eexists. split; [reflexivity|]. simpl.
      by rewrite lookup_insert_eq, insert_insert_eq.
Qed.

(** X6.  Whatever [createServiceRoutes] returns, it wrote nothing but the
    two service ids: the reference returned is the one given, the sidecar
    configuration is untouched, every key other than the two ids reads as
    before in every map, and a map other than the one given is not
    written at all. *)
Theorem createServiceRoutes_frame (pod : Pod) (annotations : mapref)
    (namespace : string) (tls : bool) (s s' : State) (r : mapref * option error) :
  createServiceRoutes pod annotations namespace tls s = Returned r s' →
  r.1 = annotations
  ∧ SidecarConfig s' = SidecarConfig s
  ∧ (∀ r' k,
       k ≠ AdmissionWebhookAnnotationInboundServiceIDKey →
       k ≠ AdmissionWebhookAnnotationMeshServiceIDKey →
       deref (maps s') r' !! k = deref (maps s) r' !! k)
  ∧ (∀ l', annotations ≠ Some l' → maps s' !! l' = maps s !! l').
Proof.
  intros Hrun.
  destruct (createServiceRoutes_writes_ids_only _ _ _ _ _ _ _ Hrun)
    as (Href & Hcfg & Hkeys).
  split; [done|]. split; [done|]. split; [done|].
  intros l' Hother.
  unfold createServiceRoutes, bind, get, call, ret, map_assign in Hrun.
  simpl in Hrun. repeat inner_case Hrun; try discriminate.
  all: injection Hrun as <- <-; simpl.
  all: rewrite ?lookup_insert_ne by congruence; done.
Qed.

(** X7.  The calls of [createServiceRoutes] go to the gateway's slug
    lookup and service creation and to nothing else, there are at most
    four of them, and a service is created only right after the lookup of
    its own slug. *)
Theorem createServiceRoutes_looks_up_before_creating (pod : Pod)
    (annotations : mapref) (namespace : string) (tls : bool) (s s' : State)
    (r : mapref * option error) (new : list Call) :
  createServiceRoutes pod annotations namespace tls s = Returned r s' →
  calls s' = calls s ++ new →
  (length new ≤ 4)%nat
  ∧ (∀ c, c ∈ new →
       (∃ slug, c = CallGetBySlug slug) ∨ (∃ opts, c = CallCreateService opts))
  ∧ (∀ opts, CallCreateService opts ∈ new →
       ∃ before after,
         new = before ++ [CallGetBySlug (Slug opts); CallCreateService opts] ++ after).
Proof.
  intros Hrun Hcalls.
  unfold createServiceRoutes, bind, get, call, ret, map_assign in Hrun.
  simpl in Hrun. repeat inner_case Hrun; try discriminate.
  all: injection Hrun as <- <-; simpl in Hcalls.
  all: rewrite <- ?(assoc_L (++)) in Hcalls;
    first [apply new_calls in Hcalls | apply no_new_calls in Hcalls];
    subst new; simpl.
  all: split; [lia|]; split.
  all: intros c Hin.
  all: repeat (apply elem_of_cons in Hin as [Hin|Hin];
               [try discriminate; try (subst c; eauto)|]).
  all: try (by apply elem_of_nil in Hin).
  all: injection Hin as ->; simpl.
  all: first [ by exists [], []
             | by eexists [], [_]
             | by eexists [], [_; _]
             | by eexists [_], []
             | by eexists [_], [_]
             | by eexists [_; _], []
             | by eexists [_; _], [_] ].
Qed.

(** X8.  When the inbound listener is neither found nor created,
    [createServiceRoutes] returns the error of the creation under the
    slug of the listener, after the lookup and the one attempt; no
    annotation is written, a nil map included, and the mesh route is not
    attempted. *)
Theorem createServiceRoutes_inbound_creation_fails (pod : Pod)
    (annotations : mapref) (namespace : string) (tls : bool) (s : State)
    (sName lookup_err err : string) (o1 o2 : Outside) :
  let ns := if String.eqb namespace EmptyString then "default" else namespace in
  let opts :=
    inboundOptions sName (sName +:+ "." +:+ ns)
      (checkAndGetTemplate (maps s) pod false) (content (maps s) annotations) in
  deref (maps s) annotations !! AdmissionWebhookAnnotationInboundServiceIDKey = None →
  Labels (Pod_ObjectMeta pod) !! "app" = Some sName →
  tyk_GetBySlug (sName +:+ "-inbound") (outside s) = (inl lookup_err, o1) →
  tyk_CreateService opts o1 = (inl err, o2) →
  createServiceRoutes pod annotations namespace tls s
  = Returned
      (annotations,
       Some ("failed to create inbound service " +:+ (sName +:+ "-inbound")
             +:+ ": " +:+ err))
      {| maps := maps s; SidecarConfig := SidecarConfig s; outside := o2;
         calls := calls s ++ [CallGetBySlug (sName +:+ "-inbound");
                              CallCreateService opts] |}.
Proof.
  intros ns opts Hnone Hlabel Hget Hcreate. subst ns opts.
  unfold createServiceRoutes, bind, get, call, ret.
  rewrite Hnone, Hlabel. simpl. rewrite Hget. simpl. rewrite Hcreate. simpl.
  by rewrite <- (assoc_L (++)).
Qed.

(** X9.  Called with a nil annotation map for a pod with an [app] label,
    [createServiceRoutes] panics as soon as the inbound listener is found
    or created: the write of its id is an assignment to an entry of a nil
    map. *)
Theorem createServiceRoutes_nil_map_panics (pod : Pod) (namespace : string)
    (tls : bool) (s : State) (sName ibID : string)
    (found : error + DBApiDefinition) (o1 o2 : Outside) :
  let ns := if String.eqb namespace EmptyString then "default" else namespace in
  let opts :=
    inboundOptions sName (sName +:+ "." +:+ ns)
      (checkAndGetTemplate (maps s) pod false) None in
  Labels (Pod_ObjectMeta pod) !! "app" = Some sName →
  tyk_GetBySlug (sName +:+ "-inbound") (outside s) = (found, o1) →
  match found with
  | inr inboundDef => True
  | inl _ => tyk_CreateService opts o1 = (inr ibID, o2)
  end →
  createServiceRoutes pod None namespace tls s
  = Panicked "assignment to entry in nil map".
Proof.
  intros ns opts Hlabel Hget Hinbound. subst ns opts.
  unfold createServiceRoutes, bind, get, call, ret, map_assign.
  simpl. rewrite lookup_empty, Hlabel. simpl. rewrite Hget. simpl.
  destruct found as [e|inboundDef]; simpl; [|done].
  by rewrite Hinbound.
Qed.

End RegistrationFurther.

(** ** The certificate workflow *)

Section CertificateProperties.

Import injector.

Context {env : Collaborators}.

Lemma generateServerCert_frame (id : string) (s s' : State)
    (r : error + CertModel) :
  generateServerCert id s = Returned r s' →
  maps s' = maps s ∧ SidecarConfig s' = SidecarConfig s.
Proof.
  unfold generateServerCert, bind, call, ret. intros Hrun. simpl in Hrun.
  repeat inner_case Hrun; by injection Hrun as <- <-.
Qed.

Lemma generateStoreAndRegisterCertForAPIDef_frame (sid byoCert : string)
    (s s' : State) (r : option error) :
  generateStoreAndRegisterCertForAPIDef sid byoCert s = Returned r s' →
  maps s' = maps s ∧ SidecarConfig s' = SidecarConfig s.
Proof.
  unfold generateStoreAndRegisterCertForAPIDef, generateServerCert, bind, call, ret.
  intros Hrun. simpl in Hrun.
  repeat inner_case Hrun; by injection Hrun as <- <-.
Qed.

Lemma handleMeshTLS_frame (ann : mapref) (s s' : State) (r : option error) :
  handleMeshTLS ann s = Returned r s' →
  maps s' = maps s ∧ SidecarConfig s' = SidecarConfig s.
Proof.
  unfold handleMeshTLS, bind, get, ret. intros Hrun.
  destruct (negb _); [by injection Hrun as <- <-|].
  destruct (deref _ _ !! _) as [ingressID|]; [|by injection Hrun as <- <-].
  destruct (generateStoreAndRegisterCertForAPIDef ingressID _ s)
    as [[e|] s1|] eqn:Hin; [by injection Hrun as <- <-; eapply generateStoreAndRegisterCertForAPIDef_frame| |done].
  apply generateStoreAndRegisterCertForAPIDef_frame in Hin as [Hm Hc].
  destruct (deref _ _ !! _) as [meshID|]; [|by injection Hrun as <- <-].
  apply generateStoreAndRegisterCertForAPIDef_frame in Hrun as [Hm' Hc'].
  split; congruence.
Qed.

(** X10.  [handleMeshTLS] writes no annotation map and leaves the sidecar
    configuration alone, whatever it returns; with mesh TLS disabled it
    returns no error and the state is the one it started from: no call is
    made. *)
Theorem handleMeshTLS_writes_nothing (ann : mapref) (s : State) :
  (∀ r s', handleMeshTLS ann s = Returned r s' →
     maps s' = maps s ∧ SidecarConfig s' = SidecarConfig s)
  ∧ (EnableMeshTLS (SidecarConfig s) = false →
     handleMeshTLS ann s = Returned None s).
Proof.
  split; [intros r s'; apply handleMeshTLS_frame|].
  intros Hoff. unfold handleMeshTLS, bind, get, ret. by rewrite Hoff.
Qed.

(** X11.  With a certificate id of one's own, no certificate is issued:
    [generateStoreAndRegisterCertForAPIDef] asks the gateway for the API
    definition and, when it has one, sends it back once with that id
    appended to its certificates.  The CA and the certificate store are
    not called. *)
Theorem byoCert_is_registered_as_given (sid byoCert : string) (s s' : State)
    (r : option error) (new : list Call) :
  byoCert ≠ EmptyString →
  generateStoreAndRegisterCertForAPIDef sid byoCert s = Returned r s' →
  calls s' = calls s ++ new →
  match (tyk_GetByObjectID sid (outside s)).1 with
  | inl err =>
      new = [CallGetByObjectID sid]
      ∧ r = Some ("failed to retrieve API definition: " +:+ err)
  | inr aDef =>
      new = [CallGetByObjectID sid;
             CallUpdateAPI {| Id_Hex := Id_Hex aDef; Domain := Domain aDef;
                              Certificates := Certificates aDef ++ [byoCert] |}]
  end.
Proof.
  intros Hbyo Hrun Hcalls.
  unfold generateStoreAndRegisterCertForAPIDef, bind, call, ret in Hrun.
  apply String.eqb_neq in Hbyo. rewrite Hbyo in Hrun. simpl in Hrun.
  repeat inner_case Hrun.
  all: injection Hrun as <- <-; simpl in Hcalls.
  all: rewrite <- ?(assoc_L (++)) in Hcalls; apply new_calls in Hcalls.
  all: by subst new.
Qed.

(** X12.  When [generateStoreAndRegisterCertForAPIDef] issues the
    certificate itself and returns no error, it has made six calls, in
    this order: the API definition is fetched, the CA generates a
    certificate for the domain of that definition, which is not empty,
    the bundle and key of the certificate the CA returned are uploaded to
    the gateway, the certificate is stored with the id the gateway
    returned for the upload as its fingerprint, the API definition is
    fetched again, and the definition that fetch returned is sent back
    with that id appended to its certificates. *)
Theorem issued_certificate_is_registered (sid : string) (s s' : State)
    (new : list Call) :
  generateStoreAndRegisterCertForAPIDef sid EmptyString s = Returned None s' →
  calls s' = calls s ++ new →
  ∃ (apidef aDef : DBApiDefinition) (bdl : CertificateBundle) (certID : string),
    let fetched := tyk_GetByObjectID sid (outside s) in
    let generated := CAClient_GenerateCert (Domain apidef) fetched.2 in
    let serverCert := ca_NewCertModel bdl in
    let uploaded :=
      tyk_CreateCertificate (Bundled (Bundle serverCert))
        (PrivateKey (Bundle serverCert)) generated.2 in
    let registered :=
      {| Bundle := {| Bundled := Bundled (Bundle serverCert);
                      PrivateKey := PrivateKey (Bundle serverCert);
                      Fingerprint := certID |} |} in
    let stored := CAClient_StoreCert registered uploaded.2 in
    fetched.1 = inr apidef
    ∧ Domain apidef ≠ EmptyString
    ∧ generated.1 = inr bdl
    ∧ uploaded.1 = inr certID
    ∧ stored.1 = None
    ∧ (tyk_GetByObjectID sid stored.2).1 = inr aDef
    ∧ new
      = [CallGetByObjectID sid;
         CallGenerateCert (Domain apidef);
         CallCreateCertificate (Bundled (Bundle serverCert))
           (PrivateKey (Bundle serverCert));
         CallStoreCert registered;
         CallGetByObjectID sid;
         CallUpdateAPI {| Id_Hex := Id_Hex aDef; Domain := Domain aDef;
                          Certificates := Certificates aDef ++ [certID] |}].
Proof.
  intros Hrun Hcalls.
  unfold generateStoreAndRegisterCertForAPIDef, generateServerCert,
    bind, call, ret in Hrun.
  simpl in Hrun. repeat inner_case Hrun; try discriminate.
  injection Hrun as <-. simpl in Hcalls.
  rewrite <- ?(assoc_L (++)) in Hcalls. apply new_calls in Hcalls. subst new.
  match goal with
  | H : (Domain ?d =? EmptyString)%string = false |- _ =>
      apply String.eqb_neq in H; exists d
  end.
  eexists _, _, _. cbn zeta. repeat split; done.
Qed.

(** X13.  The CA is never asked for a certificate without a host name:
    in every run of [generateStoreAndRegisterCertForAPIDef], with or
    without a certificate id of the caller's own, the host name of a
    [GenerateCert] call is not empty.  When the function is to issue the
    certificate itself (the caller gave no id) and the API definition has
    no domain, it returns the error of [generateServerCert] after the one
    call that fetched the definition. *)
Theorem no_certificate_without_a_domain (sid byoCert : string) (s s' : State)
    (r : option error) (new : list Call) :
  generateStoreAndRegisterCertForAPIDef sid byoCert s = Returned r s' →
  calls s' = calls s ++ new →
  (∀ hostname, CallGenerateCert hostname ∈ new → hostname ≠ EmptyString)
  ∧ (byoCert = EmptyString →
     ∀ apidef,
       (tyk_GetByObjectID sid (outside s)).1 = inr apidef →
       Domain apidef = EmptyString →
       r = Some "can't generate certificate: domain cannot be emtpy"
       ∧ new = [CallGetByObjectID sid]).
Proof.
  intros Hrun Hcalls.
  unfold generateStoreAndRegisterCertForAPIDef, generateServerCert,
    bind, call, ret in Hrun.
  destruct (String.eqb_spec byoCert EmptyString) as [->|Hbyo].
  - simpl in Hrun. repeat inner_case Hrun.
    all: injection Hrun as <- <-; simpl in Hcalls.
    all: rewrite <- ?(assoc_L (++)) in Hcalls; apply new_calls in Hcalls.
    all: subst new; split.
    all: try (intros _ apidef Hfound Hdomain; try discriminate Hfound;
              injection Hfound as <-;
              match goal with
              | H : (Domain _ =? EmptyString)%string = _ |- _ =>
                  rewrite Hdomain in H; try discriminate H
              end; done).
    all: intros hostname Hin.
    all: repeat (apply elem_of_cons in Hin as [Hin|Hin]; [try discriminate|]).
    all: try (by apply elem_of_nil in Hin).
    all: injection Hin as ->.
    all: match goal with
         | H : (_ =? EmptyString)%string = false |- _ => by apply String.eqb_neq in H
         end.
  - simpl in Hrun. repeat inner_case Hrun.
    all: injection Hrun as <- <-; simpl in Hcalls.
    all: rewrite <- ?(assoc_L (++)) in Hcalls; apply new_calls in Hcalls.
    all: subst new; split; [|done].
    all: intros hostname Hin.
    all: repeat (apply elem_of_cons in Hin as [Hin|Hin]; [try discriminate|]).
    all: by apply elem_of_nil in Hin.
Qed.

(** X14.  [handleMeshTLS] looks for the mesh-service-id only after the
    certificate of the inbound listener has been issued and registered:
    with mesh TLS enabled, an inbound id in the map and no mesh id, it
    returns the error about the missing mesh id in the state that the
    work for the inbound listener left. *)
Theorem handleMeshTLS_checks_mesh_id_late (ann : mapref) (s s1 : State)
    (ingressID : string) :
  EnableMeshTLS (SidecarConfig s) = true →
  deref (maps s) ann !! AdmissionWebhookAnnotationInboundServiceIDKey
  = Some ingressID →
  deref (maps s) ann !! AdmissionWebhookAnnotationMeshServiceIDKey = None →
  generateStoreAndRegisterCertForAPIDef ingressID EmptyString s
  = Returned None s1 →
  handleMeshTLS ann s
  = Returned (Some "can't generate server cert without an mesh API ID") s1.
Proof.
  intros Hon Hinbound Hmesh Hcert. unfold handleMeshTLS, bind, get, ret.
  rewrite Hon, Hinbound. cbn [negb]. rewrite Hcert.
  apply generateStoreAndRegisterCertForAPIDef_frame in Hcert as [-> _].
  by rewrite Hmesh.
Qed.

End CertificateProperties.

(** ** Sidecar assembly *)

Section AssemblyProperties.

Import injector.

Context {env : Collaborators}.

Lemma list_find_insert_same {A : Type} (P : A → Prop) `{!∀ x, Decision (P x)}
    (l : list A) (i : nat) (x y : A) :
  list_find P l = Some (i, x) → P y → list_find P (<[i := y]> l) = Some (i, y).
Proof.
  intros (Hi & _ & Hleast)%list_find_Some Hy. apply list_find_Some.
  split; [apply list_lookup_insert_eq; by eapply lookup_lt_Some|].
  split; [done|]. intros j z Hj Hlt.
  rewrite list_lookup_insert_ne in Hj by lia. by eapply Hleast.
Qed.

Lemma list_find_snoc {A : Type} (P : A → Prop) `{!∀ x, Decision (P x)}
    (l : list A) (y : A) :
  list_find P l = None → P y → list_find P (l ++ [y]) = Some (length l, y).
Proof.
  intros Hnone Hy. apply list_find_app_Some. right.
  split; [done|]. split; [done|]. rewrite Nat.sub_diag. simpl.
  by rewrite decide_True.
Qed.

(** [preProcessContainerTpl] with the tag variable of the pod named. *)
Lemma preProcessContainerTpl_eq (pod : Pod) :
  ∃ tagEnv,
    EnvVar_Name tagEnv = tagVarName
    ∧ ∀ containers,
        preProcessContainerTpl pod containers
        = match list_find (λ cnt, strings_ToLower (Container_Name cnt) = "tyk-mesh")
                  containers with
          | Some (i, cnt) =>
              <[i := {| Container_Name := Container_Name cnt; Image := Image cnt;
                        Env :=
                          match list_find (λ envVal, EnvVar_Name envVal = tagVarName)
                                  (Env cnt) with
                          | Some (ei, _) => <[ei := tagEnv]> (Env cnt)
                          | None => Env cnt ++ [tagEnv]
                          end;
                        VolumeMounts := VolumeMounts cnt |}]> containers
          | None => containers
          end.
Proof. eexists. split; [|reflexivity]. done. Qed.

(** X15.  Running [preProcessContainerTpl] for one pod and then for another
    on the same slice leaves what running it for the second pod alone
    leaves: the tag variable of the gateway container is replaced, not
    added a second time; in particular running it twice for one pod is
    running it once. *)
Theorem preProcessContainerTpl_last_pod_wins (first second : Pod)
    (containers : list Container) :
  preProcessContainerTpl second (preProcessContainerTpl first containers)
  = preProcessContainerTpl second containers.
Proof.
  destruct (preProcessContainerTpl_eq first) as (tag1 & Htag1 & ->).
  destruct (preProcessContainerTpl_eq second) as (tag2 & Htag2 & Hsecond).
  rewrite !Hsecond.
  destruct (list_find _ containers) as [[i cnt]|] eqn:Hfind; [|by rewrite Hfind].
  pose proof Hfind as (_ & Hname & _)%list_find_Some.
  erewrite list_find_insert_same; [|exact Hfind|exact Hname].
  rewrite list_insert_insert_eq. f_equal. cbn [Container_Name Image Env VolumeMounts].
  f_equal.
  destruct (list_find _ (Env cnt)) as [[ei envVal]|] eqn:Henv.
  - erewrite list_find_insert_same; [|exact Henv|done].
    by rewrite list_insert_insert_eq.
  - rewrite list_find_snoc by done.
    rewrite <- (Nat.add_0_r (length (Env cnt))). by rewrite insert_app_r.
Qed.


(** X17.  The patch [createPatch] builds for a pod has two operations: the
    replacement of the pod's spec and the addition of the annotation map
    it was given, as that map is when the function is called.  In the new
    spec the containers of the pod come first and the sidecar containers,
    tagged for this pod, after them; the init containers of the template
    follow those of the pod; the host alias of the mesh is added after
    the pod's; with mesh TLS every container has the certificate mount
    after its own mounts and the two certificate volumes follow the
    pod's volumes, without it mounts and volumes are as they were. *)
Theorem createPatch_pod_operations (pod : Pod) (annotations : mapref) (s : State) :
  let cfg := SidecarConfig s in
  let sidecars := preProcessContainerTpl pod (Config_Containers cfg) in
  let mounted (c : Container) :=
    if EnableMeshTLS cfg then
      {| Container_Name := Container_Name c; Image := Image c; Env := Env c;
         VolumeMounts :=
           VolumeMounts c
           ++ [{| VolumeMount_Name := "ssl-certs"; MountPath := "/etc/ssl/certs" |}] |}
    else c in
  let spec :=
    {| Containers := mounted <$> (Containers (Pod_Spec pod) ++ sidecars);
       InitContainers := InitContainers (Pod_Spec pod) ++ Config_InitContainers cfg;
       HostAliases :=
         HostAliases (Pod_Spec pod)
         ++ [{| IP := "127.0.0.1"; Hostnames := ["mesh"; "mesh.local"] |}];
       Volumes :=
         Volumes (Pod_Spec pod)
         ++ (if EnableMeshTLS cfg then
               [{| Volume_Name := "ca-pem"; Volume_Source := ConfigMap "ca-pem" |};
                {| Volume_Name := "ssl-certs"; Volume_Source := EmptyDir |}]
             else []) |} in
  ∃ s',
    createPatch (Some pod) None annotations s
    = Returned
        (json_Marshal
           [{| Op := "replace"; Path := "/spec"; Value := ValuePodSpec spec |};
            {| Op := "add"; Path := "/metadata/annotations";
               Value := ValueAnnotations (content (maps s) annotations) |}])
        s'
    ∧ maps s' = maps s ∧ outside s' = outside s ∧ calls s' = calls s.
Proof.
  intros cfg sidecars mounted spec. subst cfg sidecars mounted spec.
  unfold createPatch, bind, get, ret, store_Containers.
  cbn [SidecarConfig maps Config_InitContainers EnableMeshTLS].
  unfold injectCAVolume, addVolume, addInitContainer, addContainer, with_Containers.
  cbn [EnableMeshTLS].
  destruct (EnableMeshTLS (SidecarConfig s)); cbn; eexists.
  - by rewrite <- (assoc_L (++)).
  - by rewrite list_fmap_id, app_nil_r.
Qed.

End AssemblyProperties.

(** ** The dispatcher, further *)

Section DispatcherFurther.

Import injector.

Context {env : Collaborators}.

Lemma createPatch_frame (pod : option Pod) (svc : option Service)
    (annotations : mapref) (s s' : State) (r : error + PatchBytes) :
  createPatch pod svc annotations s = Returned r s' →
  maps s' = maps s ∧ outside s' = outside s ∧ calls s' = calls s.
Proof.
  unfold createPatch, bind, get, ret, store_Containers, panic. intros Hrun.
  destruct svc as [svc|]; [by injection Hrun as <- <-|].
  destruct pod as [pod|]; [by injection Hrun as <- <-|done].
Qed.

Lemma handleMeshTLS_disabled (ann : mapref) (s : State) :
  EnableMeshTLS (SidecarConfig s) = false →
  handleMeshTLS ann s = Returned None s.
Proof. intros Hoff. unfold handleMeshTLS, bind, get, ret. by rewrite Hoff. Qed.

(** X18.  Admitting a service never leaves the process: whatever
    [processServiceMutations] answers, it has called neither the gateway
    nor the CA, and the sidecar configuration is as it was. *)
Theorem services_make_no_calls (ar : AdmissionReview) (s s' : State)
    (resp : AdmissionResponse) :
  processServiceMutations ar s = Returned resp s' →
  calls s' = calls s ∧ outside s' = outside s ∧ SidecarConfig s' = SidecarConfig s.
Proof.
  intros Hrun. unfold processServiceMutations in Hrun.
  destruct (json_Unmarshal_Service _) as [err|[svc text]]; [by injection Hrun as <- <-|].
  unfold bind, alloc, get, ret, map_assign, map_delete, createPatch in Hrun.
  destruct text as [text|]; simpl in Hrun.
  - destruct (mutationRequired _ _ _); simpl in Hrun.
    + destruct (json_Marshal _); by injection Hrun as <- <-.
    + by injection Hrun as <- <-.
  - rewrite mutationRequired_nil in Hrun by done. by injection Hrun as <- <-.
Qed.

(** X19.  With route creation and mesh TLS both switched off, admitting a
    pod makes no call to the gateway or the CA, whatever the answer. *)
Theorem pods_make_no_calls_without_routes_and_TLS (ar : AdmissionReview)
    (s s' : State) (resp : AdmissionResponse) :
  CreateRoutes (SidecarConfig s) = false →
  EnableMeshTLS (SidecarConfig s) = false →
  processPodMutations ar s = Returned resp s' →
  calls s' = calls s ∧ outside s' = outside s.
Proof.
  intros Hroutes Htls Hrun. unfold processPodMutations in Hrun.
  destruct (json_Unmarshal_Pod _) as [err|[pod text]]; [by injection Hrun as <- <-|].
  unfold bind, alloc, get, ret, map_assign, map_delete in Hrun.
  destruct text as [text|]; simpl in Hrun.
  - destruct (mutationRequired _ _ _); simpl in Hrun.
    + rewrite Hroutes in Hrun. rewrite handleMeshTLS_disabled in Hrun by done.
      unfold createPatch, bind, get, ret, store_Containers in Hrun.
      simpl in Hrun. destruct (json_Marshal _); by injection Hrun as <- <-.
    + by injection Hrun as <- <-.
  - rewrite mutationRequired_nil in Hrun by done. by injection Hrun as <- <-.
Qed.

(** What the policy asks for a pod whose annotations are [annotations]:
    [mutationRequired] is true exactly when the namespace is not ignored,
    the status is not "injected" and the inject annotation is one of the
    four spellings of yes. *)
Lemma mutationRequired_asks (h : gmap loc (gmap string string)) (r : mapref)
    (metadata : ObjectMeta) (annotations : gmap string string) :
  deref h r = annotations →
  (mutationRequired h ignoredNamespaces (with_Annotations metadata r) = true
   ↔ (Namespace metadata ∉ ignoredNamespaces)
     ∧ strings_ToLower (at_key annotations AdmissionWebhookAnnotationStatusKey)
       ≠ "injected"
     ∧ strings_ToLower (at_key annotations AdmissionWebhookAnnotationInjectKey)
       ∈ ["y"; "yes"; "true"; "on"]).
Proof.
  intros Hr. unfold mutationRequired.
  cbn [Namespace Annotations with_Annotations]. rewrite Hr.
  destruct (existsb _ _) eqn:Hns.
  { apply existsb_eqb_elem_of in Hns. split; [done|]. by intros [? _]. }
  assert (Namespace metadata ∉ ignoredNamespaces) as Hnot.
  { intros Hin. apply existsb_eqb_elem_of in Hin. congruence. }
  destruct (String.eqb_spec
              (strings_ToLower (at_key annotations AdmissionWebhookAnnotationStatusKey))
              "injected") as [Hst|Hst].
  { split; [done|]. by intros (_ & ? & _). }
  rewrite truthy_spec. tauto.
Qed.

(** X20.  With route creation switched on, a pod without an [app] label
    and without an inbound-service-id is never patched: when the policy
    asks for its injection (its namespace is not ignored, its status is
    not "injected" and its inject annotation is one of y, yes, true, on)
    it is refused with "app label is required", and otherwise it is
    passed through; either way no call is made and the sidecar
    configuration is untouched. *)
Theorem pod_without_app_label_is_not_patched (ar : AdmissionReview)
    (s : State) (pod : Pod) (text : option (gmap string string)) :
  let annotations := default ∅ text in
  let asked :=
    (Namespace (Pod_ObjectMeta pod) ∉ ignoredNamespaces)
    ∧ strings_ToLower (at_key annotations AdmissionWebhookAnnotationStatusKey)
      ≠ "injected"
    ∧ strings_ToLower (at_key annotations AdmissionWebhookAnnotationInjectKey)
      ∈ ["y"; "yes"; "true"; "on"] in
  CreateRoutes (SidecarConfig s) = true →
  json_Unmarshal_Pod (Object_Raw (Request ar)) = inr (pod, text) →
  Labels (Pod_ObjectMeta pod) !! "app" = None →
  annotations !! AdmissionWebhookAnnotationInboundServiceIDKey = None →
  ∃ resp s',
    processPodMutations ar s = Returned resp s'
    ∧ (asked → resp = refused "app label is required")
    ∧ (¬ asked → resp = passed)
    ∧ calls s' = calls s ∧ outside s' = outside s
    ∧ SidecarConfig s' = SidecarConfig s.
Proof.
  intros annotations asked Hroutes Hdec Hlabel Hnone. subst asked annotations.
  unfold processPodMutations. rewrite Hdec.
  unfold bind, alloc, get, ret, map_assign, map_delete.
  destruct text as [text|]; simpl in *.
  - destruct (mutationRequired _ _ _) eqn:Hreq; simpl.
    + apply mutationRequired_asks with (annotations := text) in Hreq;
        [|by simpl; rewrite lookup_insert_eq].
      rewrite Hroutes.
      unfold createServiceRoutes, bind, get, ret. simpl.
      rewrite !lookup_insert_eq. simpl.
      rewrite lookup_delete_ne, lookup_insert_ne, Hnone, Hlabel by done.
      eexists _, _. split; [reflexivity|]. by repeat split.
    + eexists _, _. split; [reflexivity|]. repeat split; try done.
      intros Hasked. exfalso.
      match type of Hreq with
      | mutationRequired ?h _ (with_Annotations ?m ?r) = _ =>
          pose proof (proj2 (mutationRequired_asks h r m text
                               ltac:(by simpl; rewrite lookup_insert_eq)) Hasked)
      end.
      congruence.
  - rewrite mutationRequired_nil by done. simpl.
    eexists _, _. split; [reflexivity|]. repeat split; try done.
    intros Hasked. exfalso.
    pose proof (proj2 (mutationRequired_asks (maps s) None (Pod_ObjectMeta pod) ∅
                         eq_refl) Hasked) as Htrue.
    by rewrite mutationRequired_nil in Htrue.
Qed.

(** X21.  With mesh TLS switched on and route creation off, a pod whose
    annotations carry no inbound-service-id is never patched: when the
    policy asks for its injection it is refused, because no certificate
    can be issued without that id, and otherwise it is passed through;
    either way nothing has been called and the sidecar configuration is
    untouched. *)
Theorem TLS_without_routes_is_refused (ar : AdmissionReview) (s : State)
    (pod : Pod) (text : option (gmap string string)) :
  let annotations := default ∅ text in
  let asked :=
    (Namespace (Pod_ObjectMeta pod) ∉ ignoredNamespaces)
    ∧ strings_ToLower (at_key annotations AdmissionWebhookAnnotationStatusKey)
      ≠ "injected"
    ∧ strings_ToLower (at_key annotations AdmissionWebhookAnnotationInjectKey)
      ∈ ["y"; "yes"; "true"; "on"] in
  CreateRoutes (SidecarConfig s) = false →
  EnableMeshTLS (SidecarConfig s) = true →
  json_Unmarshal_Pod (Object_Raw (Request ar)) = inr (pod, text) →
  annotations !! AdmissionWebhookAnnotationInboundServiceIDKey = None →
  ∃ resp s',
    processPodMutations ar s = Returned resp s'
    ∧ (asked →
       resp = refused "can't generate server cert without an inbound API ID")
    ∧ (¬ asked → resp = passed)
    ∧ calls s' = calls s ∧ outside s' = outside s
    ∧ SidecarConfig s' = SidecarConfig s.
Proof.
  intros annotations asked Hroutes Htls Hdec Hnone. subst asked annotations.
  unfold processPodMutations. rewrite Hdec.
  unfold bind, alloc, get, ret, map_assign, map_delete.
  destruct text as [text|]; simpl in *.
  - destruct (mutationRequired _ _ _) eqn:Hreq; simpl.
    + apply mutationRequired_asks with (annotations := text) in Hreq;
        [|by simpl; rewrite lookup_insert_eq].
      rewrite Hroutes.
      unfold handleMeshTLS, bind, get, ret. simpl. rewrite Htls. simpl.
      rewrite !lookup_insert_eq. simpl.
      rewrite lookup_delete_ne, lookup_insert_ne, Hnone by done.
      eexists _, _. split; [reflexivity|]. by repeat split.
    + eexists _, _. split; [reflexivity|]. repeat split; try done.
      intros Hasked. exfalso.
      match type of Hreq with
      | mutationRequired ?h _ (with_Annotations ?m ?r) = _ =>
          pose proof (proj2 (mutationRequired_asks h r m text
                               ltac:(by simpl; rewrite lookup_insert_eq)) Hasked)
      end.
      congruence.
  - rewrite mutationRequired_nil by done. simpl.
    eexists _, _. split; [reflexivity|]. repeat split; try done.
    intros Hasked. exfalso.
    pose proof (proj2 (mutationRequired_asks (maps s) None (Pod_ObjectMeta pod) ∅
                         eq_refl) Hasked) as Htrue.
    by rewrite mutationRequired_nil in Htrue.
Qed.

Lemma bind_Returned {A B : Type} (m : M A) (k : A → M B) (s s' : State) (b : B) :
  bind m k s = Returned b s' →
  ∃ a s1, m s = Returned a s1 ∧ k a s1 = Returned b s'.
Proof.
  unfold bind. destruct (m s) as [a s1|reason]; [eauto|discriminate].
Qed.

Lemma createServiceRoutes_success_has_inbound_id (pod : Pod)
    (annotations r : mapref) (namespace : string) (tls : bool) (s s' : State) :
  createServiceRoutes pod annotations namespace tls s = Returned (r, None) s' →
  is_Some (deref (maps s') annotations
             !! AdmissionWebhookAnnotationInboundServiceIDKey).
Proof.
  intros Hrun.
  unfold createServiceRoutes, bind, get, call, ret, map_assign in Hrun.
  simpl in Hrun. repeat inner_case Hrun; try discriminate.
  all: injection Hrun as <- <-; simpl.
  all: rewrite ?lookup_insert_eq; simpl.
  all: rewrite ?lookup_insert_ne by done.
  all: rewrite ?lookup_insert_eq; simpl.
  all: rewrite ?lookup_insert_eq; eauto.
Qed.

Lemma handleMeshTLS_enabled_success (ann : mapref) (s s' : State) :
  EnableMeshTLS (SidecarConfig s) = true →
  handleMeshTLS ann s = Returned None s' →
  is_Some (deref (maps s) ann !! AdmissionWebhookAnnotationInboundServiceIDKey)
  ∧ is_Some (deref (maps s) ann !! AdmissionWebhookAnnotationMeshServiceIDKey).
Proof.
  intros Hon Hrun. unfold handleMeshTLS, bind, get, ret in Hrun.
  rewrite Hon in Hrun. cbn [negb] in Hrun.
  destruct (deref _ _ !! _) as [ingressID|]; [|discriminate].
  destruct (generateStoreAndRegisterCertForAPIDef ingressID _ s)
    as [[e|] s1|] eqn:Hin; [discriminate| |discriminate].
  apply generateStoreAndRegisterCertForAPIDef_frame in Hin as [Hm Hc].
  rewrite Hm in Hrun.
  destruct (deref _ _ !! _) as [meshID|]; [eauto|discriminate].
Qed.

(** X22.  When [processPodMutations] answers with a patch, the patch is
    the encoding of two operations, the replacement of the spec and the
    addition of the annotations, and the annotations added are those of
    the pod with the status "injected" and without the inject key; a key
    other than these two and the two service ids is as the pod had it;
    with route creation on, the inbound-service-id is among them, and
    with mesh TLS on, both service ids are. *)
Theorem patched_pod_is_marked_injected (ar : AdmissionReview) (s s' : State)
    (resp : AdmissionResponse) (bytes : PatchBytes) :
  processPodMutations ar s = Returned resp s' →
  Patch resp = Some bytes →
  ∃ pod text spec m,
    json_Unmarshal_Pod (Object_Raw (Request ar)) = inr (pod, Some text)
    ∧ json_Marshal
        [{| Op := "replace"; Path := "/spec"; Value := ValuePodSpec spec |};
         {| Op := "add"; Path := "/metadata/annotations";
            Value := ValueAnnotations (Some m) |}]
      = inr bytes
    ∧ m !! AdmissionWebhookAnnotationStatusKey = Some "injected"
    ∧ m !! AdmissionWebhookAnnotationInjectKey = None
    ∧ (∀ k, k ≠ AdmissionWebhookAnnotationStatusKey →
            k ≠ AdmissionWebhookAnnotationInjectKey →
            k ≠ AdmissionWebhookAnnotationInboundServiceIDKey →
            k ≠ AdmissionWebhookAnnotationMeshServiceIDKey →
            m !! k = text !! k)
    ∧ (CreateRoutes (SidecarConfig s) = true →
       is_Some (m !! AdmissionWebhookAnnotationInboundServiceIDKey))
    ∧ (EnableMeshTLS (SidecarConfig s) = true →
       is_Some (m !! AdmissionWebhookAnnotationInboundServiceIDKey)
       ∧ is_Some (m !! AdmissionWebhookAnnotationMeshServiceIDKey)).
Proof.
  intros Hrun Hpatch. unfold processPodMutations in Hrun.
  destruct (json_Unmarshal_Pod _) as [err|[pod text]] eqn:Hdec.
  { injection Hrun as <- <-. discriminate. }
  apply bind_Returned in Hrun as (r & s1 & Halloc & Hrun).
  apply bind_Returned in Hrun as (? & ? & [= <- <-] & Hrun).
  destruct (mutationRequired _ _ _) eqn:Hreq; cbn [negb] in Hrun;
    [|injection Hrun as <- <-; discriminate].
  destruct text as [text|];
    [|injection Halloc as <- <-; by rewrite mutationRequired_nil in Hreq].
  injection Halloc as <- <-. cbn [Pod_ObjectMeta with_Annotations Annotations] in Hrun.
  set (l := fresh (dom (maps s))) in *.
  apply bind_Returned in Hrun as ([] & s2 & [= <-] & Hrun).
  apply bind_Returned in Hrun as ([] & s3 & [= <-] & Hrun).
  apply bind_Returned in Hrun as ([r e] & s4 & Hroute & Hrun).
  match type of Hroute with _ ?st = _ => set (s3 := st) in * end.
  assert (deref (maps s3) (Some l)
          = delete AdmissionWebhookAnnotationInjectKey
              (<[AdmissionWebhookAnnotationStatusKey := "injected"]> text))
    as Hmarked.
  { subst s3. simpl. by rewrite !lookup_insert_eq. }
  assert (r = Some l ∧ SidecarConfig s4 = SidecarConfig s
          ∧ (∀ k, k ≠ AdmissionWebhookAnnotationInboundServiceIDKey →
                  k ≠ AdmissionWebhookAnnotationMeshServiceIDKey →
                  deref (maps s4) (Some l) !! k = deref (maps s3) (Some l) !! k)
          ∧ (CreateRoutes (SidecarConfig s) = true → e = None →
             is_Some (deref (maps s4) (Some l)
                        !! AdmissionWebhookAnnotationInboundServiceIDKey)))
    as (-> & Hcfg4 & Hkeys & Hinbound).
  { cbn [SidecarConfig with_maps] in Hroute.
    destruct (CreateRoutes (SidecarConfig s)).
    - destruct (createServiceRoutes_writes_ids_only _ _ _ _ _ _ _ Hroute)
        as (Href & Hcfg & Hkeys).
      split; [done|]. split; [done|]. split; [by intros; apply Hkeys|].
      intros _ ->. by eapply createServiceRoutes_success_has_inbound_id.
    - by injection Hroute as <- <- <-. }
  destruct e as [err|]; [injection Hrun as <- <-; discriminate|].
  apply bind_Returned in Hrun as (err & s5 & Htls & Hrun).
  destruct err as [err|]; [injection Hrun as <- <-; discriminate|].
  destruct (handleMeshTLS_frame _ _ _ _ Htls) as [Hm5 Hcfg5].
  apply bind_Returned in Hrun as (patchBytes & s6 & Hcreate & Hrun).
  destruct patchBytes as [err|patchBytes]; [injection Hrun as <- <-; discriminate|].
  injection Hrun as <- <-. injection Hpatch as ->.
  unfold createPatch, bind, get, ret, store_Containers in Hcreate.
  injection Hcreate as Hmarshal _. cbn [maps content fmap option_fmap option_map] in Hmarshal.
  eexists _, _, _, _. split; [done|]. split; [exact Hmarshal|].
  rewrite Hm5.
  split; [by rewrite Hkeys, Hmarked, lookup_delete_ne, lookup_insert_eq|].
  split; [by rewrite Hkeys, Hmarked, lookup_delete_eq|].
  split.
  { intros k Hstatus Hinject Hib Hmesh.
    by rewrite Hkeys, Hmarked, lookup_delete_ne, lookup_insert_ne. }
  split; [by intros Hroutes; apply Hinbound|].
  intros Hon. apply (handleMeshTLS_enabled_success (Some l) s4 s5); [|exact Htls].
  congruence.
Qed.

Lemma response_forms_pod (ar : AdmissionReview) (s s' : State)
    (resp : AdmissionResponse) :
  processPodMutations ar s = Returned resp s' →
  resp = passed ∨ (∃ message, resp = refused message)
  ∨ (∃ patchBytes, resp = patched patchBytes).
Proof.
  intros Hrun. unfold processPodMutations in Hrun.
  destruct (json_Unmarshal_Pod _) as [err|[pod text]];
    [injection Hrun as <- <-; eauto|].
  apply bind_Returned in Hrun as (r & s1 & _ & Hrun).
  apply bind_Returned in Hrun as (? & ? & _ & Hrun).
  destruct (negb _); [injection Hrun as <- <-; eauto|].
  apply bind_Returned in Hrun as ([] & s2 & _ & Hrun).
  apply bind_Returned in Hrun as ([] & s3 & _ & Hrun).
  apply bind_Returned in Hrun as ([r' [e|]] & s4 & _ & Hrun);
    [injection Hrun as <- <-; eauto|].
  apply bind_Returned in Hrun as ([e|] & s5 & _ & Hrun);
    [injection Hrun as <- <-; eauto|].
  apply bind_Returned in Hrun as ([e|patchBytes] & s6 & _ & Hrun);
    injection Hrun as <- <-; eauto.
Qed.

Lemma response_forms_service (ar : AdmissionReview) (s s' : State)
    (resp : AdmissionResponse) :
  processServiceMutations ar s = Returned resp s' →
  resp = passed ∨ (∃ message, resp = refused message)
  ∨ (∃ patchBytes, resp = patched patchBytes).
Proof.
  intros Hrun. unfold processServiceMutations in Hrun.
  destruct (json_Unmarshal_Service _) as [err|[svc text]];
    [injection Hrun as <- <-; eauto|].
  apply bind_Returned in Hrun as (r & s1 & _ & Hrun).
  apply bind_Returned in Hrun as (? & ? & _ & Hrun).
  destruct (negb _); [injection Hrun as <- <-; eauto|].
  apply bind_Returned in Hrun as ([] & s2 & _ & Hrun).
  apply bind_Returned in Hrun as ([] & s3 & _ & Hrun).
  apply bind_Returned in Hrun as ([e|patchBytes] & s6 & _ & Hrun);
    injection Hrun as <- <-; eauto.
Qed.

(** X23.  For every review that carries a request, which a review of
    this model always does, [mutate] returns, from every state, and its
    answer has one of three forms: allowed with nothing else, allowed
    with a patch of type JSONPatch, or not allowed with a message and no
    patch.  For a kind that is neither a pod nor a service, in any
    spelling of upper and lower case, the answer is the message "type not
    supported" and the state is left as it was.  (In Go a review may
    lack its request, and [mutate] then reads through a nil pointer; the
    model has that case in [Serve], where such a review comes from.) *)
Theorem mutate_answers (ar : AdmissionReview) (s : State) :
  ∃ resp s',
    mutate ar s = Returned resp s'
    ∧ (resp = passed ∨ (∃ message, resp = refused message)
       ∨ (∃ patchBytes, resp = patched patchBytes))
    ∧ (strings_ToLower (Kind_Kind (Request ar)) ≠ "pod" →
       strings_ToLower (Kind_Kind (Request ar)) ≠ "service" →
       resp = refused "type not supported" ∧ s' = s).
Proof.
  unfold mutate.
  destruct (String.eqb_spec (strings_ToLower (Kind_Kind (Request ar))) "pod")
    as [Hpod|Hpod].
  { destruct (returns_processPodMutations ar s) as (resp & s' & Hrun).
    exists resp, s'. split; [done|]. split; [|done].
    by eapply response_forms_pod. }
  destruct (String.eqb_spec (strings_ToLower (Kind_Kind (Request ar))) "service")
    as [Hsvc|Hsvc].
  { destruct (returns_processServiceMutations ar s) as (resp & s' & Hrun).
    exists resp, s'. split; [done|]. split; [|done].
    by eapply response_forms_service. }
  eexists _, _. split; [done|]. split; eauto.
Qed.

(** X24.  A pod the policy leaves alone is passed through: when its
    namespace is one of the ignored ones, or its status annotation reads
    "injected" in any case, or its inject annotation, lower-cased, is none
    of y, yes, true, on, [processPodMutations] answers with the bare
    [Allowed], makes no call, leaves the sidecar configuration as it was
    and writes no map that was in the store. *)
Theorem pod_outside_the_policy_is_passed (ar : AdmissionReview) (s : State)
    (pod : Pod) (text : option (gmap string string)) :
  let annotations := default ∅ text in
  json_Unmarshal_Pod (Object_Raw (Request ar)) = inr (pod, text) →
  Namespace (Pod_ObjectMeta pod) ∈ ignoredNamespaces
  ∨ strings_ToLower (at_key annotations AdmissionWebhookAnnotationStatusKey)
    = "injected"
  ∨ strings_ToLower (at_key annotations AdmissionWebhookAnnotationInjectKey)
    ∉ ["y"; "yes"; "true"; "on"] →
  ∃ s',
    processPodMutations ar s = Returned passed s'
    ∧ calls s' = calls s ∧ outside s' = outside s
    ∧ SidecarConfig s' = SidecarConfig s
    ∧ maps s ⊆ maps s'.
Proof.
  intros annotations Hdec Hpolicy. unfold processPodMutations.
  rewrite Hdec. unfold bind, alloc, get, ret.
  assert (∀ h r, deref h r = annotations →
            mutationRequired h ignoredNamespaces
              (with_Annotations (Pod_ObjectMeta pod) r) = false) as Hnot.
  { intros h r Hr. unfold mutationRequired.
    cbn [Namespace Annotations with_Annotations]. rewrite Hr.
    destruct (existsb _ _) eqn:Hns; [done|].
    destruct (String.eqb_spec
                (strings_ToLower (at_key annotations AdmissionWebhookAnnotationStatusKey))
                "injected") as [|Hstatus]; [done|].
    destruct Hpolicy as [Hin|[Hst|Hinject]]; [| done |].
    - apply existsb_eqb_elem_of in Hin. congruence.
    - apply not_true_is_false. by rewrite truthy_spec. }
  destruct text as [text|]; cbn [Pod_ObjectMeta].
  - rewrite Hnot; [|by cbn [maps with_maps deref]; rewrite lookup_insert_eq].
    eexists. split; [done|]. repeat split; [].
    cbn [maps with_maps]. apply insert_subseteq, not_elem_of_dom, is_fresh.
  - rewrite Hnot by done. eexists. by split.
Qed.

End DispatcherFurther.

(** ** The HTTP handler *)

Section HandlerProperties.

Import injector handler.

Context {env : Collaborators} {transport : Transport}.

Lemma returns_mutate (ar : AdmissionReview) (s : State) : returns (mutate ar) s.
Proof.
  unfold mutate. repeat first
    [ apply returns_processPodMutations | apply returns_processServiceMutations
    | returns_step ].
Qed.

(** The body [Serve] goes on with: the data read without an error. *)
Lemma body_read (r : HttpRequest) :
  let body := match Body r with Some (data, None) => data | _ => EmptyString end in
  (Go.len body =? 0)%nat = false →
  Body r = Some (body, None) ∧ body ≠ EmptyString.
Proof.
  intros body Hlen. subst body.
  destruct (Body r) as [[data [err|]]|]; try discriminate.
  split; [done|]. by intros ->.
Qed.

(** X25.  [Serve] changes the state of the webhook, or calls the gateway or
    the CA, only for a request whose body was read without error and is
    not empty, whose content type is [application/json], and whose body
    the deserializer decoded without error to a review with a request. *)
Theorem Serve_acts_on_reviews_only (w w' : ResponseWriter) (r : HttpRequest)
    (s s' : State) :
  Serve w r s = Returned w' s' →
  s' ≠ s →
  ∃ data req,
    Body r = Some (data, None) ∧ data ≠ EmptyString
    ∧ Header_Content_Type r = "application/json"
    ∧ deserializer_Decode data = (Some req, None).
Proof.
  intros Hrun Hchanged. unfold Serve in Hrun.
  destruct (Go.len _ =? 0)%nat eqn:Hlen; [by injection Hrun as <- <-|].
  apply body_read in Hlen as [Hbody Hdata].
  set (data := match Body r with Some (data, None) => data | _ => EmptyString end) in *.
  destruct (String.eqb_spec (Header_Content_Type r) "application/json")
    as [Htype|Htype]; [|by injection Hrun as <- <-].
  cbn [negb] in Hrun.
  apply bind_Returned in Hrun as (resp & s1 & Hmutate & Hrun).
  assert (s' = s1) as -> by (destruct (w_Write _ _).1; by injection Hrun as <- <-).
  destruct (deserializer_Decode data) as [[req|] [err|]] eqn:Hdecode;
    cbn [fst snd] in Hmutate.
  - by injection Hmutate as <- <-.
  - by exists data, req.
  - by injection Hmutate as <- <-.
  - discriminate.
Qed.

(** X26.  For a request with a readable, non-empty body of content type
    [application/json] that decodes to a review with a request, [Serve]
    returns, in the state [mutate] leaves for that review; it writes the
    encoding of the response of [mutate] under the [UID] of the request,
    and when the response cannot be encoded it sends the error and still
    writes, an empty body. *)
Theorem Serve_answers_the_request (w : ResponseWriter) (r : HttpRequest)
    (s : State) (data : string) (req : AdmissionRequest) :
  Body r = Some (data, None) →
  data ≠ EmptyString →
  Header_Content_Type r = "application/json" →
  deserializer_Decode data = (Some req, None) →
  ∃ resp s' w',
    mutate {| Request := req |} s = Returned resp s'
    ∧ Serve w r s = Returned w' s'
    ∧ match json_Marshal_Review {| Response := resp; Response_UID := UID req |} with
      | inr encoded =>
          w' = match (w_Write w encoded).1 with
               | Some err =>
                   http_Error (w_Write w encoded).2
                     ("could not write response: " +:+ err) 500
               | None => (w_Write w encoded).2
               end
      | inl err =>
          let sent := http_Error w ("could not encode response: " +:+ err) 500 in
          w' = match (w_Write sent EmptyString).1 with
               | Some err =>
                   http_Error (w_Write sent EmptyString).2
                     ("could not write response: " +:+ err) 500
               | None => (w_Write sent EmptyString).2
               end
      end.
Proof.
  intros Hbody Hdata Htype Hdecode.
  destruct (returns_mutate {| Request := req |} s) as (resp & s' & Hmutate).
  exists resp, s'. unfold Serve. rewrite Hbody, Htype, Hdecode.
  destruct data as [|c data]; [done|]. cbn [Go.len String.length Nat.eqb fst snd].
  cbn [String.eqb negb]. rewrite !Ascii.eqb_refl. cbn [negb].
  unfold bind. rewrite Hmutate.
  destruct (json_Marshal_Review _) as [err|encoded].
  - cbn zeta. destruct (w_Write _ _).1; eauto.
  - destruct (w_Write _ _).1; eauto.
Qed.

(** X27.  [Serve] panics in one case only, and [mutate] in none: the body
    is readable and not empty, the content type is [application/json],
    and the deserializer returns no error and leaves the review without a
    request, which [mutate] then reads through a nil pointer. *)
Theorem Serve_panics_without_a_request (w : ResponseWriter) (r : HttpRequest)
    (s : State) (reason : string) :
  Serve w r s = Panicked reason
  ↔ reason = "invalid memory address or nil pointer dereference"
    ∧ ∃ data,
        Body r = Some (data, None) ∧ data ≠ EmptyString
        ∧ Header_Content_Type r = "application/json"
        ∧ deserializer_Decode data = (None, None).
Proof.
  split.
  - intros Hrun. unfold Serve in Hrun.
    destruct (Go.len _ =? 0)%nat eqn:Hlen; [discriminate|].
    apply body_read in Hlen as [Hbody Hdata].
    set (data := match Body r with Some (data, None) => data | _ => EmptyString end) in *.
    destruct (String.eqb_spec (Header_Content_Type r) "application/json")
      as [Htype|Htype]; [|discriminate].
    cbn [negb] in Hrun. unfold bind in Hrun.
    destruct (deserializer_Decode data) as [[req|] [err|]] eqn:Hdecode;
      cbn [fst snd] in Hrun; unfold ret, panic in Hrun.
    + destruct (w_Write _ _).1; discriminate.
    + destruct (returns_mutate {| Request := req |} s) as (resp & s' & Hmutate).
      rewrite Hmutate in Hrun. destruct (w_Write _ _).1; discriminate.
    + destruct (w_Write _ _).1; discriminate.
    + injection Hrun as <-. split; [done|]. by exists data.
  - intros (-> & data & Hbody & Hdata & Htype & Hdecode).
    unfold Serve. rewrite Hbody, Htype, Hdecode.
    destruct data as [|c data]; [done|]. reflexivity.
Qed.

End HandlerProperties.

(** ** The web server *)

Section WebServerProperties.

Import webserver.

(** X28.  A server that was not started, configured with [Config] and then
    started, listens on the address of the configuration it was given,
    and on [:9797] when that address is empty or the configuration is
    nil, never on an empty address; it serves TLS, with the certificate
    and key of the configuration, exactly when the certificate file is
    set; and the configuration the caller passed holds the address
    used. *)
Theorem Config_then_Start_listens (s : loc) (cfg : option loc) (st : State)
    (ws : WebServer) (c : Config) :
  servers st !! s = Some ws →
  srv ws = None →
  match cfg with
  | Some l => configs st !! l = Some c
  | None => c = {| Addr := EmptyString; CertFile := EmptyString;
                   KeyFile := EmptyString |}
  end →
  let addr := if String.eqb (Addr c) EmptyString then ":9797" else Addr c in
  ∃ st1 st2,
    Config_ s cfg st = Returned tt st1
    ∧ Start s st1 = Returned tt st2
    ∧ addr ≠ EmptyString
    ∧ events st2
      = events st
        ++ [if String.eqb (CertFile c) EmptyString
            then ListenAndServe addr
            else ListenAndServeTLS addr (CertFile c) (KeyFile c)]
    ∧ (∀ l, cfg = Some l →
         configs st2 !! l
         = Some {| Addr := addr; CertFile := CertFile c; KeyFile := KeyFile c |}).
Proof.
  intros Hs Hsrv Hcfg addr. subst addr. unfold Config_, Start.
  destruct cfg as [l|].
  - rewrite Hcfg. destruct (String.eqb_spec (Addr c) EmptyString) as [Hempty|Hset].
    + cbn. rewrite Hs. eexists _, _. split; [reflexivity|]. cbn.
      rewrite !lookup_insert_eq. cbn. rewrite Hsrv, lookup_insert_eq.
      split; [reflexivity|]. cbn. split; [done|]. split; [done|].
      intros ? [= <-]. by rewrite lookup_insert_eq.
    + rewrite Hs. eexists _, _. split; [reflexivity|]. cbn.
      rewrite lookup_insert_eq. cbn. rewrite Hsrv, Hcfg.
      split; [reflexivity|]. cbn. split; [done|]. split; [done|].
      intros ? [= <-]. rewrite Hcfg. by destruct c.
  - subst c. cbn. rewrite lookup_insert_eq. cbn. rewrite Hs.
    eexists _, _. split; [reflexivity|]. cbn.
    rewrite !lookup_insert_eq. cbn. rewrite Hsrv, lookup_insert_eq.
    split; [reflexivity|]. by cbn.
Qed.

(** X29.  A started server is not started again: a second [Start] makes no
    call and changes nothing, and neither does a [Start] after [Stop],
    which leaves the [*http.Server] in place. *)
Theorem Start_is_not_repeated (s : loc) (st st1 st2 : State)
    (shutdown r : option string) :
  Start s st = Returned tt st1 →
  Stop s shutdown st1 = Returned r st2 →
  Start s st1 = Returned tt st1
  ∧ r = shutdown
  ∧ Start s st2 = Returned tt st2
  ∧ (∃ listened, events st2 = events st ++ listened ++ [Shutdown]
                 ∧ (length listened ≤ 1)%nat).
Proof.
  unfold Start, Stop. intros Hstart Hstop.
  destruct (servers st !! s) as [ws|] eqn:Hs; [|discriminate].
  destruct (srv ws) as [started|] eqn:Hsrv.
  - injection Hstart as <-. rewrite Hs, Hsrv in *. injection Hstop as <- <-.
    cbn. rewrite Hs, Hsrv. repeat split. exists []. split; [done|simpl; lia].
  - destruct (cfg ws ≫= _) as [c|]; [|discriminate].
    injection Hstart as <-. cbn in *. rewrite lookup_insert_eq in *. cbn in *.
    injection Hstop as <- <-. cbn. rewrite lookup_insert_eq. cbn.
    repeat split. eexists [_]. split; [|simpl; lia]. by rewrite <- (assoc_L (++)).
Qed.

(** X30.  The server that [Server] creates has no configuration: until
    [Config] is called on it, [Start] panics on the nil pointer; a second
    call of [Server] returns the same server and creates none. *)
Theorem Server_needs_Config (st : State) :
  server st = None →
  ∃ s st1,
    Server st = Returned s st1
    ∧ Server st1 = Returned s st1
    ∧ Start s st1 = Panicked nil_dereference
    ∧ events st1 = events st.
Proof.
  intros Hnone. unfold Server, newServer. rewrite Hnone. eexists _, _.
  split; [done|]. cbn. split; [done|]. unfold Start. cbn.
  rewrite lookup_insert_eq. by cbn.
Qed.

End WebServerProperties.

(** ** The further properties on the examples *)

Section ProcessorFurtherExamples.

Import JSON processor.

Lemma Process_skips_other_keys_witness :
  @Process golib [("app", "orders"); ("injector.tyk.io/inject", "true")]
    empty_object
  = (empty_object, None).
Proof.
  apply (@Process_skips_other_keys golib). intros k v Hin.
  repeat (apply elem_of_cons in Hin as [[= -> ->]|Hin]; [by vm_compute|]).
  by apply elem_of_nil in Hin.
Defined.

Lemma visit_writes_once_witness :
  @visit golib "string.service.tyk.io/proxy.target-url" "http://orders" empty_object
  = sjson.Set' empty_object "proxy.target_url" (Str "http://orders")
  ∧ @visit golib "bool.service.tyk.io/use-keyless" "TRUE" empty_object
    = sjson.Set' empty_object "use_keyless" (Bool true)
  ∧ @visit golib "num.service.tyk.io/cache-timeout" "60" empty_object
    = sjson.Set' empty_object "cache_timeout" (Number "60")
  ∧ @visit golib "object.service.tyk.io/version-data" "{}" empty_object
    = sjson.Set' empty_object "version_data" (Object [])
  ∧ @visit golib "array.service.tyk.io/tags" "[]" empty_object
    = sjson.Set' empty_object "tags" (Array []).
Proof.
  split.
  { destruct (@visit_writes_once golib "proxy.target-url" "http://orders"
                empty_object) as (Hstring & _).
    exact Hstring. }
  split.
  { destruct (@visit_writes_once golib "use-keyless" "TRUE" empty_object)
      as (_ & Hbool & _).
    apply (Hbool true). reflexivity. }
  split.
  { destruct (@visit_writes_once golib "cache-timeout" "60" empty_object)
      as (_ & _ & Hnum & _).
    apply (Hnum 60). reflexivity. }
  split.
  { destruct (@visit_writes_once golib "version-data" "{}" empty_object)
      as (_ & _ & _ & Hobject & _).
    apply Hobject. reflexivity. }
  destruct (@visit_writes_once golib "tags" "[]" empty_object)
    as (_ & _ & _ & _ & Harray).
  apply Harray. reflexivity.
Defined.


Lemma Process_in_batches_witness :
  @Process golib two_entries empty_object
  = @Process golib [("bool.service.tyk.io/use-keyless", "maybe")]
      (Object [("proxy", Object [("target_url", Str "http://orders")])])
  ∧ @Process golib (num_then_bool ++ two_entries) empty_object
    = (empty_object, Some (Go.NumError "Atoi" "x" Go.ErrSyntax)).
Proof.
  split.
  - destruct (@Process_in_batches golib
                [("string.service.tyk.io/proxy.target-url", "http://orders")]
                [("bool.service.tyk.io/use-keyless", "maybe")] empty_object
                (Object [("proxy", Object [("target_url", Str "http://orders")])]))
      as [Hpass _].
    apply Hpass. reflexivity.
  - destruct (@Process_in_batches golib num_then_bool two_entries empty_object
                empty_object) as [_ Hfail].
    apply Hfail. reflexivity.
Defined.

End ProcessorFurtherExamples.

Section RegistrationFurtherExamples.

Import injector standin inputs.

#[local] Existing Instance collaborators.

(** The first admission of the pod of [orders] registers both routes. *)
Lemma first_admission_registers :
  createServiceRoutes orders_pod (Some 1%positive) "shop" false first_admission
  = Returned (Some 1%positive, None)
      (after (createServiceRoutes orders_pod (Some 1%positive) "shop" false
                first_admission) first_admission).
Proof. vm_compute. reflexivity. Qed.

Lemma createServiceRoutes_records_both_ids_witness :
  ∃ s',
    createServiceRoutes orders_pod (Some 1%positive) "shop" false first_admission
    = Returned (Some 1%positive, None) s'
    ∧ maps s'
      = <[1%positive :=
            <[AdmissionWebhookAnnotationMeshServiceIDKey := "id-orders-mesh"]>
              (<[AdmissionWebhookAnnotationInboundServiceIDKey := "id-orders-inbound"]>
                 (deref (maps first_admission) (Some 1%positive)))]>
          (maps first_admission)
    ∧ outside s' = both_registered
    ∧ SidecarConfig s' = SidecarConfig first_admission.
Proof.
  apply (createServiceRoutes_records_both_ids orders_pod 1%positive "shop" false
           first_admission "orders" "id-orders-inbound" "id-orders-mesh"
           (inl "not found") (inl "not found") fresh_world
           {| registered := [("orders-inbound", "id-orders-inbound")];
              unavailable := [] |}
           {| registered := [("orders-inbound", "id-orders-inbound")];
              unavailable := [] |}
           both_registered); by vm_compute.
Defined.

Lemma createServiceRoutes_frame_witness :
  ∃ s',
    createServiceRoutes orders_pod (Some 1%positive) "shop" false first_admission
    = Returned (Some 1%positive, None) s'
    ∧ SidecarConfig s' = SidecarConfig first_admission
    ∧ deref (maps s') (Some 1%positive) !! admissionWebhookAnnotationRouteKey
      = Some "/orders-api"
    ∧ maps s' !! 2%positive = None.
Proof.
  eexists. split; [exact first_admission_registers|].
  destruct (createServiceRoutes_frame _ _ _ _ _ _ _ first_admission_registers)
    as (_ & Hcfg & Hkeys & Hmaps).
  split; [exact Hcfg|]. split.
  - etrans; [apply Hkeys; done|]. by vm_compute.
  - etrans; [apply Hmaps; done|]. by vm_compute.
Defined.

Lemma createServiceRoutes_looks_up_before_creating_witness :
  ∃ s' new,
    createServiceRoutes orders_pod (Some 1%positive) "shop" false first_admission
    = Returned (Some 1%positive, None) s'
    ∧ calls s' = calls first_admission ++ new
    ∧ (length new ≤ 4)%nat
    ∧ (∀ c, c ∈ new →
         (∃ slug, c = CallGetBySlug slug) ∨ (∃ opts, c = CallCreateService opts))
    ∧ (∀ opts, CallCreateService opts ∈ new →
         ∃ before after,
           new = before ++ [CallGetBySlug (Slug opts); CallCreateService opts]
                 ++ after).
Proof.
  eexists _, _. split; [exact first_admission_registers|].
  split; [reflexivity|].
  exact (createServiceRoutes_looks_up_before_creating _ _ _ _ _ _ _ _
           first_admission_registers eq_refl).
Defined.

Lemma createServiceRoutes_inbound_creation_fails_witness :
  ∃ s',
    createServiceRoutes orders_pod (Some 1%positive) "shop" false inbound_down
    = Returned
        (Some 1%positive,
         Some "failed to create inbound service orders-inbound: gateway unavailable")
        s'
    ∧ maps s' = maps inbound_down
    ∧ length (calls s') = 2%nat.
Proof.
  eexists. split.
  - apply (createServiceRoutes_inbound_creation_fails orders_pod
             (Some 1%positive) "shop" false inbound_down "orders" "not found"
             "gateway unavailable" inbound_unavailable inbound_unavailable);
      by vm_compute.
  - by split.
Defined.

Lemma createServiceRoutes_nil_map_panics_witness :
  createServiceRoutes orders_pod None "shop" false first_admission
  = Panicked "assignment to entry in nil map".
Proof.
  apply (createServiceRoutes_nil_map_panics orders_pod "shop" false
           first_admission "orders" "id-orders-inbound" (inl "not found")
           fresh_world
           {| registered := [("orders-inbound", "id-orders-inbound")];
              unavailable := [] |}); by vm_compute.
Defined.

End RegistrationFurtherExamples.

Section CertificateExamples.

Import injector standin inputs.

#[local] Existing Instance collaborators.

(** Mesh TLS for a pod with an inbound id and no mesh id. *)
Lemma inbound_certificate_issued :
  generateStoreAndRegisterCertForAPIDef "id-orders-inbound" EmptyString
    inbound_id_only
  = Returned None
      (after (generateStoreAndRegisterCertForAPIDef "id-orders-inbound"
                EmptyString inbound_id_only) inbound_id_only).
Proof. vm_compute. reflexivity. Qed.

Lemma handleMeshTLS_checks_mesh_id_late_witness :
  ∃ s1,
    handleMeshTLS (Some 1%positive) inbound_id_only
    = Returned (Some "can't generate server cert without an mesh API ID") s1
    ∧ length (calls s1) = 6%nat.
Proof.
  eexists. split.
  - apply (handleMeshTLS_checks_mesh_id_late (Some 1%positive) inbound_id_only _
             "id-orders-inbound"); [reflexivity|by vm_compute..|].
    exact inbound_certificate_issued.
  - by vm_compute.
Defined.

Lemma handleMeshTLS_writes_nothing_witness :
  handleMeshTLS (Some 1%positive) registered_before
  = Returned None registered_before
  ∧ ∃ s',
      handleMeshTLS (Some 1%positive) inbound_id_only
      = Returned (Some "can't generate server cert without an mesh API ID") s'
      ∧ maps s' = maps inbound_id_only
      ∧ SidecarConfig s' = SidecarConfig inbound_id_only.
Proof.
  split.
  - destruct (handleMeshTLS_writes_nothing (Some 1%positive) registered_before)
      as [_ Hoff].
    apply Hoff. reflexivity.
  - destruct (handleMeshTLS_writes_nothing (Some 1%positive) inbound_id_only)
      as [Hframe _].
    assert (handleMeshTLS (Some 1%positive) inbound_id_only
            = Returned (Some "can't generate server cert without an mesh API ID")
                (after (handleMeshTLS (Some 1%positive) inbound_id_only)
                   inbound_id_only)) as Hrun by (vm_compute; reflexivity).
    eexists. split; [exact Hrun|]. exact (Hframe _ _ Hrun).
Defined.

Lemma byoCert_is_registered_as_given_witness :
  ∃ s' new,
    generateStoreAndRegisterCertForAPIDef "id-orders-mesh"
      "5e9d9544a1dcd60001d0ed20" registered_gateway
    = Returned None s'
    ∧ calls s' = calls registered_gateway ++ new
    ∧ new
      = [CallGetByObjectID "id-orders-mesh";
         CallUpdateAPI {| Id_Hex := "id-orders-mesh"; Domain := "orders-mesh.local";
                          Certificates := ["5e9d9544a1dcd60001d0ed20"] |}].
Proof.
  assert (generateStoreAndRegisterCertForAPIDef "id-orders-mesh"
            "5e9d9544a1dcd60001d0ed20" registered_gateway
          = Returned None
              (after (generateStoreAndRegisterCertForAPIDef "id-orders-mesh"
                        "5e9d9544a1dcd60001d0ed20" registered_gateway)
                 registered_gateway)) as Hrun by (vm_compute; reflexivity).
  eexists _, _. split; [exact Hrun|]. split; [reflexivity|].
  exact (byoCert_is_registered_as_given "id-orders-mesh"
           "5e9d9544a1dcd60001d0ed20" registered_gateway _ _ _
           ltac:(discriminate) Hrun eq_refl).
Defined.

Lemma issued_certificate_is_registered_witness :
  ∃ s' new,
    generateStoreAndRegisterCertForAPIDef "id-orders-inbound" EmptyString
      inbound_id_only
    = Returned None s'
    ∧ calls s' = calls inbound_id_only ++ new
    ∧ length new = 6%nat.
Proof.
  pose proof inbound_certificate_issued as Hrun.
  set (s' := after _ _) in Hrun.
  destruct (issued_certificate_is_registered _ _ s' (calls s') Hrun eq_refl)
    as (apidef & aDef & bdl & certID & _ & _ & _ & _ & _ & _ & Hnew).
  exists s', (calls s'). split; [exact Hrun|].
  split; [reflexivity|]. by rewrite Hnew.
Defined.

End CertificateExamples.

Section NoDomainExamples.

Import injector standin inputs.

#[local] Existing Instance no_domain.

Lemma no_certificate_without_a_domain_witness :
  ∃ s' new,
    generateStoreAndRegisterCertForAPIDef "id-orders-inbound" EmptyString
      started_without_domains
    = Returned (Some "can't generate certificate: domain cannot be emtpy") s'
    ∧ calls s' = calls started_without_domains ++ new
    ∧ new = [CallGetByObjectID "id-orders-inbound"]
    ∧ ∀ hostname, CallGenerateCert hostname ∈ new → hostname ≠ EmptyString.
Proof.
  assert (generateStoreAndRegisterCertForAPIDef "id-orders-inbound" EmptyString
            started_without_domains
          = Returned (Some "can't generate certificate: domain cannot be emtpy")
              (after (generateStoreAndRegisterCertForAPIDef "id-orders-inbound"
                        EmptyString started_without_domains)
                 started_without_domains)) as Hrun by (vm_compute; reflexivity).
  eexists _, _. split; [exact Hrun|]. split; [reflexivity|].
  destruct (no_certificate_without_a_domain _ _ _ _ _ _ Hrun eq_refl)
    as [Hhost Hdomain].
  destruct (Hdomain eq_refl
              {| Id_Hex := "id-orders-inbound"; Domain := EmptyString;
                 Certificates := [] |}) as [_ Hnew]; [reflexivity..|].
  split; [exact Hnew|]. exact Hhost.
Defined.

End NoDomainExamples.

Section DispatcherFurtherExamples.

Import injector standin inputs.

#[local] Existing Instance collaborators.

(** The pod of [orders] is admitted by a webhook that creates no routes
    and issues no certificates. *)
Lemma orders_pod_admitted :
  processPodMutations admit_orders_pod started
  = Returned (answer (processPodMutations admit_orders_pod started) passed)
      (after (processPodMutations admit_orders_pod started) started).
Proof. vm_compute. reflexivity. Qed.

Lemma orders_pod_patch :
  Patch (answer (processPodMutations admit_orders_pod started) passed)
  = Some (default [] (Patch (answer (processPodMutations admit_orders_pod started)
                               passed))).
Proof. vm_compute. reflexivity. Qed.

Lemma mutate_answers_witness :
  ∃ resp s',
    mutate admit_deployment started = Returned resp s'
    ∧ resp = refused "type not supported" ∧ s' = started.
Proof.
  destruct (mutate_answers admit_deployment started)
    as (resp & s' & Hrun & _ & Hkind).
  exists resp, s'. split; [exact Hrun|]. apply Hkind; by vm_compute.
Defined.

Lemma pod_outside_the_policy_is_passed_witness :
  ∃ s',
    processPodMutations admit_system_pod started = Returned passed s'
    ∧ calls s' = calls started ∧ outside s' = outside started
    ∧ SidecarConfig s' = SidecarConfig started
    ∧ maps started ⊆ maps s'.
Proof.
  apply (pod_outside_the_policy_is_passed admit_system_pod started
           {| Pod_ObjectMeta := meta "dns-7c9" "kube-system" "dns" None;
              Pod_Spec := no_spec |}
           (Some {[ "injector.tyk.io/inject" := "true" ]})).
  - reflexivity.
  - left. cbn. unfold ignoredNamespaces. repeat constructor.
Defined.

Lemma services_make_no_calls_witness :
  ∃ resp s',
    processServiceMutations admit_orders_service started = Returned resp s'
    ∧ calls s' = calls started ∧ outside s' = outside started
    ∧ SidecarConfig s' = SidecarConfig started.
Proof.
  assert (processServiceMutations admit_orders_service started
          = Returned
              (answer (processServiceMutations admit_orders_service started) passed)
              (after (processServiceMutations admit_orders_service started) started))
    as Hrun by (vm_compute; reflexivity).
  eexists _, _. split; [exact Hrun|].
  exact (services_make_no_calls _ _ _ _ Hrun).
Defined.

Lemma pods_make_no_calls_without_routes_and_TLS_witness :
  ∃ resp s',
    processPodMutations admit_orders_pod started = Returned resp s'
    ∧ calls s' = calls started ∧ outside s' = outside started.
Proof.
  eexists _, _. split; [exact orders_pod_admitted|].
  exact (pods_make_no_calls_without_routes_and_TLS admit_orders_pod started _ _
           eq_refl eq_refl orders_pod_admitted).
Defined.

Lemma pod_without_app_label_is_not_patched_witness :
  ∃ s',
    processPodMutations admit_unlabelled_pod started_with_routes
    = Returned (refused "app label is required") s'
    ∧ calls s' = calls started_with_routes
    ∧ outside s' = outside started_with_routes
    ∧ SidecarConfig s' = SidecarConfig started_with_routes.
Proof.
  destruct (pod_without_app_label_is_not_patched admit_unlabelled_pod
              started_with_routes
              {| Pod_ObjectMeta :=
                   {| Name := "orders-5d4f"; GenerateName := "orders-";
                      Namespace := "shop"; Labels := ∅; Annotations := None |};
                 Pod_Spec := no_spec |}
              (Some {[ "injector.tyk.io/inject" := "true" ]}))
    as (resp & s' & Hrun & Hasked & _ & Heffects); [by vm_compute..|].
  exists s'. split; [|exact Heffects].
  rewrite <- Hasked; [exact Hrun|].
  split; [|split].
  - cbn. unfold ignoredNamespaces. rewrite !not_elem_of_cons.
    repeat split; try done. apply not_elem_of_nil.
  - by vm_compute.
  - vm_compute. repeat constructor.
Defined.

Lemma TLS_without_routes_is_refused_witness :
  ∃ s',
    processPodMutations admit_orders_pod started_with_TLS
    = Returned (refused "can't generate server cert without an inbound API ID") s'
    ∧ calls s' = calls started_with_TLS
    ∧ outside s' = outside started_with_TLS
    ∧ SidecarConfig s' = SidecarConfig started_with_TLS.
Proof.
  destruct (TLS_without_routes_is_refused admit_orders_pod started_with_TLS
              {| Pod_ObjectMeta := meta "orders-5d4f" "shop" "orders" None;
                 Pod_Spec := no_spec |}
              (Some {[ "injector.tyk.io/inject" := "true" ]}))
    as (resp & s' & Hrun & Hasked & _ & Heffects); [by vm_compute..|].
  exists s'. split; [|exact Heffects].
  rewrite <- Hasked; [exact Hrun|].
  split; [|split].
  - cbn. unfold ignoredNamespaces. rewrite !not_elem_of_cons.
    repeat split; try done. apply not_elem_of_nil.
  - by vm_compute.
  - vm_compute. repeat constructor.
Defined.

Lemma patched_pod_is_marked_injected_witness :
  ∃ resp s' bytes,
    processPodMutations admit_orders_pod started = Returned resp s'
    ∧ Patch resp = Some bytes
    ∧ ∃ pod text spec m,
        json_Unmarshal_Pod (Object_Raw (Request admit_orders_pod))
        = inr (pod, Some text)
        ∧ json_Marshal
            [{| Op := "replace"; Path := "/spec"; Value := ValuePodSpec spec |};
             {| Op := "add"; Path := "/metadata/annotations";
                Value := ValueAnnotations (Some m) |}]
          = inr bytes
        ∧ m !! AdmissionWebhookAnnotationStatusKey = Some "injected"
        ∧ m !! AdmissionWebhookAnnotationInjectKey = None
        ∧ (∀ k, k ≠ AdmissionWebhookAnnotationStatusKey →
                k ≠ AdmissionWebhookAnnotationInjectKey →
                k ≠ AdmissionWebhookAnnotationInboundServiceIDKey →
                k ≠ AdmissionWebhookAnnotationMeshServiceIDKey →
                m !! k = text !! k)
        ∧ (CreateRoutes (SidecarConfig started) = true →
           is_Some (m !! AdmissionWebhookAnnotationInboundServiceIDKey))
        ∧ (EnableMeshTLS (SidecarConfig started) = true →
           is_Some (m !! AdmissionWebhookAnnotationInboundServiceIDKey)
           ∧ is_Some (m !! AdmissionWebhookAnnotationMeshServiceIDKey)).
Proof.
  eexists _, _, _. split; [exact orders_pod_admitted|].
  split; [exact orders_pod_patch|].
  exact (patched_pod_is_marked_injected _ _ _ _ _ orders_pod_admitted
           orders_pod_patch).
Defined.

End DispatcherFurtherExamples.

Section AssemblyExamples.

Import injector standin inputs.

#[local] Existing Instance collaborators.


End AssemblyExamples.

Section HandlerExamples.

Import injector standin inputs handler.

#[local] Existing Instance collaborators.
#[local] Existing Instance transport.

(** The review of the pod of [orders], posted to the handler. *)
Lemma review_served :
  Serve blank (post "review of orders-5d4f") started
  = Returned (answer (Serve blank (post "review of orders-5d4f") started) blank)
      (after (processPodMutations admit_orders_pod started) started).
Proof. vm_compute. reflexivity. Qed.

Lemma review_changes_the_state :
  after (processPodMutations admit_orders_pod started) started ≠ started.
Proof. by vm_compute. Qed.

Lemma Serve_acts_on_reviews_only_witness :
  ∃ data req,
    Body (post "review of orders-5d4f") = Some (data, None)
    ∧ data ≠ EmptyString
    ∧ Header_Content_Type (post "review of orders-5d4f") = "application/json"
    ∧ deserializer_Decode data = (Some req, None).
Proof.
  exact (Serve_acts_on_reviews_only _ _ _ _ _ review_served
           review_changes_the_state).
Defined.

Lemma Serve_answers_the_request_witness :
  ∃ resp s' w',
    mutate {| Request := Request admit_orders_pod |} started = Returned resp s'
    ∧ Serve blank (post "review of orders-5d4f") started = Returned w' s'
    ∧ w' = (w_Write blank "705ab4f5").2.
Proof.
  destruct (Serve_answers_the_request blank (post "review of orders-5d4f") started
              "review of orders-5d4f" (Request admit_orders_pod))
    as (resp & s' & w' & Hmutate & Hserve & Hwritten);
    [reflexivity|discriminate|reflexivity|reflexivity|].
  exists resp, s', w'. split; [exact Hmutate|]. split; [exact Hserve|].
  exact Hwritten.
Defined.

Lemma Serve_panics_without_a_request_witness :
  Serve blank (post "{}") started
  = Panicked "invalid memory address or nil pointer dereference".
Proof.
  apply Serve_panics_without_a_request. split; [reflexivity|].
  exists "{}". repeat split; discriminate.
Defined.

End HandlerExamples.

Section WebServerExamples.

Import webserver inputs.

Lemma Config_then_Start_listens_witness :
  ∃ st1 st2,
    Config_ 1%positive (Some 1%positive) serving = Returned tt st1
    ∧ Start 1%positive st1 = Returned tt st2
    ∧ events st2
      = [ListenAndServeTLS ":9797" "/etc/tyk/tls.crt" "/etc/tyk/tls.key"]
    ∧ configs st2 !! 1%positive
      = Some {| Addr := ":9797"; CertFile := "/etc/tyk/tls.crt";
                KeyFile := "/etc/tyk/tls.key" |}.
Proof.
  destruct (Config_then_Start_listens 1%positive (Some 1%positive) serving
              {| mux := Some []; cfg := None; srv := None |}
              {| Addr := EmptyString; CertFile := "/etc/tyk/tls.crt";
                 KeyFile := "/etc/tyk/tls.key" |})
    as (st1 & st2 & Hconfig & Hstart & _ & Hevents & Hcaller);
    [reflexivity..|].
  exists st1, st2. split; [exact Hconfig|]. split; [exact Hstart|].
  split; [exact Hevents|]. exact (Hcaller 1%positive eq_refl).
Defined.

Lemma Start_is_not_repeated_witness :
  Start 1%positive configured = Returned tt listening
  ∧ Stop 1%positive None listening = Returned None stopped
  ∧ Start 1%positive listening = Returned tt listening
  ∧ Start 1%positive stopped = Returned tt stopped
  ∧ events stopped
    = [ListenAndServeTLS ":9797" "/etc/tyk/tls.crt" "/etc/tyk/tls.key"; Shutdown].
Proof.
  assert (Start 1%positive configured = Returned tt listening) as Hstart
    by (vm_compute; reflexivity).
  assert (Stop 1%positive None listening = Returned None stopped) as Hstop
    by (vm_compute; reflexivity).
  destruct (Start_is_not_repeated _ _ _ _ _ _ Hstart Hstop)
    as (Hagain & _ & Hafter & _).
  split; [exact Hstart|]. split; [exact Hstop|].
  split; [exact Hagain|]. split; [exact Hafter|]. reflexivity.
Defined.

Lemma Server_needs_Config_witness :
  ∃ s st1,
    Server not_created = Returned s st1
    ∧ Server st1 = Returned s st1
    ∧ Start s st1 = Panicked nil_dereference
    ∧ events st1 = events not_created.
Proof. exact (Server_needs_Config not_created eq_refl). Defined.

End WebServerExamples.
